(** * Preference-pair construction and rebalancing: a shallow embedding

    The Python tools of the repository work on values produced by
    [json.load]: lists of dictionaries with string keys.  They are embedded
    here as functions over a [json] type whose objects are finite maps
    ([gmap string json]); a Python exception is a [Raise] in the [outcome]
    monad.

    Modelling conventions:
    - a JSON number (a Python [int] or a finite [float]) is the rational [Q]
      it stands for, which is exact for comparisons; float arithmetic is
      binary64: every operation rounds to nearest, ties to even, and may
      overflow to an infinity; the non-standard JSON literals [NaN] and
      [Infinity] are not modelled;
    - a string is a [string] with one [ascii] per character;
    - Python's ordering [<] is modelled on numbers, booleans and strings,
      and is a [TypeError] on every other combination; Python also orders
      two arrays, lexicographically, which is not modelled;
    - [random.shuffle] and [random.random] are parameters acting on an
      explicit generator state;
    - reading and writing files and the [print] calls are left out: each
      function below is the part of its source function between the load
      and the dump. *)

From Stdlib Require Import QArith Qabs Qround Qpower Lqa.
From stdpp Require Import gmap strings list fin_maps.

#[local] Set Warnings "-register-all".

(** ** JSON values *)

Inductive json : Type :=
| JNull
| JBool (b : bool)
| JNum (q : Q)
| JStr (s : string)
| JArr (l : list json)
| JObj (m : gmap string json).

(** ** Exceptions *)

Inductive pyerr : Type :=
| KeyError
| TypeError
| AttributeError
| IndexError
| ZeroDivisionError
| OverflowError
| ValueError.

Inductive outcome (A : Type) : Type :=
| OK (a : A)
| Raise (e : pyerr).

Arguments OK {A} a.
Arguments Raise {A} e.

#[global] Instance outcome_ret : MRet outcome := @OK.

#[global] Instance outcome_bind : MBind outcome :=
  λ A B f r, match r with OK a => f a | Raise e => Raise e end.

#[global] Instance outcome_fmap : FMap outcome :=
  λ A B f r, match r with OK a => OK (f a) | Raise e => Raise e end.

(** A [for] loop whose body updates an accumulator and may raise. *)
Fixpoint foldM {S A : Type} (body : S → A → outcome S) (s : S) (l : list A)
  : outcome S :=
  match l with
  | [] => OK s
  | x :: l' => s' ← body s x; foldM body s' l'
  end.

(** ** Python primitives on JSON values *)

Definition Qltb (x y : Q) : bool := negb (Qle_bool y x).

(** The numeric value of a JSON value; [bool] is a subclass of [int]. *)
Definition num_of (j : json) : option Q :=
  match j with
  | JNum q => Some q
  | JBool b => Some (if b then 1%Q else 0%Q)
  | _ => None
  end.

(** [a < b] *)
Definition py_lt (a b : json) : outcome bool :=
  match num_of a, num_of b with
  | Some x, Some y => OK (Qltb x y)
  | _, _ =>
      match a, b with
      | JStr s, JStr t => OK (String.ltb s t)
      | _, _ => Raise TypeError
      end
  end.

(** [a > b] *)
Definition py_gt (a b : json) : outcome bool := py_lt b a.

(** [o[k]] for a string key [k] *)
Definition py_getitem (o : json) (k : string) : outcome json :=
  match o with
  | JObj m => match m !! k with Some v => OK v | None => Raise KeyError end
  | _ => Raise TypeError
  end.

(** [len(o)] *)
Definition py_len (o : json) : outcome nat :=
  match o with
  | JArr l => OK (length l)
  | JStr s => OK (String.length s)
  | JObj m => OK (size m)
  | _ => Raise TypeError
  end.

(** [o[i]] for a non-negative integer index [i] *)
Definition py_index (o : json) (i : nat) : outcome json :=
  match o with
  | JArr l => match l !! i with Some v => OK v | None => Raise IndexError end
  | JStr s =>
      match String.get i s with
      | Some c => OK (JStr (String c EmptyString))
      | None => Raise IndexError
      end
  | JObj _ => Raise KeyError
  | _ => Raise TypeError
  end.

(** [bool(o)] *)
Definition py_truthy (o : json) : bool :=
  match o with
  | JNull => false
  | JBool b => b
  | JNum q => negb (Qeq_bool q 0)
  | JStr s => negb (String.eqb s "")
  | JArr l => match l with [] => false | _ => true end
  | JObj m => negb (bool_decide (m = ∅))
  end.

(** [o is None] *)
Definition py_is_none (o : json) : bool :=
  match o with JNull => true | _ => false end.

(** [int(q)]: truncation toward zero *)
Definition py_int (q : Q) : Z := Z.quot (Qnum q) (Zpos (Qden q)).

(** [l[:n]] *)
Definition py_slice_to {A : Type} (l : list A) (n : Z) : list A :=
  if (0 <=? n)%Z then take (Z.to_nat n) l
  else take (length l - Z.to_nat (- n)) l.

(** ** Binary64 floating point

    A Python [float] is an IEEE 754 binary64 number.  A finite one is
    modelled by the rational it stands for.  An arithmetic operator rounds
    the exact result to the nearest binary64 number, ties to even, and
    overflows to an infinity.  The sign of a zero is not modelled: the code
    modelled cannot tell the two zeros apart, since [int] and the
    comparisons ignore the sign and a division by either zero raises. *)

(** [2^e] *)
Definition pow2 (e : Z) : Q := (2 ^ e)%Q.

(** [floor(log2(x))] for [0 < x] *)
Definition Qlog2 (x : Q) : Z :=
  let k := (Z.log2 (Qnum x) - Z.log2 (Zpos (Qden x)))%Z in
  if Qle_bool (pow2 k) x then k else (k - 1)%Z.

(** The integer nearest to [x], ties to even. *)
Definition round_half_even (x : Q) : Z :=
  let f := Qfloor x in
  match (x - inject_Z f ?= 1 # 2)%Q with
  | Lt => f
  | Gt => (f + 1)%Z
  | Eq => if Z.even f then f else (f + 1)%Z
  end.

(** The multiple of [2^e] nearest to [a >= 0], where [e] leaves 53 bits to
    the significand of [a] and is at least -1074, the exponent of the
    subnormal numbers. *)
Definition nearest64 (a : Q) : Q :=
  let e := Z.max (Qlog2 a - 52) (-1074) in
  (inject_Z (round_half_even (a / pow2 e)) * pow2 e)%Q.

Inductive float : Type :=
| Finite (q : Q)
| Infinity (negative : bool)
| NaN.

(** The binary64 number nearest to [x]; an infinity from [2^1024] on. *)
Definition round64 (x : Q) : float :=
  let y := nearest64 (Qabs x) in
  if Qle_bool (pow2 1024) y then Infinity (Qltb x 0)
  else Finite (Qred (if Qltb x 0 then - y else y)).

(** [q] is a binary64 number: rounding leaves it as it is. *)
Definition binary64 (q : Q) : Prop :=
  ∃ y, round64 q = Finite y ∧ (y == q)%Q.

(** [x * y] *)
Definition float_mul (x y : float) : float :=
  match x, y with
  | NaN, _ | _, NaN => NaN
  | Finite a, Finite b => round64 (a * b)
  | Infinity s, Finite b | Finite b, Infinity s =>
      if Qeq_bool b 0 then NaN else Infinity (xorb s (Qltb b 0))
  | Infinity s, Infinity t => Infinity (xorb s t)
  end.

(** [x - y] *)
Definition float_sub (x y : float) : float :=
  match x, y with
  | NaN, _ | _, NaN => NaN
  | Finite a, Finite b => round64 (a - b)
  | Infinity s, Finite _ => Infinity s
  | Finite _, Infinity t => Infinity (negb t)
  | Infinity s, Infinity t => if Bool.eqb s t then NaN else Infinity s
  end.

(** [x / y]: a zero divisor raises. *)
Definition float_div (x y : float) : outcome float :=
  match x, y with
  | _, Finite b =>
      if Qeq_bool b 0 then Raise ZeroDivisionError
      else match x with
           | Finite a => OK (round64 (a / b))
           | Infinity s => OK (Infinity (xorb s (Qltb b 0)))
           | NaN => OK NaN
           end
  | NaN, _ | _, NaN => OK NaN
  | Finite _, Infinity _ => OK (Finite 0)
  | Infinity _, Infinity _ => OK NaN
  end.

(** The conversion of an integer operand of a float operator. *)
Definition float_of_int (n : Z) : outcome float :=
  match round64 (inject_Z n) with
  | Infinity _ => Raise OverflowError
  | x => OK x
  end.

(** [int(x)] for a float [x] *)
Definition int_of_float (x : float) : outcome Z :=
  match x with
  | Finite q => OK (py_int q)
  | Infinity _ => Raise OverflowError
  | NaN => Raise ValueError
  end.

(** [a / b] for integers [a] and [b]: the quotient, correctly rounded. *)
Definition int_truediv (a b : Z) : outcome Q :=
  if (b =? 0)%Z then Raise ZeroDivisionError
  else match round64 (inject_Z a / inject_Z b) with
       | Finite q => OK q
       | _ => Raise OverflowError
       end.

(** [q] is the quotient of [c] by [w] up to one rounding. *)
Definition rounded_quotient (q : Q) (c w : Z) : Prop :=
  (Qabs (q - inject_Z c / inject_Z w)
   <= inject_Z c / inject_Z w * pow2 (-53))%Q.

(** ** ComparisonExpander: [convert_to_dpo.py] *)

Definition dpo_entry (user_input chosen_response rejected_response
    chosen_score rejected_score chosen_source rejected_source : json)
  : gmap string json :=
  {[ "conversation" :=
       JArr [JObj {[ "from" := JStr "human"; "value" := user_input ]}];
     "chosen" := JObj {[ "from" := JStr "gpt"; "value" := chosen_response ]};
     "rejected" :=
       JObj {[ "from" := JStr "gpt"; "value" := rejected_response ]};
     "chosen_score" := chosen_score;
     "rejected_score" := rejected_score;
     "chosen_source" := chosen_source;
     "rejected_source" := rejected_source ]}.

(** Lines 43-65: build the entry and append it. *)
Definition append_dpo_entry (user_input chosen rejected : json)
    (dpo_data : list json) : outcome (list json) :=
  cr ← py_getitem chosen "response";
  rr ← py_getitem rejected "response";
  cs ← py_getitem chosen "score";
  rs ← py_getitem rejected "score";
  csrc ← py_getitem chosen "source";
  rsrc ← py_getitem rejected "source";
  OK (dpo_data ++ [JObj (dpo_entry user_input cr rr cs rs csrc rsrc)]).

(** Lines 29-65: the body of the inner loop. *)
Definition expand_pair (user_input responses_and_scores : json) (i : nat)
    (dpo_data : list json) (j : nat) : outcome (list json) :=
  response_1 ← py_index responses_and_scores i;
  response_2 ← py_index responses_and_scores j;
  s1 ← py_getitem response_1 "score";
  s2 ← py_getitem response_2 "score";
  gt12 ← py_gt s1 s2;
  if gt12 : bool then append_dpo_entry user_input response_1 response_2 dpo_data
  else
    s2' ← py_getitem response_2 "score";
    s1' ← py_getitem response_1 "score";
    gt21 ← py_gt s2' s1';
    if gt21 : bool
    then append_dpo_entry user_input response_2 response_1 dpo_data
    else OK dpo_data.

(** Lines 23-65: the body of the loop over the entries. *)
Definition expand_entry (dpo_data : list json) (entry : json)
  : outcome (list json) :=
  user_input ← py_getitem entry "user_input";
  responses_and_scores ← py_getitem entry "responses_and_scores";
  n ← py_len responses_and_scores;
  foldM (λ acc i,
           foldM (expand_pair user_input responses_and_scores i) acc
                 (seq (i + 1) (n - (i + 1))))
        dpo_data (seq 0 n).

(** Lines 19-65 of [convert_to_dpo_format]. *)
Definition convert_to_dpo_pairs (comparison_data : list json)
  : outcome (list json) :=
  foldM expand_entry [] comparison_data.

(** *** Vocabulary for the statements about the expander *)

(** [C(n,2)] *)
Definition choose2 (n : nat) : nat := n * (n - 1) / 2.

(** The index pairs [(i, j)], [i < j < n], in the order of the two loops. *)
Definition index_pairs (n : nat) : list (nat * nat) :=
  flat_map (λ i, pair i <$> seq (i + 1) (n - (i + 1))) (seq 0 n).

(** The candidates at [p.1] and [p.2] have the same score. *)
Definition tied (scores : list Q) (p : nat * nat) : bool :=
  match scores !! p.1, scores !! p.2 with
  | Some a, Some b => Qeq_bool a b
  | _, _ => false
  end.

Definition tied_pairs (scores : list Q) : nat :=
  length (List.filter (tied scores) (index_pairs (length scores))).

(** A candidate as the expander reads it: a dictionary with a numeric
    ["score"], a ["response"] and a ["source"]. *)
Definition is_candidate (c : json) (score : Q) : Prop :=
  ∃ m response source,
    c = JObj m ∧ m !! "score" = Some (JNum score) ∧
    m !! "response" = Some response ∧ m !! "source" = Some source.

Definition candidate (response : string) (score : Q) (source : string)
  : json :=
  JObj {[ "response" := JStr response; "score" := JNum score;
          "source" := JStr source ]}.

Definition prompt_record (prompt : string) (candidates : list json)
  : gmap string json :=
  {[ "user_input" := JStr prompt; "responses_and_scores" := JArr candidates ]}.

(** What the expander guarantees of an emitted pair: both score fields are
    there and the chosen one is strictly greater. *)
Definition strictly_ordered (p : json) : Prop :=
  ∃ m c r,
    p = JObj m ∧ m !! "chosen_score" = Some c ∧
    m !! "rejected_score" = Some r ∧ py_gt c r = OK true ∧
    py_gt r c = OK false ∧
    (∀ x y, c = JNum x → r = JNum y → (y < x)%Q).

(** ** The random module *)

(** [random.seed], [random.random] and [random.shuffle] over an explicit
    generator state. *)
Class PyRandom (rng : Type) : Type := {
  random_seed : Z → rng;
  random_random : rng → Q * rng;
  random_shuffle : rng → list json → list json * rng
}.

(** ** RatioRebalancer: [tools/downsample_scores.py] *)

(** Lines 29-44: the body of the classification loop; the state is the pair
    [(less_than, greater_equal)]. *)
Definition classify (st : list json * list json) (item : json)
  : outcome (list json * list json) :=
  let '(less_than, greater_equal) := st in
  match item with
  | JObj m =>
      match m !! "chosen_score", m !! "rejected_score" with
      | Some chosen_score, Some rejected_score =>
          lt ← py_lt chosen_score rejected_score;
          if lt : bool then OK (less_than ++ [item], greater_equal)
          else OK (less_than, greater_equal ++ [item])
      | _, _ => OK (less_than, greater_equal ++ [item])
      end
  | _ => OK st
  end.

(** Line 87 *)
Definition required_less_count (target_ratio : Q) (total_greater_equal : Z)
  : outcome Z :=
  n ← float_of_int total_greater_equal;
  q ← float_div (float_mul (Finite target_ratio) n)
                (float_sub (Finite 1) (Finite target_ratio));
  int_of_float q.

(** Line 94 *)
Definition required_greater_equal_count (target_ratio : Q) (total_less : Z)
  : outcome Z :=
  n ← float_of_int total_less;
  q ← float_div (float_mul n (float_sub (Finite 1) (Finite target_ratio)))
                (Finite target_ratio);
  int_of_float q.

(** Lines 84-101: the two sample counts. *)
Definition sample_counts (target_ratio : Q)
    (total_less total_greater_equal : Z) : outcome (Z * Z) :=
  required_less ← required_less_count target_ratio total_greater_equal;
  '(required_less, required_greater_equal) ←
    (if (total_less <? required_less)%Z
     then
       required_greater_equal ←
         required_greater_equal_count target_ratio total_less;
       OK (total_less, required_greater_equal)
     else OK (required_less, total_greater_equal));
  OK (Z.min required_less total_less,
      Z.min required_greater_equal total_greater_equal).

(** Lines 122-126: the condition of the generator expression. *)
Definition is_less (item : json) : outcome bool :=
  match item with
  | JObj m =>
      match m !! "chosen_score", m !! "rejected_score" with
      | Some chosen_score, Some rejected_score =>
          py_lt chosen_score rejected_score
      | _, _ => OK false
      end
  | _ => OK false
  end.

Definition final_less (result : list json) : outcome Z :=
  foldM (λ n item, b ← is_less item; OK (if b : bool then n + 1 else n)%Z)
        0%Z result.

(** Line 127 *)
Definition final_ratio (result : list json) : outcome Q :=
  n ← final_less result;
  if (0 <? Z.of_nat (length result))%Z
  then int_truediv n (Z.of_nat (length result))
  else OK 0%Q.

Definition downsample_dataset `{PyRandom rng} (data : list json)
    (target_ratio : Q) (g : rng) : outcome (list json * rng) :=
  '(less_than, greater_equal) ← foldM classify ([], []) data;
  let total_less := Z.of_nat (length less_than) in
  let total_greater_equal := Z.of_nat (length greater_equal) in
  if (total_less =? 0)%Z then OK (data, g)
  else if Qle_bool 1 target_ratio then OK (less_than, g)
  else if Qle_bool target_ratio 0 then OK (greater_equal, g)
  else
    '(required_less, required_greater_equal) ←
      sample_counts target_ratio total_less total_greater_equal;
    let '(less_than, g) := random_shuffle g less_than in
    let '(greater_equal, g) := random_shuffle g greater_equal in
    let sampled_less := py_slice_to less_than required_less in
    let sampled_greater_equal :=
      py_slice_to greater_equal required_greater_equal in
    let '(result, g) :=
      random_shuffle g (sampled_less ++ sampled_greater_equal) in
    _ ← final_ratio result;
    OK (result, g).

(** *** Vocabulary for the statements about the rebalancer *)

(** The predicate of the rebalancer holds of [item]:
    [chosen_score < rejected_score]. *)
Definition predicate_true (item : json) : bool :=
  match is_less item with OK true => true | _ => false end.

(** [item] is a dictionary of which the predicate is false. *)
Definition false_class (item : json) : bool :=
  match item with
  | JObj _ => match is_less item with OK false => true | _ => false end
  | _ => false
  end.

(** A deterministic stand-in for the random module: the state counts the
    calls, a shuffle reverses the list. *)
Definition counting_random : PyRandom Z := {|
  random_seed s := s;
  random_random g := (inject_Z (g mod 10) / 10, (g + 1)%Z)%Q;
  random_shuffle g l := (reverse l, (g + 1)%Z)
|}.

Definition scored_pair (chosen_score rejected_score : Q) : json :=
  JObj {[ "chosen_score" := JNum chosen_score;
          "rejected_score" := JNum rejected_score ]}.

Definition unscored_pair (chosen rejected : string) : json :=
  JObj {[ "chosen" := JStr chosen; "rejected" := JStr rejected ]}.

(** The binary64 number nearest to 0.3. *)
Definition three_tenths : Q := 5404319552844595 # 18014398509481984.

(** Three pairs of the true class and ten of the false class. *)
Definition imbalanced_data : list json :=
  replicate 3 (scored_pair 1 2) ++ replicate 10 (scored_pair 5 3).

(** ** Canonicalizer, enforce mode: [tools/flip_scores.py] *)

Definition flip_data_point (data_point : gmap string json)
  : outcome (gmap string json) :=
  match data_point !! "chosen_score", data_point !! "rejected_score" with
  | Some chosen_score, Some rejected_score =>
      lt ← py_lt chosen_score rejected_score;
      if lt : bool then
        let data_point :=
          <["rejected_score" := chosen_score]>
            (<["chosen_score" := rejected_score]> data_point) in
        match data_point !! "chosen", data_point !! "rejected" with
        | Some chosen, Some rejected =>
            OK (<["rejected" := chosen]> (<["chosen" := rejected]> data_point))
        | _, _ => OK data_point
        end
      else OK data_point
  | _, _ => OK data_point
  end.

(** Lines 86-99 of [process_json_file]: the body of the loop.  The list is
    updated in place; the state is the list of the items already visited and
    [flipped_count]. *)
Definition enforce_step (st : list json * Z) (data_point : json)
  : outcome (list json * Z) :=
  let '(done, flipped_count) := st in
  match data_point with
  | JObj m =>
      let original_chosen_score := default JNull (m !! "chosen_score") in
      let original_rejected_score := default JNull (m !! "rejected_score") in
      if py_is_none original_chosen_score || py_is_none original_rejected_score
      then OK (done ++ [data_point], flipped_count)
      else
        lt ← py_lt original_chosen_score original_rejected_score;
        if lt : bool then
          m' ← flip_data_point m;
          OK (done ++ [JObj m'], (flipped_count + 1)%Z)
        else OK (done ++ [data_point], flipped_count)
  | _ => OK (done ++ [data_point], flipped_count)
  end.

Definition enforce_counting (data : list json) : outcome (list json * Z) :=
  foldM enforce_step ([], 0%Z) data.

(** The list written by [process_json_file]. *)
Definition enforce (data : list json) : outcome (list json) :=
  fst <$> enforce_counting data.

(** *** Vocabulary for the statements about the canonicalizer *)

Definition scores_exchanged (m m' : gmap string json) : Prop :=
  m' !! "chosen_score" = m !! "rejected_score" ∧
  m' !! "rejected_score" = m !! "chosen_score".

Definition texts_exchanged (m m' : gmap string json) : Prop :=
  m' !! "chosen" = m !! "rejected" ∧ m' !! "rejected" = m !! "chosen".

Definition texts_kept (m m' : gmap string json) : Prop :=
  m' !! "chosen" = m !! "chosen" ∧ m' !! "rejected" = m !! "rejected".

(** The two dictionaries agree on every key outside [keys]. *)
Definition same_elsewhere (keys : list string) (m m' : gmap string json)
  : Prop :=
  ∀ k, k ∉ keys → m' !! k = m !! k.

(** What one step of enforce mode turns [x] into. *)
Definition enforced (x x' : json) : Prop :=
  ∃ k, enforce_step ([], 0%Z) x = OK ([x'], k).

(** A pair as the expander writes it. *)
Definition sourced_pair : gmap string json :=
  dpo_entry (JStr "P") (JStr "A") (JStr "B") (JNum 3) (JNum 5)
            (JStr "model_a") (JStr "model_b").

(** ** Canonicalizer, noise-injection mode, and FormatAdapter:
       [tools/flip_and_convert_to_sft.py] *)

(** [d[k]] on a dictionary *)
Definition dict_getitem (d : gmap string json) (k : string) : outcome json :=
  match d !! k with Some v => OK v | None => Raise KeyError end.

(** Lines 50-58: the body of the loop; the state is
    [(flipped_data, flip_count)] and the generator. *)
Definition flip_step `{PyRandom rng} (flip_ratio : Q)
    (st : list (gmap string json) * Z * rng) (item : gmap string json)
  : outcome (list (gmap string json) * Z * rng) :=
  let '(flipped_data, flip_count, g) := st in
  let new_item := item in
  let '(u, g) := random_random g in
  if Qltb u flip_ratio then
    rejected ← dict_getitem item "rejected";
    chosen ← dict_getitem item "chosen";
    let new_item :=
      <["rejected" := chosen]> (<["chosen" := rejected]> new_item) in
    OK (flipped_data ++ [new_item], (flip_count + 1)%Z, g)
  else OK (flipped_data ++ [new_item], flip_count, g).

Definition flip_chosen_rejected `{PyRandom rng}
    (data : list (gmap string json)) (flip_ratio : Q) (seed : option Z)
    (g : rng) : outcome (list (gmap string json) * rng) :=
  let g := match seed with Some s => random_seed s | None => g end in
  '(flipped_data, flip_count, g) ← foldM (flip_step flip_ratio) ([], 0%Z, g) data;
  (* the summary line divides by [len(data)] *)
  if (Z.of_nat (length data) =? 0)%Z then Raise ZeroDivisionError
  else OK (flipped_data, g).

(** [o.get(k, d)] *)
Definition py_get (o : json) (k : string) (d : json) : outcome json :=
  match o with
  | JObj m => OK (default d (m !! k))
  | _ => Raise AttributeError
  end.

(** The values a [for] loop over [o] visits. *)
Definition py_iter (o : json) : outcome (list json) :=
  match o with
  | JArr l => OK l
  | JStr s => OK ((λ c, JStr (String c EmptyString)) <$> String.list_ascii_of_string s)
  | JObj m => OK (JStr <$> (map_to_list m).*1)
  | _ => Raise TypeError
  end.

(** [o == s] for a string literal [s] *)
Definition py_eq_str (o : json) (s : string) : bool :=
  match o with JStr t => String.eqb t s | _ => false end.

(** Lines 81-84: the loop looking for the first human message. *)
Fixpoint first_human (conversations : list json) : outcome json :=
  match conversations with
  | [] => OK (JStr "")
  | conv :: rest =>
      from ← py_get conv "from" JNull;
      if py_eq_str from "human" then py_get conv "value" (JStr "")
      else first_human rest
  end.

Definition sft_entry (instruction output : json) : gmap string json :=
  {[ "instruction" := instruction; "input" := JStr ""; "output" := output ]}.

(** Lines 78-98: the body of the loop of [convert_to_sft]. *)
Definition sft_step (sft_data : list (gmap string json))
    (item : gmap string json) : outcome (list (gmap string json)) :=
  instruction ←
    match item !! "conversations" with
    | Some conversations =>
        n ← py_len conversations;
        if (0 <? n)%nat then py_iter conversations ≫= first_human
        else OK (JStr "")
    | None => OK (JStr "")
    end;
  output ←
    match item !! "chosen" with
    | Some chosen => py_get chosen "value" (JStr "")
    | None => OK (JStr "")
    end;
  OK (sft_data ++ [sft_entry instruction output]).

Definition convert_to_sft (data : list (gmap string json))
  : outcome (list (gmap string json)) :=
  foldM sft_step [] data.

(** ** FormatAdapter: [tools/dpo_to_sft.py] *)

Section DpoToSft.
(** [str(o)] *)
Variable py_str : json → string.

(** Lines 19-41: the body of the loop of [convert_dpo_to_sft]. *)
Definition dpo_to_sft_step (sft_data : list (gmap string json))
    (item : json) : outcome (list (gmap string json)) :=
  conversations ← py_get item "conversations" (JArr []);
  if negb (py_truthy conversations) then OK sft_data
  else
    first ← py_index conversations 0;
    instruction ← py_get first "value" (JStr "");
    chosen ← py_get item "chosen" (JObj ∅);
    let output :=
      match chosen with
      | JObj m => default (JStr "") (m !! "value")
      | _ => JStr (py_str chosen)
      end in
    OK (sft_data ++ [sft_entry instruction output]).

(** Lines 17-41 of [convert_dpo_to_sft]. *)
Definition convert_dpo_to_sft (data : list json)
  : outcome (list (gmap string json)) :=
  foldM dpo_to_sft_step [] data.
End DpoToSft.

(** *** Vocabulary for the statements about noise injection and the
        adapters *)

(** [new_item] is [item] with the values of ["chosen"] and ["rejected"]
    exchanged by the assignment of line 55. *)
Definition noise_flipped (item new_item : gmap string json) : Prop :=
  ∃ chosen rejected,
    item !! "chosen" = Some chosen ∧ item !! "rejected" = Some rejected ∧
    new_item = <["rejected" := chosen]> (<["chosen" := rejected]> item).

(** No turn of the conversation is a dictionary whose ["from"] is
    ["human"]. *)
Definition no_human_turn (conversations : list json) : Prop :=
  Forall (λ conv, ∃ m, conv = JObj m ∧ m !! "from" ≠ Some (JStr "human"))
         conversations.

(** A pair whose only turn comes from the model and that has no chosen
    field. *)
Definition gpt_only_pair : gmap string json :=
  {[ "conversations" :=
       JArr [JObj {[ "from" := JStr "gpt"; "value" := JStr "hi" ]}] ]}.

(** ** ReproducibleSplitter: the end of [convert_to_dpo_format] *)

(** [l[n:]] *)
Definition py_slice_from {A : Type} (l : list A) (n : Z) : list A :=
  if (0 <=? n)%Z then drop (Z.to_nat n) l
  else drop (length l - Z.to_nat (- n)) l.

(** Lines 67-74 of [convert_to_dpo.py]: seed, shuffle in place, split. *)
Definition split_train_test `{PyRandom rng} (dpo_data : list json)
    (train_ratio : Q) : outcome (list json * list json) :=
  let g := random_seed 42 in
  let '(dpo_data, g) := random_shuffle g dpo_data in
  n ← float_of_int (Z.of_nat (length dpo_data));
  split_idx ← int_of_float (float_mul n (Finite train_ratio));
  OK (py_slice_to dpo_data split_idx, py_slice_from dpo_data split_idx).

(** Lines 19-74 of [convert_to_dpo.py]: the two lists written to the train
    and test files. *)
Definition convert_to_dpo_format `{PyRandom rng} (comparison_data : list json)
    (train_ratio : Q) : outcome (list json * list json) :=
  dpo_data ← convert_to_dpo_pairs comparison_data;
  split_train_test dpo_data train_ratio.

(** ** Log extraction: [tools/get_max_eval_reward_accuracies.py] *)

(** [k in o] for a string [k] *)
Definition py_contains (k : string) (o : json) : outcome bool :=
  match o with
  | JObj m => OK (bool_decide (is_Some (m !! k)))
  | JArr l => OK (existsb (λ x, py_eq_str x k) l)
  | JStr s => OK (bool_decide (is_Some (String.index 0 k s)))
  | _ => Raise TypeError
  end.

(** Lines 33-43: the body of the loop over the lines of the file.  A line is
    [None] when it is blank or is not valid JSON (both are skipped), and
    [Some data] when [json.loads] returns [data]. *)
Definition max_step (name : string) (max_value : json) (line : option json)
  : outcome json :=
  match line with
  | None => OK max_value
  | Some data =>
      n ← py_get data "name" JNull;
      if py_eq_str n name then
        has ← py_contains "eval_rewards_accuracies" data;
        if has : bool then
          value ← py_getitem data "eval_rewards_accuracies";
          if py_is_none max_value then OK value
          else
            gt ← py_gt value max_value;
            OK (if gt : bool then value else max_value)
        else OK max_value
      else OK max_value
  end.

(** Lines 28-55: any exception raised inside the loop is caught by the outer
    handler, which returns [None]. *)
Definition get_max_eval_rewards_accuracies (lines : list (option json))
    (name : string) : json :=
  match foldM (max_step name) JNull lines with
  | OK max_value => max_value
  | Raise _ => JNull
  end.

(** The value the loop compares when it reads [line], if any: that of a
    record with the name looked for and an accuracy. *)
Definition matching_value (name : string) (line : option json)
  : option json :=
  match line with
  | Some (JObj m) =>
      if py_eq_str (default JNull (m !! "name")) name
      then m !! "eval_rewards_accuracies" else None
  | _ => None
  end.

Definition matching_values (name : string) (lines : list (option json))
  : list json :=
  omap (matching_value name) lines.

(** Every line that parses is a dictionary, and the accuracies of the
    records with the name looked for are numbers. *)
Definition well_formed_log (name : string) (lines : list (option json))
  : Prop :=
  Forall (λ line, match line with
                  | Some (JObj m) =>
                      ∀ v, matching_value name line = Some v → ∃ q, v = JNum q
                  | Some _ => False
                  | None => True
                  end) lines.

Definition log_record (name : string) (accuracy : Q) : option json :=
  Some (JObj {[ "name" := JStr name;
                "eval_rewards_accuracies" := JNum accuracy ]}).

(** ** Score analysis: [tools/analyze_scores.py] *)

(** [a == b], on the values [a > b] is defined on: it is evaluated only
    after [a > b] has returned. *)
Definition py_eq (a b : json) : bool :=
  match num_of a, num_of b with
  | Some x, Some y => Qeq_bool x y
  | _, _ =>
      match a, b with
      | JStr s, JStr t => String.eqb s t
      | _, _ => false
      end
  end.

(** The statistics variables of lines 26-33. *)
Record tally : Type := Tally {
  points_with_scores : Z;
  chosen_scores : list json;
  rejected_scores : list json;
  chosen_greater_count : Z;
  chosen_equal_count : Z;
  chosen_less_count : Z
}.

(** Lines 36-51: the body of the loop over the data points. *)
Definition analyze_step (t : tally) (item : json) : outcome tally :=
  has_chosen ← py_contains "chosen_score" item;
  has ← (if has_chosen : bool then py_contains "rejected_score" item
         else OK false);
  if has : bool then
    chosen_score ← py_getitem item "chosen_score";
    rejected_score ← py_getitem item "rejected_score";
    let t :=
      Tally (points_with_scores t + 1) (chosen_scores t ++ [chosen_score])
            (rejected_scores t ++ [rejected_score])
            (chosen_greater_count t) (chosen_equal_count t)
            (chosen_less_count t) in
    gt ← py_gt chosen_score rejected_score;
    if gt : bool then
      OK (Tally (points_with_scores t) (chosen_scores t) (rejected_scores t)
                (chosen_greater_count t + 1) (chosen_equal_count t)
                (chosen_less_count t))
    else if py_eq chosen_score rejected_score then
      OK (Tally (points_with_scores t) (chosen_scores t) (rejected_scores t)
                (chosen_greater_count t) (chosen_equal_count t + 1)
                (chosen_less_count t))
    else
      OK (Tally (points_with_scores t) (chosen_scores t) (rejected_scores t)
                (chosen_greater_count t) (chosen_equal_count t)
                (chosen_less_count t + 1))
  else OK t.

(** [count / points_with_scores if points_with_scores > 0 else 0] *)
Definition ratio_of (count points : Z) : outcome Q :=
  if (0 <? points)%Z then int_truediv count points else OK 0%Q.

Section AnalyzeScores.
(** The dictionary of [count], [mean], [median], [min], [max] and [stdev]
    that lines 67-74 and 76-83 build from a list of scores with the
    [statistics] module. *)
Variable score_stats : list json → outcome json.

(** Lines 26-86 of [analyze_scores], on the loaded [data]. *)
Definition analyze_scores (data : list json) : outcome (gmap string json) :=
  let total_points := Z.of_nat (length data) in
  t ← foldM analyze_step (Tally 0 [] [] 0 0 0) data;
  chosen_greater_ratio ←
    ratio_of (chosen_greater_count t) (points_with_scores t);
  chosen_equal_ratio ←
    ratio_of (chosen_equal_count t) (points_with_scores t);
  chosen_less_ratio ←
    ratio_of (chosen_less_count t) (points_with_scores t);
  let results : gmap string json :=
    {[ "total_points" := JNum (inject_Z total_points);
       "points_with_scores" := JNum (inject_Z (points_with_scores t));
       "points_without_scores" :=
         JNum (inject_Z (total_points - points_with_scores t));
       "chosen_greater_ratio" := JNum chosen_greater_ratio;
       "chosen_equal_ratio" := JNum chosen_equal_ratio;
       "chosen_less_ratio" := JNum chosen_less_ratio;
       "chosen_greater_count" := JNum (inject_Z (chosen_greater_count t));
       "chosen_equal_count" := JNum (inject_Z (chosen_equal_count t));
       "chosen_less_count" := JNum (inject_Z (chosen_less_count t)) ]} in
  if bool_decide (chosen_scores t = []) then OK results
  else
    chosen_score_stats ← score_stats (chosen_scores t);
    rejected_score_stats ← score_stats (rejected_scores t);
    OK (<["rejected_score_stats" := rejected_score_stats]>
          (<["chosen_score_stats" := chosen_score_stats]> results)).
End AnalyzeScores.

(** ** Dataset conversion: [convert_ultrafeedback_to_dpo.py] *)

Module Ultrafeedback.

(** What a call of [convert_to_dpo_format] ends in.  [chosen_response] is
    assigned only inside the loop, so reading it at line 73 raises
    [UnboundLocalError] when no assistant message was seen. *)
Inductive conversion : Type :=
| Converted (result : gmap string json)
| RaisedUnboundLocalError
| Raised (e : pyerr).

(** Lines 52-60: the body of the loop over [example['chosen']]; the state is
    [conversations] and [chosen_response], unbound at first. *)
Definition chosen_step (st : list json * option json) (msg : json)
  : outcome (list json * option json) :=
  let '(conversations, chosen_response) := st in
  role ← py_getitem msg "role";
  if py_eq_str role "user" then
    content ← py_getitem msg "content";
    OK (conversations ++
          [JObj {[ "from" := JStr "human"; "value" := content ]}],
        chosen_response)
  else
    role ← py_getitem msg "role";
    if py_eq_str role "assistant" then
      content ← py_getitem msg "content";
      OK (conversations, Some content)
    else OK st.

(** Lines 64-66: the body of the loop over [example['rejected']]. *)
Definition rejected_step (rejected_response : json) (msg : json)
  : outcome json :=
  role ← py_getitem msg "role";
  if py_eq_str role "assistant" then py_getitem msg "content"
  else OK rejected_response.

(** Lines 49-66 *)
Definition collect (example : json)
  : outcome (list json * option json * json) :=
  chosen ← py_getitem example "chosen";
  msgs ← py_iter chosen;
  '(conversations, chosen_response) ← foldM chosen_step ([], None) msgs;
  rejected ← py_getitem example "rejected";
  msgs ← py_iter rejected;
  rejected_response ← foldM rejected_step JNull msgs;
  OK (conversations, chosen_response, rejected_response).

Definition convert_to_dpo_format (example : json) : conversion :=
  match collect example with
  | Raise e => Raised e
  | OK (conversations, None, _) => RaisedUnboundLocalError
  | OK (conversations, Some chosen_response, rejected_response) =>
      Converted
        {[ "conversations" := JArr conversations;
           "chosen" :=
             JObj {[ "from" := JStr "gpt"; "value" := chosen_response ]};
           "rejected" :=
             JObj {[ "from" := JStr "gpt"; "value" := rejected_response ]} ]}
  end.

End Ultrafeedback.

(** A message of an ultrafeedback example. *)
Definition message (role content : string) : json :=
  JObj {[ "role" := JStr role; "content" := JStr content ]}.

(** [msg] is a dictionary with the given ["role"] and ["content"]. *)
Definition is_message (msg : json) (role : json) (content : json) : Prop :=
  ∃ m, msg = JObj m ∧ m !! "role" = Some role ∧ m !! "content" = Some content.

(** *** Vocabulary for the further statements about the adapters *)

(** [item] is a dictionary whose ["conversations"] is true in a test. *)
Definition has_conversations (item : json) : bool :=
  match item with
  | JObj m => py_truthy (default (JArr []) (m !! "conversations"))
  | _ => false
  end.

(** A pair whose first turn comes from the human and whose ["chosen"] is a
    dictionary. *)
Definition starts_with_human (item : gmap string json) : Prop :=
  ∃ h rest ch,
    item !! "conversations" = Some (JArr (JObj h :: rest)) ∧
    h !! "from" = Some (JStr "human") ∧
    item !! "chosen" = Some (JObj ch).

Definition human_pair (prompt chosen rejected : string)
  : gmap string json :=
  {[ "conversations" :=
       JArr [JObj {[ "from" := JStr "human"; "value" := JStr prompt ]}];
     "chosen" := JObj {[ "from" := JStr "gpt"; "value" := JStr chosen ]};
     "rejected" := JObj {[ "from" := JStr "gpt"; "value" := JStr rejected ]} ]}.

(** A stand-in for the statistics of a list of scores: its length only. *)
Definition count_only_stats (scores : list json) : outcome json :=
  OK (JObj {[ "count" := JNum (inject_Z (Z.of_nat (length scores))) ]}).

(** Four data points: one with the chosen score less, one with it greater,
    one tie and one without scores; and the analysis of that list, where
    each ratio is the binary64 number nearest to a third. *)
Definition analysis_data : list json :=
  [scored_pair 1 2; scored_pair 5 3; scored_pair 4 4; unscored_pair "x" "y"].

Definition analysis_results : gmap string json :=
  <["rejected_score_stats" := JObj {[ "count" := JNum 3 ]}]>
    (<["chosen_score_stats" := JObj {[ "count" := JNum 3 ]}]>
       {[ "total_points" := JNum 4;
          "points_with_scores" := JNum 3;
          "points_without_scores" := JNum 1;
          "chosen_greater_ratio" :=
            JNum (6004799503160661 # 18014398509481984);
          "chosen_equal_ratio" :=
            JNum (6004799503160661 # 18014398509481984);
          "chosen_less_ratio" :=
            JNum (6004799503160661 # 18014398509481984);
          "chosen_greater_count" := JNum 1;
          "chosen_equal_count" := JNum 1;
          "chosen_less_count" := JNum 1 ]}).

(** The turns the conversion builds from messages given as pairs of a
    role and a content: one for each user message, in order. *)
Definition human_turns (messages : list (json * json)) : list json :=
  (λ rc, JObj {[ "from" := JStr "human"; "value" := rc.2 ]})
    <$> List.filter (λ rc : json * json, py_eq_str rc.1 "user") messages.

(** The content of the last assistant message, if there is one. *)
Definition last_assistant (messages : list (json * json)) : option json :=
  last (snd <$> List.filter (λ rc : json * json, py_eq_str rc.1 "assistant")
                            messages).

(** An ultrafeedback example with the two message lists. *)
Definition ultrafeedback_example (chosen rejected : list json) : json :=
  JObj {[ "chosen" := JArr chosen; "rejected" := JArr rejected ]}.

(** * Properties *)

(** ** The monad and the primitives *)

Lemma bind_OK_inv {A B} (r : outcome A) (f : A → outcome B) (b : B) :
  (r ≫= f) = OK b → ∃ a, r = OK a ∧ f a = OK b.
Proof. destruct r as [a|e]; [eauto | discriminate]. Qed.

Lemma foldM_app {S A} (body : S → A → outcome S) s l1 l2 :
  foldM body s (l1 ++ l2) = foldM body s l1 ≫= λ s', foldM body s' l2.
Proof.
  revert s. induction l1 as [|x l1 IH]; intros s; [done|].
  simpl. destruct (body s x) as [s'|e]; [apply IH | done].
Qed.

(** Two nested loops visit the pairs of indices one after the other. *)
Lemma foldM_nested {S A B} (body : A → S → B → outcome S)
    (inner : A → list B) s (l : list A) :
  foldM (λ acc i, foldM (body i) acc (inner i)) s l
  = foldM (λ acc p, body p.1 acc p.2) s
          (flat_map (λ i, pair i <$> inner i) l).
Proof.
  revert s. induction l as [|i l IH]; intros s; [done|].
  simpl. rewrite foldM_app.
  assert (Hin : ∀ js acc, foldM (body i) acc js
      = foldM (λ acc p, body p.1 acc p.2) acc (pair i <$> js)).
  { induction js as [|j js IHjs]; intros acc; [done|].
    simpl. destruct (body i acc j); [apply IHjs | done]. }
  rewrite <- Hin. destruct (foldM (body i) s (inner i)); [apply IH | done].
Qed.

(** A loop that appends [f x] elements at each step. *)
Lemma foldM_length {A B} (body : list B → A → outcome (list B))
    (f : A → bool) (P : A → Prop) (l : list A) (acc : list B) :
  (∀ acc x, P x → ∃ acc', body acc x = OK acc' ∧
      length acc' = length acc + (if f x then 1 else 0)) →
  Forall P l →
  ∃ acc', foldM body acc l = OK acc' ∧
    length acc' = length acc + length (List.filter f l).
Proof.
  intros Hbody Hl. revert acc.
  induction Hl as [|x l Hx _ IH]; intros acc; simpl.
  - exists acc. split; [done | lia].
  - destruct (Hbody acc x Hx) as (acc1 & -> & Hlen1). simpl.
    destruct (IH acc1) as (acc2 & -> & Hlen2).
    exists acc2. split; [done|]. rewrite Hlen2, Hlen1.
    destruct (f x); simpl; lia.
Qed.

Lemma Qltb_lt x y : Qltb x y = true ↔ (x < y)%Q.
Proof.
  unfold Qltb. rewrite negb_true_iff, <- not_true_iff_false, Qle_bool_iff.
  split; [apply Qnot_le_lt | apply Qlt_not_le].
Qed.

Lemma Qltb_ge x y : Qltb x y = false ↔ (y <= x)%Q.
Proof. unfold Qltb. rewrite negb_false_iff. apply Qle_bool_iff. Qed.

Lemma Qltb_neither x y :
  Qltb x y = false → Qltb y x = false → Qeq_bool x y = true.
Proof.
  rewrite !Qltb_ge. intros H1 H2. apply Qeq_bool_iff. by apply Qle_antisym.
Qed.

Lemma Qltb_tied x y : Qeq_bool x y = true → Qltb x y = false.
Proof.
  rewrite Qeq_bool_iff, Qltb_ge. intros ->. apply Qle_refl.
Qed.

(** Python's [<] is asymmetric wherever it is defined. *)
Lemma py_lt_asym a b : py_lt a b = OK true → py_lt b a = OK false.
Proof.
  unfold py_lt.
  destruct (num_of a) as [x|] eqn:Ha, (num_of b) as [y|] eqn:Hb.
  - intros [= H]. f_equal. apply Qltb_ge, Qlt_le_weak. by apply Qltb_lt.
  - destruct a, b; try discriminate.
  - destruct a, b; try discriminate.
  - destruct a, b; try discriminate. simpl.
    unfold String.ltb. rewrite (String.compare_antisym s0 s).
    by destruct (s ?= s0)%string.
Qed.

(** ** ComparisonExpander *)

Lemma choose2_S n : choose2 (S n) = n + choose2 n.
Proof.
  unfold choose2. replace (S n - 1) with n by lia.
  destruct n as [|n]; [done|].
  replace (S n - 1) with n by lia.
  replace (S (S n) * S n) with (S n * 2 + S n * n) by lia.
  by rewrite Nat.div_add_l.
Qed.

Lemma length_index_pairs n : length (index_pairs n) = choose2 n.
Proof.
  unfold index_pairs.
  assert (H : ∀ k a,
    length (flat_map (λ i, pair i <$> seq (i + 1) (a + k - (i + 1))) (seq a k))
    = choose2 k).
  { induction k as [|k IH]; intros a; [done|].
    simpl. rewrite length_app, length_fmap, length_seq, choose2_S.
    replace (a + S k) with (S a + k) by lia. rewrite IH. lia. }
  apply (H n 0).
Qed.

Lemma index_pairs_bound n i j : (i, j) ∈ index_pairs n → i < j < n.
Proof.
  unfold index_pairs. rewrite list_elem_of_In, in_flat_map.
  intros (i' & Hi' & Hin). apply list_elem_of_In in Hin.
  apply list_elem_of_fmap in Hin as (j' & [= -> ->] & Hj').
  apply list_elem_of_In, in_seq in Hj'. lia.
Qed.

Lemma foldM_invariant {S A} (body : S → A → outcome S) (I : S → Prop) l s s' :
  (∀ s x s', I s → body s x = OK s' → I s') →
  I s → foldM body s l = OK s' → I s'.
Proof.
  intros Hbody. revert s. induction l as [|x l IH]; intros s Hs; simpl.
  - by intros [= <-].
  - intros (s1 & H1 & H2)%bind_OK_inv. eauto.
Qed.

Lemma is_candidate_score c q :
  is_candidate c q → py_getitem c "score" = OK (JNum q).
Proof. intros (m & r & s & -> & Hq & _). simpl. by rewrite Hq. Qed.

Lemma append_dpo_entry_candidates u c1 c2 q1 q2 acc :
  is_candidate c1 q1 → is_candidate c2 q2 →
  ∃ e, append_dpo_entry u c1 c2 acc = OK (acc ++ [e]).
Proof.
  intros (m1 & r1 & s1 & -> & Hq1 & Hr1 & Hs1).
  intros (m2 & r2 & s2 & -> & Hq2 & Hr2 & Hs2).
  unfold append_dpo_entry. simpl.
  rewrite Hq1, Hr1, Hs1, Hq2, Hr2, Hs2. simpl. eauto.
Qed.

(** On well-formed candidates the body of the inner loop appends one pair
    when the two scores differ and nothing when they are equal. *)
Lemma expand_pair_candidates u cands scores i j acc :
  Forall2 is_candidate cands scores →
  i < length cands → j < length cands →
  ∃ acc', expand_pair u (JArr cands) i acc j = OK acc' ∧
    length acc' = length acc + (if negb (tied scores (i, j)) then 1 else 0).
Proof.
  intros Hc Hi Hj.
  destruct (lookup_lt_is_Some_2 cands i Hi) as [ci Hci].
  destruct (lookup_lt_is_Some_2 cands j Hj) as [cj Hcj].
  destruct (Forall2_lookup_l _ _ _ _ _ Hc Hci) as (qi & Hqi & Hwi).
  destruct (Forall2_lookup_l _ _ _ _ _ Hc Hcj) as (qj & Hqj & Hwj).
  unfold expand_pair, tied. simpl. rewrite Hci, Hcj, Hqi, Hqj. simpl.
  rewrite (is_candidate_score _ _ Hwi), (is_candidate_score _ _ Hwj). simpl.
  destruct (Qltb qj qi) eqn:Hgt12.
  - destruct (append_dpo_entry_candidates u ci cj qi qj acc Hwi Hwj)
      as [e ->].
    eexists; split; [done|]. rewrite length_app. simpl.
    destruct (Qeq_bool qi qj) eqn:Ht; [|done].
    apply Qeq_bool_iff, Qeq_sym, Qeq_bool_iff, Qltb_tied in Ht. congruence.
  - destruct (Qltb qi qj) eqn:Hgt21.
    + destruct (append_dpo_entry_candidates u cj ci qj qi acc Hwj Hwi)
        as [e ->].
      eexists; split; [done|]. rewrite length_app. simpl.
      destruct (Qeq_bool qi qj) eqn:Ht; [|done].
      apply Qltb_tied in Ht. congruence.
    + exists acc. split; [done|].
      rewrite (Qltb_neither qi qj Hgt21 Hgt12). simpl. lia.
Qed.

Lemma py_gt_num x y : py_gt (JNum x) (JNum y) = OK true → (y < x)%Q.
Proof. unfold py_gt, py_lt. simpl. intros [= H]. by apply Qltb_lt. Qed.

Lemma append_dpo_entry_ordered u c r s1 s2 acc acc' :
  py_getitem c "score" = OK s1 → py_getitem r "score" = OK s2 →
  py_gt s1 s2 = OK true →
  append_dpo_entry u c r acc = OK acc' →
  ∃ e, acc' = acc ++ [e] ∧ strictly_ordered e.
Proof.
  intros H1 H2 Hgt. unfold append_dpo_entry.
  intros (cr & _ & (rr & _ & H)%bind_OK_inv)%bind_OK_inv.
  rewrite H1, H2 in H. simpl in H.
  apply bind_OK_inv in H as (csrc & _ & (rsrc & _ & [= <-])%bind_OK_inv).
  eexists. split; [done|]. exists (dpo_entry u cr rr s1 s2 csrc rsrc), s1, s2.
  split; [done|]. split; [reflexivity|]. split; [reflexivity|].
  split; [done|]. split.
  - by apply py_lt_asym.
  - intros x y -> ->. by apply py_gt_num.
Qed.

Lemma expand_pair_ordered u rs i j acc acc' :
  expand_pair u rs i acc j = OK acc' →
  acc' = acc ∨ ∃ e, acc' = acc ++ [e] ∧ strictly_ordered e.
Proof.
  unfold expand_pair.
  intros (c1 & _ & (c2 & _ & (s1 & H1 & (s2 & H2 & H)%bind_OK_inv)
    %bind_OK_inv)%bind_OK_inv)%bind_OK_inv.
  apply bind_OK_inv in H as ([] & Hgt12 & H).
  - right. by apply (append_dpo_entry_ordered u c1 c2 s1 s2 acc acc').
  - rewrite H1, H2 in H. simpl in H.
    apply bind_OK_inv in H as ([] & Hgt21 & H).
    + right. by apply (append_dpo_entry_ordered u c2 c1 s2 s1 acc acc').
    + left. by injection H.
Qed.

Lemma expand_entry_ordered acc entry acc' :
  Forall strictly_ordered acc → expand_entry acc entry = OK acc' →
  Forall strictly_ordered acc'.
Proof.
  intros Hacc. unfold expand_entry.
  intros (u & _ & (rs & _ & (n & _ & H)%bind_OK_inv)%bind_OK_inv)%bind_OK_inv.
  rewrite (foldM_nested (expand_pair u rs)) in H.
  revert H. apply foldM_invariant; [|done].
  intros s [i j] s' Hs [->|(e & -> & He)]%expand_pair_ordered; [done|].
  apply Forall_app. by repeat constructor.
Qed.

(** C1.  For a record with [n] well-formed candidates the expander returns,
    and the number of pairs it appends plus the number of tied index pairs
    is [C(n,2)]: one pair is emitted for each of the [C(n,2)] index pairs
    [i < j] whose scores differ, none for a tie.  In particular it appends
    exactly [C(n,2)] pairs when no two scores are equal. *)
Theorem expander_pair_count (entry : gmap string json) (u : json)
    (cands : list json) (scores : list Q) (dpo_data : list json) :
  entry !! "user_input" = Some u →
  entry !! "responses_and_scores" = Some (JArr cands) →
  Forall2 is_candidate cands scores →
  ∃ out, expand_entry dpo_data (JObj entry) = OK (dpo_data ++ out) ∧
    length (index_pairs (length cands)) = choose2 (length cands) ∧
    length out = length (List.filter (λ p, negb (tied scores p))
                                     (index_pairs (length cands))) ∧
    length out = choose2 (length cands) - tied_pairs scores ∧
    tied_pairs scores ≤ choose2 (length cands) ∧
    (tied_pairs scores = 0 → length out = choose2 (length cands)).
Proof.
  intros Hu Hr Hc.
  unfold expand_entry. simpl. rewrite Hu, Hr. simpl.
  rewrite (foldM_nested (expand_pair u (JArr cands))
             (λ i, seq (i + 1) (length cands - (i + 1)))).
  fold (index_pairs (length cands)).
  destruct (foldM_length
              (λ acc p, expand_pair u (JArr cands) p.1 acc p.2)
              (λ p, negb (tied scores p))
              (λ p, p.1 < length cands ∧ p.2 < length cands)
              (index_pairs (length cands)) dpo_data)
    as (acc' & Hrun & Hlen).
  { intros acc [i j] [Hi Hj]. by apply expand_pair_candidates. }
  { apply Forall_forall. intros [i j] Hin%index_pairs_bound. simpl. lia. }
  assert (Hpre : ∃ out, acc' = dpo_data ++ out).
  { revert Hrun.
    apply (foldM_invariant _ (λ acc, ∃ out, acc = dpo_data ++ out));
      [|by exists []; rewrite app_nil_r].
    intros s [i j] s' [o ->] [->|(e & -> & _)]%expand_pair_ordered;
      [by exists o | exists (o ++ [e]); by rewrite (assoc_L (++))]. }
  destruct Hpre as [out ->]. exists out. rewrite Hrun.
  rewrite length_app in Hlen.
  pose proof (filter_length (tied scores) (index_pairs (length cands))) as Hf.
  rewrite length_index_pairs in Hf |- *.
  unfold tied_pairs. rewrite <- (Forall2_length _ _ _ Hc).
  repeat split; lia.
Qed.

Lemma expander_pair_count_witness :
  ∃ out,
    expand_entry []
      (JObj (prompt_record "P"
               [candidate "A" 3 "a"; candidate "B" 5 "b"; candidate "C" 5 "c"]))
    = OK ([] ++ out) ∧ length out = 2.
Proof.
  destruct (expander_pair_count
              (prompt_record "P"
                 [candidate "A" 3 "a"; candidate "B" 5 "b"; candidate "C" 5 "c"])
              (JStr "P")
              [candidate "A" 3 "a"; candidate "B" 5 "b"; candidate "C" 5 "c"]
              [3; 5; 5]%Q [])
    as (out & Hrun & _ & _ & Hlen & _).
  - reflexivity.
  - reflexivity.
  - repeat constructor;
      eexists _, _, _; (split; [reflexivity|]); repeat split; reflexivity.
  - exists out. split; [exact Hrun | exact Hlen].
Defined.

(** C6.  Every pair the expander emits carries a [chosen_score] strictly
    greater than its [rejected_score]; a pair whose chosen score is equal to
    or less than the rejected one never appears. *)
Theorem expander_strict_order (comparison_data out : list json) (p : json) :
  convert_to_dpo_pairs comparison_data = OK out →
  p ∈ out →
  ∃ m c r,
    p = JObj m ∧ m !! "chosen_score" = Some c ∧
    m !! "rejected_score" = Some r ∧ py_gt c r = OK true ∧
    py_gt r c = OK false ∧
    (∀ x y, c = JNum x → r = JNum y → (y < x)%Q ∧ ¬ (x <= y)%Q).
Proof.
  intros Hrun Hp.
  assert (Hall : Forall strictly_ordered out).
  { revert Hrun. unfold convert_to_dpo_pairs.
    apply foldM_invariant; [|done].
    intros s x s' Hs. by apply expand_entry_ordered. }
  rewrite Forall_forall in Hall.
  destruct (Hall p Hp) as (m & c & r & -> & Hc & Hr & Hgt & Hle & Hnum).
  exists m, c, r. repeat split; try done.
  - by apply Hnum.
  - apply Qlt_not_le. by apply Hnum.
Qed.

Lemma expander_strict_order_witness :
  ∃ m c r,
    JObj (dpo_entry (JStr "P") (JStr "B") (JStr "A") (JNum 5) (JNum 3)
            (JStr "b") (JStr "a")) = JObj m ∧
    m !! "chosen_score" = Some c ∧
    m !! "rejected_score" = Some r ∧ py_gt c r = OK true ∧
    py_gt r c = OK false ∧
    (∀ x y, c = JNum x → r = JNum y → (y < x)%Q ∧ ¬ (x <= y)%Q).
Proof.
  apply (expander_strict_order
           [JObj (prompt_record "P"
              [candidate "A" 3 "a"; candidate "B" 5 "b"; candidate "C" 5 "c"])]
           [JObj (dpo_entry (JStr "P") (JStr "B") (JStr "A") (JNum 5) (JNum 3)
                    (JStr "b") (JStr "a"));
            JObj (dpo_entry (JStr "P") (JStr "C") (JStr "A") (JNum 5) (JNum 3)
                    (JStr "c") (JStr "a"))]).
  - reflexivity.
  - apply list_elem_of_here.
Defined.

(** C8, as the code has it.  A record whose ["responses_and_scores"] is
    present and of length less than 2 (the empty list included) adds no pair
    and raises nothing, provided ["user_input"] is present; a record without
    the ["responses_and_scores"] key raises [KeyError]. *)
Theorem expander_degenerate (entry : gmap string json) (dpo_data : list json) :
  (∀ u v n,
     entry !! "user_input" = Some u →
     entry !! "responses_and_scores" = Some v →
     py_len v = OK n → n < 2 →
     expand_entry dpo_data (JObj entry) = OK dpo_data) ∧
  (entry !! "responses_and_scores" = None →
     expand_entry dpo_data (JObj entry) = Raise KeyError).
Proof.
  split.
  - intros u v n Hu Hv Hn Hlt. unfold expand_entry. simpl.
    rewrite Hu, Hv. simpl. rewrite Hn. simpl.
    destruct n as [|[|n]]; [done | done | lia].
  - intros Hv. unfold expand_entry. simpl. rewrite Hv.
    by destruct (entry !! "user_input").
Qed.

Lemma expander_degenerate_witness :
  expand_entry [] (JObj (prompt_record "P" [candidate "A" 3 "a"])) = OK [] ∧
  expand_entry [] (JObj {[ "user_input" := JStr "P" ]}) = Raise KeyError.
Proof.
  split.
  - apply (proj1 (expander_degenerate
                    (prompt_record "P" [candidate "A" 3 "a"]) [])
             (JStr "P") (JArr [candidate "A" 3 "a"]) 1);
      [reflexivity | reflexivity | reflexivity | lia].
  - apply (proj2 (expander_degenerate {[ "user_input" := JStr "P" ]} []));
      reflexivity.
Defined.

(** C8 as stated fails: a record without the candidates field raises. *)
Lemma expander_absent_candidates_raises :
  expand_entry [] (JObj {[ "user_input" := JStr "P" ]}) = Raise KeyError ∧
  convert_to_dpo_pairs [JObj {[ "user_input" := JStr "P" ]}] = Raise KeyError ∧
  ¬ (∃ out, convert_to_dpo_pairs [JObj {[ "user_input" := JStr "P" ]}]
            = OK out).
Proof.
  split; [reflexivity|]. split; [reflexivity|].
  intros [out H]. vm_compute in H. discriminate H.
Qed.

(** ** Binary64 arithmetic *)

Lemma py_int_floor q : (0 <= q)%Q → py_int q = Qfloor q.
Proof.
  intros Hq. unfold py_int, Qfloor. destruct q as [n d]. simpl.
  apply Z.quot_div_nonneg; [|done].
  unfold Qle in Hq. simpl in Hq. lia.
Qed.

Lemma py_int_bounds q :
  (0 <= q)%Q →
  (0 ≤ py_int q)%Z ∧ (inject_Z (py_int q) <= q)%Q ∧
  (q < inject_Z (py_int q) + 1)%Q.
Proof.
  intros Hq. rewrite (py_int_floor q Hq). split; [|split].
  - change 0%Z with (Qfloor 0). by apply Qfloor_resp_le.
  - apply Qfloor_le.
  - pose proof (Qlt_floor q) as H. by rewrite inject_Z_plus in H.
Qed.

Lemma inject_Z_pos z : (0 < z)%Z → (0 < inject_Z z)%Q.
Proof. intros H. change 0%Q with (inject_Z 0). by rewrite <- Zlt_Qlt. Qed.

Lemma inject_Z_nonneg z : (0 ≤ z)%Z → (0 <= inject_Z z)%Q.
Proof. intros H. change 0%Q with (inject_Z 0). by rewrite <- Zle_Qle. Qed.

Lemma Qeq_bool_pos q : (0 < q)%Q → Qeq_bool q 0 = false.
Proof.
  intros H. destruct (Qeq_bool q 0) eqn:E; [|done].
  apply Qeq_bool_iff in E. lra.
Qed.

Lemma inject_Z_bounds (n m : Z) :
  (0 ≤ n < m)%Z → (0 <= inject_Z n)%Q ∧ (inject_Z n <= inject_Z m - 1)%Q.
Proof.
  intros H. split.
  - change 0%Q with (inject_Z 0). rewrite <- Zle_Qle. lia.
  - assert (H1 : (inject_Z (n + 1) <= inject_Z m)%Q) by (rewrite <- Zle_Qle; lia).
    rewrite inject_Z_plus in H1. change (inject_Z 1) with 1%Q in H1. lra.
Qed.

Lemma Qmul_le_1 (a b : Q) : (0 <= b)%Q → (a <= 1)%Q → (a * b <= b)%Q.
Proof. intros. nra. Qed.

Lemma Qmul_le_mono (a b c : Q) : (0 <= a)%Q → (b <= c)%Q → (a * b <= a * c)%Q.
Proof. intros. nra. Qed.

(** Three roundings: a product, a divisor and their quotient. *)
Lemma quotient_upper (N D d t q x u : Q) :
  (0 <= N)%Q → (0 < D)%Q → (0 < d)%Q → (0 <= u)%Q → (u <= 1 # 8)%Q →
  (q * d == t)%Q → (t <= N * (1 + u))%Q → (D * (1 - u) <= d)%Q →
  (0 <= x)%Q → (x <= q * (1 + u))%Q →
  (x * D <= N * (1 + 4 * u))%Q.
Proof.
  intros HN HD Hd Hu0 Hu1 Eq Ht Hd' Hx0 Hx.
  assert (H1 : (x * d <= t * (1 + u))%Q).
  { rewrite <- Eq. nra. }
  assert (H2 : (x * (D * (1 - u)) <= x * d)%Q) by (nra).
  assert (H3 : (t * (1 + u) <= N * (1 + u) * (1 + u))%Q) by (nra).
  assert (H4 : (N * (1 + u) * (1 + u) <= N * (1 + 4 * u) * (1 - u))%Q).
  { assert (E : (N * (1 + 4 * u) * (1 - u) - N * (1 + u) * (1 + u)
                 == N * (u * (1 - 5 * u)))%Q) by ring.
    assert (0 <= N * (u * (1 - 5 * u)))%Q.
    { apply Qmult_le_0_compat; [done|]. apply Qmult_le_0_compat; lra. }
    lra. }
  assert (H5 : (x * D * (1 - u) <= N * (1 + 4 * u) * (1 - u))%Q).
  { lra. }
  apply Qmult_le_r in H5; [done | lra].
Qed.

Lemma quotient_lower (N D d t q x u : Q) :
  (0 <= N)%Q → (0 < D)%Q → (0 < d)%Q → (0 <= u)%Q → (u <= 1 # 8)%Q →
  (q * d == t)%Q → (N * (1 - u) <= t)%Q → (d <= D * (1 + u))%Q →
  (0 <= q)%Q → (q * (1 - u) <= x)%Q →
  (N * (1 - 4 * u) <= x * D)%Q.
Proof.
  intros HN HD Hd Hu0 Hu1 Eq Ht Hd' Hq0 Hx.
  assert (Hx0 : (0 <= x)%Q).
  { apply Qle_trans with (q * (1 - u))%Q; [|done]. apply Qmult_le_0_compat; lra. }
  assert (H1 : (t * (1 - u) <= x * d)%Q).
  { rewrite <- Eq. nra. }
  assert (H2 : (x * d <= x * (D * (1 + u)))%Q) by (nra).
  assert (H3 : (N * (1 - u) * (1 - u) <= t * (1 - u))%Q) by (nra).
  assert (H4 : (N * (1 - 4 * u) * (1 + u) <= N * (1 - u) * (1 - u))%Q).
  { assert (E : (N * (1 - u) * (1 - u) - N * (1 - 4 * u) * (1 + u)
                 == N * (u * (1 + 5 * u)))%Q) by ring.
    assert (0 <= N * (u * (1 + 5 * u)))%Q.
    { apply Qmult_le_0_compat; [done|]. apply Qmult_le_0_compat; lra. }
    lra. }
  assert (H5 : (N * (1 - 4 * u) * (1 + u) <= x * D * (1 + u))%Q).
  { lra. }
  apply Qmult_le_r in H5; [done | lra].
Qed.

(** Three roundings: a difference, a product with it and a quotient. *)
Lemma product_upper (A D d s q y r u : Q) :
  (0 <= A)%Q → (0 < D)%Q → (0 < r)%Q → (0 <= u)%Q → (u <= 1 # 8)%Q →
  (q * r == s)%Q → (d <= D * (1 + u))%Q → (0 <= d)%Q →
  (s <= A * d * (1 + u))%Q → (0 <= y)%Q → (y <= q * (1 + u))%Q →
  (y * r <= A * D * (1 + 4 * u))%Q.
Proof.
  intros HA HD Hr Hu0 Hu1 Eq Hd Hd0 Hs Hy0 Hy.
  assert (H1 : (y * r <= s * (1 + u))%Q).
  { rewrite <- Eq. nra. }
  assert (H2 : (A * d <= A * (D * (1 + u)))%Q) by nra.
  assert (H3 : (s * (1 + u) <= A * d * (1 + u) * (1 + u))%Q) by nra.
  assert (H4 : (A * d * ((1 + u) * (1 + u))
                <= A * (D * (1 + u)) * ((1 + u) * (1 + u)))%Q).
  { apply Qmult_le_compat_r; [done|]. nra. }
  assert (H5 : (0 <= A * D * (u * (1 - 3 * u - u * u)))%Q).
  { apply Qmult_le_0_compat; [nra|]. apply Qmult_le_0_compat; [done|]. nra. }
  lra.
Qed.

Lemma product_lower (A D d s q y r u : Q) :
  (0 <= A)%Q → (0 < D)%Q → (0 < r)%Q → (0 <= u)%Q → (u <= 1 # 8)%Q →
  (q * r == s)%Q → (D * (1 - u) <= d)%Q →
  (A * d * (1 - u) <= s)%Q → (0 <= q)%Q → (q * (1 - u) <= y)%Q →
  (A * D * (1 - 4 * u) <= y * r)%Q.
Proof.
  intros HA HD Hr Hu0 Hu1 Eq Hd Hs Hq0 Hy.
  assert (H1 : (s * (1 - u) <= y * r)%Q).
  { rewrite <- Eq. nra. }
  assert (H2 : (A * (D * (1 - u)) <= A * d)%Q) by nra.
  assert (H3 : (A * d * (1 - u) * (1 - u) <= s * (1 - u))%Q) by nra.
  assert (H4 : (A * (D * (1 - u)) * ((1 - u) * (1 - u))
                <= A * d * ((1 - u) * (1 - u)))%Q).
  { apply Qmult_le_compat_r; [done|]. nra. }
  assert (H5 : (0 <= A * D * (u * (1 + 3 * u - u * u)))%Q).
  { apply Qmult_le_0_compat; [nra|]. apply Qmult_le_0_compat; [done|]. nra. }
  lra.
Qed.

(** *** Powers of two *)

Lemma pow2_pos e : (0 < pow2 e)%Q.
Proof. apply Qpower_0_lt. reflexivity. Qed.

Lemma pow2_add a b : (pow2 (a + b) == pow2 a * pow2 b)%Q.
Proof. apply Qpower_plus. discriminate. Qed.

Lemma pow2_le a b : (a ≤ b)%Z → (pow2 a <= pow2 b)%Q.
Proof. intros H. apply Qpower_le_compat_l; [done | discriminate]. Qed.

Lemma pow2_lt a b : (a < b)%Z → (pow2 a < pow2 b)%Q.
Proof. intros H. apply Qpower_lt_compat_l; [done | reflexivity]. Qed.

Lemma pow2_lt_inv a b : (pow2 a < pow2 b)%Q → (a < b)%Z.
Proof. intros H. by apply (Qpower_lt_compat_l_inv 2). Qed.

Lemma pow2_le_inv a b : (pow2 a <= pow2 b)%Q → (a ≤ b)%Z.
Proof. intros H. by apply (Qpower_le_compat_l_inv 2). Qed.

Lemma pow2_int e : (0 ≤ e)%Z → (pow2 e == inject_Z (2 ^ e))%Q.
Proof. intros H. symmetry. by apply (Zpower_Qpower 2 e). Qed.

Lemma pow2_succ e : (pow2 (e + 1) == 2 * pow2 e)%Q.
Proof. rewrite pow2_add. change (pow2 1) with 2%Q. ring. Qed.

Lemma pow2_div a b : (pow2 a / pow2 b == pow2 (a - b))%Q.
Proof.
  unfold pow2. rewrite Qpower_minus by discriminate. reflexivity.
Qed.

Lemma Qlog2_spec x :
  (0 < x)%Q → (pow2 (Qlog2 x) <= x)%Q ∧ (x < pow2 (Qlog2 x + 1))%Q.
Proof.
  intros Hx. unfold Qlog2.
  destruct x as [n d]. cbn [Qnum Qden].
  assert (Hn : (0 < n)%Z) by (unfold Qlt in Hx; simpl in Hx; lia).
  destruct (Z.log2_spec n Hn) as [Hn1 Hn2].
  destruct (Z.log2_spec (Zpos d) ltac:(lia)) as [Hd1 Hd2].
  pose proof (Z.log2_nonneg n) as Hlp.
  pose proof (Z.log2_nonneg (Zpos d)) as Hlq.
  set (lp := Z.log2 n) in *. set (lq := Z.log2 (Zpos d)) in *.
  assert (Ex : (n # d == inject_Z n / inject_Z (Zpos d))%Q) by apply Qmake_Qdiv.
  assert (HD : (0 < inject_Z (Zpos d))%Q) by (unfold Qlt; simpl; lia).
  assert (EN : (inject_Z n == (n # d) * inject_Z (Zpos d))%Q).
  { rewrite Ex. field. intros E. rewrite E in HD. by apply Qlt_irrefl in HD. }
  assert (PN1 : (pow2 lp <= inject_Z n)%Q).
  { rewrite pow2_int by done. by rewrite <- Zle_Qle. }
  assert (PN2 : (inject_Z n < 2 * pow2 lp)%Q).
  { rewrite <- pow2_succ, pow2_int by lia. by rewrite <- Zlt_Qlt, <- Z.add_1_r in *. }
  assert (PD1 : (pow2 lq <= inject_Z (Zpos d))%Q).
  { rewrite pow2_int by done. by rewrite <- Zle_Qle. }
  assert (PD2 : (inject_Z (Zpos d) < 2 * pow2 lq)%Q).
  { rewrite <- pow2_succ, pow2_int by lia. by rewrite <- Zlt_Qlt, <- Z.add_1_r in *. }
  assert (Ek : (pow2 lp == pow2 (lp - lq) * pow2 lq)%Q).
  { rewrite <- pow2_add. by replace (lp - lq + lq)%Z with lp by lia. }
  pose proof (pow2_pos (lp - lq)) as Hk. pose proof (pow2_pos lq) as Hq.
  pose proof (pow2_succ (lp - lq)) as Es.
  assert (Em : (pow2 (lp - lq) == 2 * pow2 (lp - lq - 1))%Q).
  { rewrite <- pow2_succ. by replace (lp - lq - 1 + 1)%Z with (lp - lq)%Z by lia. }
  set (x := (n # d)%Q) in *. 
  pose proof (pow2_pos (lp - lq - 1)) as Hm.
  assert (Hlow : (pow2 (lp - lq - 1) < x)%Q).
  { apply (Qmult_lt_r _ _ (inject_Z (Zpos d))); [done|]. rewrite <- EN.
    eapply Qlt_le_trans; [|exact PN1]. rewrite Ek, Em. nra. }
  assert (Hhigh : (x < pow2 (lp - lq + 1))%Q).
  { apply (Qmult_lt_r _ _ (inject_Z (Zpos d))); [done|]. rewrite <- EN.
    eapply Qlt_le_trans; [exact PN2|]. rewrite Ek, Es. nra. }
  destruct (Qle_bool (pow2 (lp - lq)) x) eqn:Hc.
  - apply Qle_bool_iff in Hc. done.
  - split.
    + by apply Qlt_le_weak.
    + replace (lp - lq - 1 + 1)%Z with (lp - lq)%Z by lia.
      apply Qnot_le_lt. intros H. apply Qle_bool_iff in H. congruence.
Qed.

Lemma Qlog2_unique x k :
  (pow2 k <= x)%Q → (x < pow2 (k + 1))%Q → Qlog2 x = k.
Proof.
  intros H1 H2.
  assert (Hx : (0 < x)%Q) by (pose proof (pow2_pos k); lra).
  destruct (Qlog2_spec x Hx) as [H3 H4].
  assert ((Qlog2 x < k + 1)%Z) by (apply pow2_lt_inv; lra).
  assert ((k < Qlog2 x + 1)%Z) by (apply pow2_lt_inv; lra).
  lia.
Qed.

(** *** Rounding to the nearest integer *)

Lemma round_half_even_close m :
  (Qabs (inject_Z (round_half_even m) - m) <= 1 # 2)%Q.
Proof.
  unfold round_half_even.
  pose proof (Qfloor_le m) as H1. pose proof (Qlt_floor m) as H2.
  rewrite inject_Z_plus in H2. change (inject_Z 1) with 1%Q in H2.
  apply Qabs_Qle_condition.
  destruct (Qcompare_spec (m - inject_Z (Qfloor m)) (1 # 2)) as [E|E|E].
  - destruct (Z.even (Qfloor m)).
    + lra.
    + rewrite inject_Z_plus. change (inject_Z 1) with 1%Q. lra.
  - lra.
  - rewrite inject_Z_plus. change (inject_Z 1) with 1%Q. lra.
Qed.

Lemma round_half_even_int z : round_half_even (inject_Z z) = z.
Proof.
  unfold round_half_even. rewrite Qfloor_Z.
  destruct (Qcompare_spec (inject_Z z - inject_Z z) (1 # 2)) as [E|E|E];
    [lra | done | lra].
Qed.

Lemma round_half_even_mono m m' :
  (m <= m')%Q → (round_half_even m ≤ round_half_even m')%Z.
Proof.
  intros Hm. unfold round_half_even.
  pose proof (Qfloor_resp_le _ _ Hm) as Hf.
  pose proof (Qfloor_le m) as H1. pose proof (Qlt_floor m) as H2.
  pose proof (Qfloor_le m') as H1'. pose proof (Qlt_floor m') as H2'.
  rewrite inject_Z_plus in H2, H2'. change (inject_Z 1) with 1%Q in H2, H2'.
  destruct (Z.eq_dec (Qfloor m) (Qfloor m')) as [E|NE].
  - rewrite <- E in *.
    destruct (Qcompare_spec (m - inject_Z (Qfloor m)) (1 # 2)),
             (Qcompare_spec (m' - inject_Z (Qfloor m)) (1 # 2));
      destruct (Z.even (Qfloor m)); try lia; lra.
  - assert ((Qfloor m + 1 ≤ Qfloor m')%Z) by lia.
    destruct (Qcompare_spec (m - inject_Z (Qfloor m)) (1 # 2)),
             (Qcompare_spec (m' - inject_Z (Qfloor m')) (1 # 2));
      destruct (Z.even (Qfloor m)), (Z.even (Qfloor m')); lia.
Qed.

Lemma round_half_even_le m z :
  (m <= inject_Z z)%Q → (round_half_even m ≤ z)%Z.
Proof.
  intros H%round_half_even_mono. by rewrite round_half_even_int in H.
Qed.

Lemma round_half_even_ge m z :
  (inject_Z z <= m)%Q → (z ≤ round_half_even m)%Z.
Proof.
  intros H%round_half_even_mono. by rewrite round_half_even_int in H.
Qed.

(** *** Rounding to binary64 *)

Lemma pow2_mul_div (x : Q) e : (x / pow2 e * pow2 e == x)%Q.
Proof. field. pose proof (pow2_pos e). lra. Qed.

Lemma nearest64_nonneg a : (0 <= a)%Q → (0 <= nearest64 a)%Q.
Proof.
  intros Ha. unfold nearest64.
  set (e := Z.max (Qlog2 a - 52) (-1074)).
  pose proof (pow2_pos e) as He.
  assert (H : (inject_Z 0 <= a / pow2 e)%Q).
  { change (inject_Z 0) with 0%Q. apply Qle_shift_div_l; [done | lra]. }
  apply round_half_even_ge in H. rewrite Zle_Qle in H.
  change (inject_Z 0) with 0%Q in H. nra.
Qed.

Lemma nearest64_zero a : (a == 0)%Q → (nearest64 a == 0)%Q.
Proof.
  intros Ha. unfold nearest64.
  set (e := Z.max (Qlog2 a - 52) (-1074)).
  pose proof (pow2_pos e) as He.
  assert (E : (a / pow2 e == 0)%Q) by (rewrite Ha; field; lra).
  assert (H1 : (inject_Z 0 <= a / pow2 e)%Q) by (rewrite E; done).
  assert (H2 : (a / pow2 e <= inject_Z 0)%Q) by (rewrite E; done).
  apply round_half_even_ge in H1. apply round_half_even_le in H2.
  replace (round_half_even (a / pow2 e)) with 0%Z by lia.
  change (inject_Z 0) with 0%Q. ring.
Qed.

(** Below a power of two that binary64 has, the rounding stays below. *)
Lemma nearest64_le_pow2 a K :
  (0 < a)%Q → (-1074 ≤ K)%Z → (a <= pow2 K)%Q → (nearest64 a <= pow2 K)%Q.
Proof.
  intros Ha HK Hle. unfold nearest64.
  destruct (Qlog2_spec a Ha) as [Hk1 Hk2].
  set (k := Qlog2 a) in *. set (e := Z.max (k - 52) (-1074)).
  assert (k ≤ K)%Z by (apply pow2_le_inv; lra).
  assert (He : (e ≤ K)%Z) by lia.
  pose proof (pow2_pos e) as Hpe.
  assert (Hm : (a / pow2 e <= inject_Z (2 ^ (K - e)))%Q).
  { rewrite <- pow2_int by lia. rewrite <- pow2_div.
    apply Qmult_le_compat_r; [done|]. apply Qlt_le_weak, Qinv_lt_0_compat, Hpe. }
  apply round_half_even_le in Hm. rewrite Zle_Qle in Hm.
  rewrite <- pow2_int in Hm by lia.
  assert (E : (pow2 K == pow2 (K - e) * pow2 e)%Q).
  { rewrite <- pow2_add. by replace (K - e + e)%Z with K by lia. }
  rewrite E. by apply Qmult_le_compat_r; [|lra].
Qed.

(** Above a power of two that binary64 has, the rounding stays above. *)
Lemma nearest64_ge_pow2 a K :
  (-1074 ≤ K)%Z → (pow2 K <= a)%Q → (pow2 K <= nearest64 a)%Q.
Proof.
  intros HK Hge. unfold nearest64.
  assert (Ha : (0 < a)%Q) by (pose proof (pow2_pos K); lra).
  destruct (Qlog2_spec a Ha) as [Hk1 Hk2].
  set (k := Qlog2 a) in *. set (e := Z.max (k - 52) (-1074)).
  assert (K ≤ k)%Z.
  { assert (K < k + 1)%Z by (apply pow2_lt_inv; lra). lia. }
  pose proof (pow2_pos e) as Hpe.
  destruct (Z.le_gt_cases e K) as [HeK|HeK].
  - assert (Hm : (inject_Z (2 ^ (K - e)) <= a / pow2 e)%Q).
    { rewrite <- pow2_int by lia. rewrite <- pow2_div.
      apply Qmult_le_compat_r; [done|]. apply Qlt_le_weak, Qinv_lt_0_compat, Hpe. }
    apply round_half_even_ge in Hm. rewrite Zle_Qle in Hm.
    rewrite <- pow2_int in Hm by lia.
    assert (E : (pow2 K == pow2 (K - e) * pow2 e)%Q).
    { rewrite <- pow2_add. by replace (K - e + e)%Z with K by lia. }
    rewrite E. by apply Qmult_le_compat_r; [|lra].
  - assert (Ee : e = (k - 52)%Z) by lia.
    assert (Hm : (inject_Z (2 ^ 52) <= a / pow2 e)%Q).
    { rewrite <- pow2_int by lia.
      replace 52%Z with (k - e)%Z at 1 by lia. rewrite <- pow2_div.
      apply Qmult_le_compat_r; [done|]. apply Qlt_le_weak, Qinv_lt_0_compat, Hpe. }
    apply round_half_even_ge in Hm. rewrite Zle_Qle in Hm.
    rewrite <- pow2_int in Hm by lia.
    assert (E : (pow2 k == pow2 52 * pow2 e)%Q).
    { rewrite <- pow2_add. by replace (52 + e)%Z with k by lia. }
    apply Qle_trans with (pow2 k); [by apply pow2_le|].
    rewrite E. by apply Qmult_le_compat_r; [|lra].
Qed.

Lemma nearest64_mono a a' :
  (0 < a)%Q → (a <= a')%Q → (nearest64 a <= nearest64 a')%Q.
Proof.
  intros Ha Hle.
  assert (Ha' : (0 < a')%Q) by lra.
  destruct (Qlog2_spec a Ha) as [Hk1 Hk2].
  destruct (Qlog2_spec a' Ha') as [Hk1' Hk2'].
  assert (Hkk : (Qlog2 a ≤ Qlog2 a')%Z).
  { assert (Qlog2 a < Qlog2 a' + 1)%Z by (apply pow2_lt_inv; lra). lia. }
  destruct (Z.eq_dec (Z.max (Qlog2 a - 52) (-1074))
                     (Z.max (Qlog2 a' - 52) (-1074))) as [E|NE].
  - unfold nearest64. rewrite <- E.
    set (e := Z.max (Qlog2 a - 52) (-1074)).
    pose proof (pow2_pos e) as Hpe.
    assert (Hm : (a / pow2 e <= a' / pow2 e)%Q).
    { apply Qmult_le_compat_r; [done|]. apply Qlt_le_weak, Qinv_lt_0_compat, Hpe. }
    apply round_half_even_mono in Hm. rewrite Zle_Qle in Hm.
    by apply Qmult_le_compat_r; [|lra].
  - set (K := Z.max (Qlog2 a + 1) (-1074)).
    assert (HK : (K ≤ Qlog2 a')%Z) by lia.
    apply Qle_trans with (pow2 K).
    + apply nearest64_le_pow2; [done | lia |].
      apply Qle_trans with (pow2 (Qlog2 a + 1)); [lra | apply pow2_le; lia].
    + apply Qle_trans with (pow2 (Qlog2 a')); [by apply pow2_le|].
      apply nearest64_ge_pow2; [lia | done].
Qed.

(** In the normal range the relative error is at most [2^-53]. *)
Lemma nearest64_error a :
  (pow2 (-1022) <= a)%Q →
  (Qabs (nearest64 a - a) <= a * pow2 (-53))%Q.
Proof.
  intros Hn.
  assert (Ha : (0 < a)%Q) by (pose proof (pow2_pos (-1022)); lra).
  destruct (Qlog2_spec a Ha) as [Hk1 Hk2].
  unfold nearest64. set (k := Qlog2 a) in *.
  assert (-1022 ≤ k)%Z.
  { assert (-1022 < k + 1)%Z by (apply pow2_lt_inv; lra). lia. }
  replace (Z.max (k - 52) (-1074)) with (k - 52)%Z by lia.
  set (e := (k - 52)%Z). pose proof (pow2_pos e) as Hpe.
  pose proof (round_half_even_close (a / pow2 e)) as Hc.
  set (n := inject_Z (round_half_even (a / pow2 e))) in *.
  assert (E : (n * pow2 e - a == (n - a / pow2 e) * pow2 e)%Q).
  { field. lra. }
  rewrite E, Qabs_Qmult, (Qabs_pos (pow2 e)) by lra.
  assert (E2 : (pow2 k * pow2 (-53) == (1 # 2) * pow2 e)%Q).
  { rewrite <- pow2_add. replace (k + -53)%Z with (e - 1)%Z by lia.
    pose proof (pow2_succ (e - 1)) as Hs.
    replace (e - 1 + 1)%Z with e in Hs by lia. rewrite Hs. field. }
  pose proof (pow2_pos (-53)).
  apply Qle_trans with ((1 # 2) * pow2 e)%Q.
  - by apply Qmult_le_compat_r; [|lra].
  - rewrite <- E2. apply Qmult_le_compat_r; lra.
Qed.

(** An integer of at most 53 bits is a binary64 number. *)
Lemma nearest64_int n :
  (0 ≤ n < 2 ^ 53)%Z → (nearest64 (inject_Z n) == inject_Z n)%Q.
Proof.
  intros [Hn0 Hn].
  destruct (Z.eq_dec n 0%Z) as [->|Hne]; [by apply nearest64_zero|].
  assert (Ha : (0 < inject_Z n)%Q).
  { change 0%Q with (inject_Z 0). rewrite <- Zlt_Qlt. lia. }
  destruct (Qlog2_spec _ Ha) as [Hk1 Hk2].
  unfold nearest64. set (k := Qlog2 (inject_Z n)) in *.
  assert (k < 53)%Z.
  { apply pow2_lt_inv. eapply Qle_lt_trans; [exact Hk1|].
    rewrite (pow2_int 53) by lia. by rewrite <- Zlt_Qlt. }
  set (e := Z.max (k - 52) (-1074)). assert (e ≤ 0)%Z by lia.
  pose proof (pow2_pos e) as Hpe.
  assert (E : (inject_Z n / pow2 e == inject_Z (n * 2 ^ (- e)))%Q).
  { rewrite inject_Z_mult, <- pow2_int by lia.
    unfold pow2. rewrite Qpower_opp. reflexivity. }
  assert (H1 : (inject_Z (n * 2 ^ (- e)) <= inject_Z n / pow2 e)%Q)
    by (rewrite E; apply Qle_refl).
  assert (H2 : (inject_Z n / pow2 e <= inject_Z (n * 2 ^ (- e)))%Q)
    by (rewrite E; apply Qle_refl).
  apply round_half_even_ge in H1. apply round_half_even_le in H2.
  replace (round_half_even (inject_Z n / pow2 e)) with (n * 2 ^ (- e))%Z by lia.
  rewrite <- E. apply pow2_mul_div.
Qed.

(** *** [round64] on non-negative arguments *)

Lemma Qabs_nonneg_eq a : (0 <= a)%Q → Qabs a = a.
Proof.
  destruct a as [n d]. unfold Qle. simpl. intros H.
  f_equal. lia.
Qed.

Lemma Qltb_nonneg a : (0 <= a)%Q → Qltb a 0 = false.
Proof.
  intros H. unfold Qltb. apply Qle_bool_iff in H. by rewrite H.
Qed.

Lemma round64_nonneg a :
  (0 <= a)%Q → (nearest64 a < pow2 1024)%Q →
  ∃ y, round64 a = Finite y ∧ (y == nearest64 a)%Q.
Proof.
  intros Ha Hy. unfold round64. rewrite (Qabs_nonneg_eq a Ha), (Qltb_nonneg a Ha).
  destruct (Qle_bool (pow2 1024) (nearest64 a)) eqn:Hc.
  { apply Qle_bool_iff in Hc. lra. }
  eexists. split; [done|]. apply Qred_correct.
Qed.

Lemma pow2_m53 : (pow2 (-53) == 1 # 9007199254740992)%Q.
Proof. reflexivity. Qed.

(** What [round64] does to a non-negative number below [2^K]. *)
Lemma round64_spec (x : Q) (K : Z) :
  (0 <= x)%Q → (-1074 ≤ K ≤ 1023)%Z → (x <= pow2 K)%Q →
  ∃ y, round64 x = Finite y ∧ (0 <= y)%Q ∧ (y <= pow2 K)%Q ∧
    (x == 0 → y == 0)%Q ∧
    (∀ K', (-1074 ≤ K')%Z → (x <= pow2 K')%Q → (y <= pow2 K')%Q) ∧
    (∀ K', (-1074 ≤ K')%Z → (pow2 K' <= x)%Q → (pow2 K' <= y)%Q) ∧
    (∀ n, (0 ≤ n < 2 ^ 53)%Z → (x <= inject_Z n)%Q → (y <= inject_Z n)%Q) ∧
    (∀ n, (0 < n < 2 ^ 53)%Z → (inject_Z n <= x)%Q → (inject_Z n <= y)%Q) ∧
    ((pow2 (-1022) <= x)%Q →
     (x * (1 - pow2 (-53)) <= y)%Q ∧ (y <= x * (1 + pow2 (-53)))%Q).
Proof.
  intros Hx HK HxK.
  assert (Hle : ∀ K', (-1074 ≤ K')%Z → (x <= pow2 K')%Q →
                      (nearest64 x <= pow2 K')%Q).
  { intros K' HK' H'. destruct (Qlt_le_dec 0 x) as [Hpos|H0].
    - by apply nearest64_le_pow2.
    - rewrite nearest64_zero by lra. apply Qlt_le_weak, pow2_pos. }
  destruct (round64_nonneg x Hx) as (y & Hy & Ey).
  { eapply Qle_lt_trans; [apply (Hle K); [lia | done]|]. apply pow2_lt. lia. }
  exists y. split; [done|].
  split; [rewrite Ey; by apply nearest64_nonneg|].
  split; [rewrite Ey; apply Hle; [lia | done]|].
  split; [intros E; rewrite Ey; by apply nearest64_zero|].
  split; [intros K' HK' H'; rewrite Ey; by apply Hle|].
  split; [intros K' HK' H'; rewrite Ey; by apply nearest64_ge_pow2|].
  split; [|split].
  - intros n Hn Hxn. rewrite Ey. destruct (Qlt_le_dec 0 x) as [Hpos|H0].
    + rewrite <- (nearest64_int n Hn). by apply nearest64_mono.
    + rewrite nearest64_zero by lra. change 0%Q with (inject_Z 0).
      rewrite <- Zle_Qle. lia.
  - intros n Hn Hxn. rewrite Ey. rewrite <- (nearest64_int n) at 1 by lia.
    apply nearest64_mono; [|done].
    change 0%Q with (inject_Z 0). rewrite <- Zlt_Qlt. lia.
  - intros Hn. rewrite Ey. pose proof (nearest64_error x Hn) as He.
    apply Qabs_Qle_condition in He. lra.
Qed.

Lemma float_of_int_exact (n : Z) :
  (0 ≤ n < 2 ^ 53)%Z →
  ∃ y, float_of_int n = OK (Finite y) ∧ (y == inject_Z n)%Q.
Proof.
  intros Hn. unfold float_of_int.
  assert (H0 : (0 <= inject_Z n)%Q).
  { change 0%Q with (inject_Z 0). rewrite <- Zle_Qle. lia. }
  destruct (round64_spec (inject_Z n) 53 H0) as (y & Hy & _ & _ & Hz & _ & _ & Hup & Hlow & _);
    [lia | rewrite pow2_int by lia; rewrite <- Zle_Qle; lia |].
  rewrite Hy. exists y. split; [done|].
  destruct (Z.eq_dec n 0%Z) as [->|Hne]; [by apply Hz|].
  apply Qle_antisym; [apply Hup | apply Hlow]; (lia || apply Qle_refl).
Qed.

(** A binary64 number below 1 is at most [1 - 2^-53]. *)
Lemma binary64_below_1 (r : Q) :
  binary64 r → (0 < r)%Q → (r < 1)%Q → (pow2 (-53) <= 1 - r)%Q.
Proof.
  intros (y & Hy & Ey) H0 H1. pose proof pow2_m53 as Hu.
  destruct (Qlt_le_dec r (1 # 2)) as [Hh|Hh]; [lra|].
  unfold round64 in Hy.
  rewrite (Qabs_nonneg_eq r), (Qltb_nonneg r) in Hy by lra.
  destruct (Qle_bool (pow2 1024) (nearest64 r)); [done|].
  injection Hy as <-. rewrite Qred_correct in Ey.
  unfold nearest64 in Ey.
  rewrite (Qlog2_unique r (-1)) in Ey by (done || (change (pow2 (-1 + 1)) with 1%Q; lra)).
  change (Z.max (-1 - 52) (-1074)) with (-53)%Z in Ey.
  set (n := round_half_even (r / pow2 (-53))) in *.
  assert (Hn : (n < 2 ^ 53)%Z).
  { rewrite Zlt_Qlt. change (inject_Z (2 ^ 53)) with (9007199254740992%Q). 
    rewrite Hu in Ey. lra. }
  assert (Hn' : (inject_Z n <= inject_Z (2 ^ 53 - 1))%Q) by (rewrite <- Zle_Qle; lia).
  change (inject_Z (2 ^ 53 - 1)) with (9007199254740991%Q) in Hn'.
  rewrite Hu in *. lra.
Qed.

(** [1 - target_ratio] *)
Lemma one_minus_spec (r : Q) :
  binary64 r → (0 < r)%Q → (r < 1)%Q →
  ∃ d, round64 (1 - r) = Finite d ∧
    (pow2 (-53) <= d)%Q ∧ (d <= 1)%Q ∧
    ((1 - r) * (1 - pow2 (-53)) <= d)%Q ∧
    (d <= (1 - r) * (1 + pow2 (-53)))%Q ∧
    ((r <= 1 # 2)%Q → (1 # 2 <= d)%Q).
Proof.
  intros Hb H0 H1. pose proof (binary64_below_1 r Hb H0 H1) as Hlow.
  destruct (round64_spec (1 - r) 0) as (d & Hd & _ & Hd1 & _ & _ & Hge & _ & _ & Hn);
    [lra | lia | change (pow2 0) with 1%Q; lra |].
  exists d. split; [done|]. split; [by apply Hge|]. split; [done|].
  assert (Hnorm : (pow2 (-1022) <= 1 - r)%Q).
  { eapply Qle_trans; [|exact Hlow]. by apply pow2_le. }
  destruct (Hn Hnorm) as [Hn1 Hn2]. split; [done|]. split; [done|].
  intros Hr. apply (Hge (-1)%Z); [lia|]. change (pow2 (-1)) with (1 # 2)%Q. lra.
Qed.

(** The quotient of two integers [0 <= a <= b] is a float between 0 and 1,
    within one rounding of the exact quotient when [b] has at most 53
    bits. *)
Lemma int_truediv_spec (a b : Z) :
  (0 ≤ a ≤ b)%Z → (0 < b)%Z →
  ∃ q, int_truediv a b = OK q ∧ (0 <= q)%Q ∧ (q <= 1)%Q ∧
    ((b < 2 ^ 53)%Z → rounded_quotient q a b).
Proof.
  intros Ha Hb. unfold int_truediv, rounded_quotient.
  destruct (Z.eqb_spec b 0) as [E|_]; [lia|].
  pose proof (inject_Z_nonneg a ltac:(lia)) as Ha0.
  pose proof (inject_Z_pos b Hb) as Hb0.
  assert (Hab : (inject_Z a <= inject_Z b)%Q) by (rewrite <- Zle_Qle; lia).
  set (x := (inject_Z a / inject_Z b)%Q).
  assert (Hx0 : (0 <= x)%Q) by (apply Qle_shift_div_l; lra).
  assert (Hx1 : (x <= 1)%Q) by (apply Qle_shift_div_r; lra).
  destruct (round64_spec x 0 Hx0)
    as (q & Hq & Hq0 & Hq1 & Hqz & _ & _ & _ & _ & Hqn);
    [lia | done |].
  rewrite Hq. exists q. split; [done|]. split; [done|]. split; [done|].
  intros Hb53. apply Qabs_Qle_condition.
  destruct (Z.eq_dec a 0%Z) as [->|Hne].
  - assert (Ex : (x == 0)%Q) by (unfold x; change (inject_Z 0) with 0%Q; field; lra).
    rewrite (Hqz Ex), Ex. split; discriminate.
  - assert (Ha1 : (1 <= inject_Z a)%Q).
    { change 1%Q with (inject_Z 1). rewrite <- Zle_Qle. lia. }
    destruct (inject_Z_bounds b (2 ^ 53) ltac:(lia)) as [_ Hb1].
    change (inject_Z (2 ^ 53)) with (9007199254740992%Q) in Hb1.
    destruct Hqn as [Hn1 Hn2]; [|lra].
    apply Qle_trans with (pow2 (-53)); [by apply pow2_le|].
    apply Qle_shift_div_l; [done|]. rewrite pow2_m53. lra.
Qed.

(** ** RatioRebalancer *)

(** [k] out of [n] is within [1/n] of [r] as soon as [k] is within 1 of
    [r * n]. *)
Lemma ratio_close (r k n : Q) :
  (0 < n)%Q → (-(1) <= k - r * n)%Q → (k - r * n <= 1)%Q →
  (Qabs (k / n - r) <= 1 / n)%Q.
Proof.
  intros Hn H1 H2.
  assert (Hne : ¬ (n == 0)%Q).
  { intros E. rewrite E in Hn. by apply Qlt_irrefl in Hn. }
  assert (E : (k / n - r == (k - r * n) / n)%Q) by (field; done).
  rewrite E. apply Qabs_Qle_condition. split.
  - assert (E2 : (- (1 / n) == -(1) / n)%Q) by (field; done).
    rewrite E2.
    apply Qmult_le_compat_r; [done|]. apply Qlt_le_weak, Qinv_lt_0_compat, Hn.
  - apply Qmult_le_compat_r; [done|]. apply Qlt_le_weak, Qinv_lt_0_compat, Hn.
Qed.

(** Line 87: [int(target_ratio * total_greater_equal / (1 - target_ratio))] *)
Lemma required_less_spec (r : Q) (b : Z) :
  binary64 r → (0 < r)%Q → (r < 1)%Q → (0 ≤ b < 2 ^ 48)%Z →
  ∃ L, required_less_count r b = OK L ∧ (0 ≤ L)%Z ∧
    (b = 0%Z → L = 0%Z) ∧
    (-(1) <= inject_Z L * (1 - r) - r * inject_Z b)%Q ∧
    (inject_Z L * (1 - r) - r * inject_Z b <= 1)%Q ∧
    ((2 ≤ L)%Z →
     (1 # 2 < r * inject_Z b)%Q ∧
     (inject_Z L * (1 - r) <= r * inject_Z b * (1 + 4 * pow2 (-53)))%Q).
Proof.
  intros Hb H0 H1 Hb48. pose proof pow2_m53 as Hu.
  destruct (float_of_int_exact b) as (B & HB & EB); [lia|].
  destruct (inject_Z_bounds b (2 ^ 48) Hb48) as [Hb0 Hb1].
  change (inject_Z (2 ^ 48)) with (281474976710656%Q) in Hb1.
  destruct (one_minus_spec r Hb H0 H1) as (d & Hd & Hd0 & Hd1 & Hd2 & Hd3 & Hd4).
  set (bq := inject_Z b) in *.
  assert (EN : (r * B == r * bq)%Q) by (by rewrite EB).
  assert (HN0 : (0 <= r * bq)%Q) by (apply Qmult_le_0_compat; lra).
  assert (HNb : (r * bq <= bq)%Q) by (apply Qmul_le_1; lra).
  destruct (round64_spec (r * B) 48)
    as (t & Ht & Ht0 & _ & Htz & Htle & _ & _ & _ & Htn).
  { by rewrite EN. }
  { lia. }
  { rewrite EN. change (pow2 48) with (281474976710656%Q). lra. }
  assert (Hdpos : (0 < d)%Q) by (rewrite Hu in Hd0; lra).
  assert (Ht49 : (t <= pow2 49)%Q).
  { apply Htle; [lia|]. rewrite EN. change (pow2 49) with (562949953421312%Q). lra. }
  destruct (round64_spec (t / d) 102)
    as (x & Hx & Hx0 & _ & Hxz & Hxle & _ & _ & _ & Hxn).
  { apply Qle_shift_div_l; [done | lra]. }
  { lia. }
  { apply Qle_shift_div_r; [done|].
    assert (E : (pow2 49 == pow2 102 * pow2 (-53))%Q) by (by rewrite <- pow2_add).
    apply Qle_trans with (pow2 102 * pow2 (-53))%Q; [lra|].
    apply Qmul_le_mono; [apply Qlt_le_weak, pow2_pos | done]. }
  unfold required_less_count. rewrite HB.
  cbn [mbind outcome_bind float_mul float_sub].
  rewrite Hd, Ht. cbn [float_div]. rewrite (Qeq_bool_pos d Hdpos).
  cbn [mbind outcome_bind]. rewrite Hx. cbn [int_of_float].
  destruct (py_int_bounds x Hx0) as (HL0 & HL1 & HL2).
  set (L := py_int x) in *. exists L. split; [done|]. split; [done|].
  assert (Eq : (t / d * d == t)%Q) by (field; lra).
  set (q := (t / d)%Q) in *.
  assert (Hq0 : (0 <= q)%Q) by (apply Qle_shift_div_l; [done | lra]).
  assert (Hzero : (r * bq == 0)%Q → L = 0%Z).
  { intros E.
    assert (Et : (t == 0)%Q) by (apply Htz; by rewrite EN).
    assert (Ex : (x == 0)%Q).
    { apply Hxz. unfold q. rewrite Et. field. lra. }
    apply Z.le_antisymm; [|done]. rewrite Zle_Qle. change (inject_Z 0) with 0%Q. lra. }
  split.
  { intros ->. apply Hzero. unfold bq. change (inject_Z 0) with 0%Q. ring. }
  assert (HD1 : (0 < 1 - r)%Q) by lra.
  assert (HLx : (inject_Z L * (1 - r) <= x * (1 - r))%Q)
    by (apply Qmult_le_compat_r; lra).
  assert (HxL : (x * (1 - r) <= (inject_Z L + 1) * (1 - r))%Q)
    by (apply Qmult_le_compat_r; lra).
  destruct (Qlt_le_dec (1 # 2) (r * bq)) as [HB'|HA].
  - (* every rounding is in the normal range *)
    assert (Hn1 : (pow2 (-1022) <= r * B)%Q).
    { rewrite EN. apply Qle_trans with (pow2 (-1)); [by apply pow2_le|].
      change (pow2 (-1)) with (1 # 2)%Q. lra. }
    destruct (Htn Hn1) as [Ht1 Ht2]. rewrite EN in Ht1, Ht2.
    assert (Hu8 : (pow2 (-53) <= 1 # 8)%Q) by (rewrite Hu; done).
    assert (Hu0 : (0 <= pow2 (-53))%Q) by (rewrite Hu; done).
    assert (Hq1 : (1 # 4 <= q)%Q).
    { apply Qle_shift_div_l; [done|].
      apply Qle_trans with ((1 # 2) * (1 - pow2 (-53)))%Q; [rewrite Hu; lra|].
      apply Qle_trans with (r * bq * (1 - pow2 (-53)))%Q; [|done].
      apply Qmult_le_compat_r; lra. }
    assert (Hn2 : (pow2 (-1022) <= q)%Q).
    { apply Qle_trans with (pow2 (-2)); [by apply pow2_le|].
      change (pow2 (-2)) with (1 # 4)%Q. lra. }
    destruct (Hxn Hn2) as [Hx1 Hx2].
    pose proof (quotient_upper (r * bq) (1 - r) d t q x (pow2 (-53))
                  HN0 HD1 Hdpos Hu0 Hu8 Eq Ht2 Hd2 Hx0 Hx2) as Hup.
    pose proof (quotient_lower (r * bq) (1 - r) d t q x (pow2 (-53))
                  HN0 HD1 Hdpos Hu0 Hu8 Eq Ht1 Hd3 Hq0 Hx1) as Hlo.
    assert (HNr : (bq * (4 * pow2 (-53)) * r <= r)%Q).
    { apply Qmul_le_1; [lra|]. rewrite Hu. lra. }
    clear - Hup Hlo HNr HLx HxL HNb Hb1 Hb0 H0 H1 Hu HB' HN0.
    rewrite Hu in *.
    split; [lra|]. split; [lra|].
    intros _. split; [done | lra].
  - (* the product is at most a half: the count is 0 or 1 *)
    assert (Ht2 : (t <= 1 # 2)%Q).
    { apply (Htle (-1)%Z); [lia|]. by rewrite EN. }
    assert (HL1' : (L ≤ 1)%Z).
    { destruct (Z.eq_dec b 0%Z) as [->|Hne].
      - rewrite Hzero; [lia|]. unfold bq. change (inject_Z 0) with 0%Q. ring.
      - assert (Hb1' : (1 <= bq)%Q).
        { unfold bq. change 1%Q with (inject_Z 1). rewrite <- Zle_Qle. lia. }
        assert (Hr : (r <= 1 # 2)%Q).
        { apply Qle_trans with (r * bq)%Q; [|done].
          rewrite <- (Qmult_1_r r) at 1. apply Qmul_le_mono; lra. }
        pose proof (Hd4 Hr).
        assert (Hq1 : (q <= pow2 0)%Q).
        { change (pow2 0) with 1%Q. apply Qle_shift_div_r; [done | lra]. }
        apply Hxle in Hq1; [|lia]. change (pow2 0) with 1%Q in Hq1.
        rewrite Zle_Qle. change (inject_Z 1) with 1%Q. lra. }
    assert (HLc : L = 0%Z ∨ L = 1%Z) by lia.
    clear - HLc HA HN0 H0 H1.
    split; [|split]; [destruct HLc as [-> | ->] .. | lia].
    + change (inject_Z 0) with 0%Q. lra.
    + change (inject_Z 1) with 1%Q. lra.
    + change (inject_Z 0) with 0%Q. lra.
    + change (inject_Z 1) with 1%Q. lra.
Qed.

(** Line 94: [int(total_less * (1 - target_ratio) / target_ratio)] *)
Lemma required_greater_equal_spec (r : Q) (a : Z) :
  binary64 r → (pow2 (-51) <= r)%Q → (r < 1)%Q → (0 < a < 2 ^ 48)%Z →
  ∃ G, required_greater_equal_count r a = OK G ∧ (0 ≤ G)%Z ∧
    (inject_Z G * r <= inject_Z a * (1 - r) * (1 + 4 * pow2 (-53)))%Q ∧
    (inject_Z a * (1 - r) * (1 - 4 * pow2 (-53)) <= (inject_Z G + 1) * r)%Q.
Proof.
  intros Hb Hr51 H1 Ha48. pose proof pow2_m53 as Hu.
  assert (H0 : (0 < r)%Q) by (pose proof (pow2_pos (-51)); lra).
  destruct (float_of_int_exact a) as (A & HA & EA); [lia|].
  destruct (inject_Z_bounds a (2 ^ 48) ltac:(lia)) as [Ha0 Ha1].
  change (inject_Z (2 ^ 48)) with (281474976710656%Q) in Ha1.
  assert (Ha1' : (1 <= inject_Z a)%Q).
  { change 1%Q with (inject_Z 1). rewrite <- Zle_Qle. lia. }
  destruct (one_minus_spec r Hb H0 H1) as (d & Hd & Hd0 & Hd1 & Hd2 & Hd3 & _).
  set (aq := inject_Z a) in *.
  assert (Hdpos : (0 < d)%Q) by (rewrite Hu in Hd0; lra).
  assert (EN : (A * d == aq * d)%Q) by (by rewrite EA).
  assert (HN0 : (0 <= aq * d)%Q) by (apply Qmult_le_0_compat; lra).
  assert (HNa : (aq * d <= aq)%Q).
  { rewrite Qmult_comm. apply Qmul_le_1; lra. }
  assert (HNd : (d <= aq * d)%Q).
  { rewrite <- (Qmult_1_l d) at 1. apply Qmult_le_compat_r; lra. }
  destruct (round64_spec (A * d) 48)
    as (s & Hs & Hs0 & Hs48 & _ & _ & Hsge & _ & _ & Hsn).
  { by rewrite EN. }
  { lia. }
  { rewrite EN. change (pow2 48) with (281474976710656%Q). lra. }
  assert (Hs53 : (pow2 (-53) <= s)%Q).
  { apply Hsge; [lia|]. rewrite EN. lra. }
  destruct Hsn as [Hs1 Hs2].
  { rewrite EN. apply Qle_trans with (pow2 (-53)); [by apply pow2_le | lra]. }
  rewrite EN in Hs1, Hs2.
  assert (Eq : (s / r * r == s)%Q) by (field; lra).
  assert (Hq53 : (pow2 (-53) <= s / r)%Q).
  { apply Qle_shift_div_l; [done|].
    apply Qle_trans with (pow2 (-53)); [|done].
    pose proof (pow2_pos (-53)). rewrite Qmult_comm. apply Qmul_le_1; lra. }
  destruct (round64_spec (s / r) 99)
    as (y & Hy & Hy0 & _ & _ & _ & _ & _ & _ & Hyn).
  { pose proof (pow2_pos (-53)). lra. }
  { lia. }
  { apply Qle_shift_div_r; [done|].
    assert (E : (pow2 48 == pow2 99 * pow2 (-51))%Q) by (by rewrite <- pow2_add).
    apply Qle_trans with (pow2 99 * pow2 (-51))%Q; [lra|].
    apply Qmul_le_mono; [apply Qlt_le_weak, pow2_pos | done]. }
  destruct Hyn as [Hy1 Hy2].
  { apply Qle_trans with (pow2 (-53)); [by apply pow2_le | done]. }
  unfold required_greater_equal_count. rewrite HA.
  cbn [mbind outcome_bind float_sub]. rewrite Hd. cbn [float_mul].
  rewrite Hs. cbn [float_div]. rewrite (Qeq_bool_pos r H0).
  cbn [mbind outcome_bind]. rewrite Hy. cbn [int_of_float].
  destruct (py_int_bounds y Hy0) as (HG0 & HG1 & HG2).
  set (G := py_int y) in *. exists G. split; [done|]. split; [done|].
  set (q := (s / r)%Q) in *.
  assert (Hq0 : (0 <= q)%Q) by (pose proof (pow2_pos (-53)); lra).
  assert (Hu8 : (pow2 (-53) <= 1 # 8)%Q) by (rewrite Hu; done).
  assert (Hu0 : (0 <= pow2 (-53))%Q) by (rewrite Hu; done).
  assert (HD1 : (0 < 1 - r)%Q) by lra.
  pose proof (product_upper aq (1 - r) d s q y r (pow2 (-53))
                Ha0 HD1 H0 Hu0 Hu8 Eq Hd3 (Qlt_le_weak _ _ Hdpos) Hs2 Hy0 Hy2)
    as Hup.
  pose proof (product_lower aq (1 - r) d s q y r (pow2 (-53))
                Ha0 HD1 H0 Hu0 Hu8 Eq Hd2 Hs1 Hq0 Hy1) as Hlo.
  assert (HGy : (inject_Z G * r <= y * r)%Q)
    by (apply Qmult_le_compat_r; lra).
  assert (HyG : (y * r <= (inject_Z G + 1) * r)%Q)
    by (apply Qmult_le_compat_r; lra).
  split; lra.
Qed.

(** The arithmetic of lines 84-101, in binary64. *)
Lemma sample_counts_spec (r : Q) (a b : Z) :
  binary64 r → (0 < r)%Q → (r < 1)%Q →
  (0 < a < 2 ^ 48)%Z → (0 ≤ b < 2 ^ 48)%Z →
  ∃ L rl rg,
    required_less_count r b = OK L ∧
    sample_counts r a b = OK (rl, rg) ∧
    (0 ≤ rl ≤ a)%Z ∧ (0 ≤ rg ≤ b)%Z ∧
    ((L ≤ a)%Z → rl = L ∧ rg = b) ∧
    ((a < L)%Z →
     rl = a ∧ required_greater_equal_count r a = OK rg ∧ (rg < b)%Z) ∧
    ((0 < b)%Z →
     (0 < rl + rg)%Z ∧
     (Qabs (inject_Z rl / inject_Z (rl + rg) - r)
      <= 1 / inject_Z (rl + rg))%Q).
Proof.
  intros Hb H0 H1 Ha Hb48. pose proof pow2_m53 as Hu.
  destruct (required_less_spec r b Hb H0 H1 Hb48)
    as (L & HL & HL0 & HLz & HL1 & HL2 & HL3).
  exists L. unfold sample_counts. rewrite HL. cbn [mbind outcome_bind].
  destruct (Z.ltb_spec a L) as [HaL|HaL].
  - (* the true class is the bottleneck *)
    destruct HL3 as [Hhalf Hup]; [lia|].
    destruct (inject_Z_bounds a (2 ^ 48) ltac:(lia)) as [Ha0 Ha1].
    destruct (inject_Z_bounds b (2 ^ 48) Hb48) as [Hb0 Hb1].
    change (inject_Z (2 ^ 48)) with (281474976710656%Q) in Ha1, Hb1.
    assert (Hr51 : (pow2 (-51) <= r)%Q).
    { change (pow2 (-51)) with (1 # 2251799813685248)%Q.
      assert (H : (r * inject_Z b <= r * 281474976710656)%Q)
        by (apply Qmul_le_mono; lra).
      lra. }
    destruct (required_greater_equal_spec r a Hb Hr51 H1 Ha)
      as (G & HG & HG0 & HG1 & HG2).
    rewrite HG. cbn [mbind outcome_bind].
    assert (HaL' : (inject_Z a + 1 <= inject_Z L)%Q).
    { change 1%Q with (inject_Z 1).
      rewrite <- (inject_Z_plus a 1), <- Zle_Qle. lia. }
    assert (HD1 : (0 < 1 - r)%Q) by lra.
    assert (HaL'' : ((inject_Z a + 1) * (1 - r) <= inject_Z L * (1 - r))%Q)
      by (apply Qmult_le_compat_r; lra).
    assert (Ha1' : (1 <= inject_Z a)%Q).
    { change 1%Q with (inject_Z 1). rewrite <- Zle_Qle. lia. }
    assert (Hs : (inject_Z a * (1 - r) <= 281474976710656 * (1 - r))%Q)
      by (apply Qmult_le_compat_r; lra).
    assert (HGb : (G < b)%Z).
    { apply Z.lt_nge. intros Hge. rewrite Zle_Qle in Hge.
      assert (H : (inject_Z b * r <= inject_Z G * r)%Q)
        by (apply Qmult_le_compat_r; lra).
      clear - Hup HaL'' HG1 H Hs Hu HD1. rewrite Hu in *. lra. }
    exists a, G. split; [done|].
    rewrite Z.min_id, (Z.min_l G b) by lia.
    split; [done|]. split; [lia|]. split; [lia|]. split; [lia|].
    split; [done|]. intros _. split; [lia|].
    rewrite inject_Z_plus. apply ratio_close.
    + pose proof (inject_Z_nonneg G HG0). lra.
    + clear - HG1 Hs Hu HD1 H0. rewrite Hu in *. lra.
    + clear - HG2 Hs Hu HD1 H0. rewrite Hu in *. lra.
  - (* the false class is kept whole *)
    cbn [mbind outcome_bind].
    exists L, b. split; [done|].
    rewrite (Z.min_l L a), Z.min_id by lia.
    split; [done|]. split; [lia|]. split; [lia|]. split; [done|].
    split; [lia|]. intros Hbpos. split; [lia|].
    rewrite inject_Z_plus.
    pose proof (inject_Z_nonneg L HL0). pose proof (inject_Z_pos b Hbpos).
    apply ratio_close; lra.
Qed.

(** When enough predicate-true items are available the false class is kept
    whole. *)
Lemma sample_counts_keep_false (r : Q) (a b k : Z) :
  required_less_count r b = OK k → (k ≤ a)%Z →
  sample_counts r a b = OK (Z.min k a, b).
Proof.
  intros Hk Hka. unfold sample_counts. rewrite Hk. cbn [mbind outcome_bind].
  destruct (Z.ltb_spec a k); [lia|]. cbn [mbind outcome_bind].
  by rewrite Z.min_id.
Qed.

Lemma classify_filter data l0 g0 less ge :
  foldM classify (l0, g0) data = OK (less, ge) →
  less = l0 ++ List.filter predicate_true data ∧
  ge = g0 ++ List.filter false_class data.
Proof.
  revert l0 g0. induction data as [|item data IH]; intros l0 g0; simpl.
  - intros [= <- <-]. by rewrite !app_nil_r.
  - intros (st & Hst & Hrest)%bind_OK_inv. revert Hst.
    unfold predicate_true, false_class, is_less.
    destruct item as [| | | | |m];
      try (intros [= <-]; by apply IH in Hrest).
    simpl.
    destruct (m !! "chosen_score") as [c|], (m !! "rejected_score") as [r|];
      try (intros [= <-]; apply IH in Hrest as [-> ->];
           by rewrite <- !(assoc_L (++))).
    destruct (py_lt c r) as [[]|]; simpl; [| |done];
      intros [= <-]; apply IH in Hrest as [-> ->];
      by rewrite <- !(assoc_L (++)).
Qed.

(** The classification loop compares the scores of every dictionary that
    has both, so it returns only if those comparisons do. *)
Lemma classify_comparable data st st' :
  foldM classify st data = OK st' →
  Forall (λ item, ∃ b, is_less item = OK b) data.
Proof.
  revert st. induction data as [|item data IH]; intros st; simpl; [done|].
  intros (st1 & Hst & Hrest%IH)%bind_OK_inv. constructor; [|done].
  destruct st as [l0 g0]. unfold classify in Hst. unfold is_less.
  destruct item as [| | | | |m]; try by eexists.
  destruct (m !! "chosen_score") as [c|], (m !! "rejected_score") as [r|];
    try by eexists.
  destruct (py_lt c r) as [b|]; [by eexists | done].
Qed.

Lemma predicate_true_is_less item :
  predicate_true item = true → is_less item = OK true.
Proof. unfold predicate_true. by destruct (is_less item) as [[]|]. Qed.

Lemma false_class_is_less item :
  false_class item = true → is_less item = OK false.
Proof.
  unfold false_class. destruct item; try done.
  by destruct (is_less (JObj m)) as [[]|].
Qed.

Lemma final_less_count l n :
  Forall (λ item, ∃ b, is_less item = OK b) l →
  foldM (λ n item, b ← is_less item; OK (if b : bool then n + 1 else n)%Z) n l
  = OK (n + Z.of_nat (length (List.filter predicate_true l)))%Z.
Proof.
  intros Hl. revert n. induction Hl as [|item l [b Hb] _ IH]; intros n; simpl.
  - f_equal. lia.
  - rewrite Hb. cbn [mbind outcome_bind]. rewrite IH.
    unfold predicate_true at 2. rewrite Hb.
    destruct b; cbn [length]; apply (f_equal OK); lia.
Qed.

Lemma filter_length_Permutation {A} (f : A → bool) (l l' : list A) :
  l ≡ₚ l' → length (List.filter f l) = length (List.filter f l').
Proof.
  induction 1 as [|x l l' _ IH|x y l|l l' l'' _ IH1 _ IH2]; simpl.
  - done.
  - destruct (f x); simpl; lia.
  - destruct (f x), (f y); simpl; lia.
  - lia.
Qed.

Lemma filter_length_all {A} (f : A → bool) (l : list A) :
  Forall (λ x, f x = true) l → length (List.filter f l) = length l.
Proof. induction 1 as [|x l Hx _ IH]; simpl; [done|]. rewrite Hx. simpl. lia. Qed.

Lemma filter_length_none {A} (f : A → bool) (l : list A) :
  Forall (λ x, f x = false) l → length (List.filter f l) = 0.
Proof. induction 1 as [|x l Hx _ IH]; simpl; [done|]. by rewrite Hx. Qed.

Lemma Forall_filter_true {A} (f : A → bool) (l : list A) :
  Forall (λ x, f x = true) (List.filter f l).
Proof. apply Forall_forall. intros x Hx%list_elem_of_In%filter_In. tauto. Qed.

Lemma py_slice_to_take {A} (l : list A) (n : Z) :
  (0 ≤ n)%Z → py_slice_to l n = take (Z.to_nat n) l.
Proof. intros Hn. unfold py_slice_to. by destruct (Z.leb_spec 0 n); [|lia]. Qed.

Lemma py_slice_to_is_take {A} (l : list A) (n : Z) :
  ∃ m, py_slice_to l n = take m l.
Proof. unfold py_slice_to. destruct (0 <=? n)%Z; by eexists. Qed.

Section Rebalancer.
Context {rng : Type} `{!PyRandom rng}.

(** The one property of [random.shuffle] the statements rely on. *)
Hypothesis shuffle_perm : ∀ (g : rng) (l : list json), (random_shuffle g l).1 ≡ₚ l.

(** The three early returns of lines 54-82. *)
Lemma downsample_early data r g less ge :
  foldM classify ([], []) data = OK (less, ge) →
  (less = [] → downsample_dataset data r g = OK (data, g)) ∧
  (less ≠ [] → (1 <= r)%Q → downsample_dataset data r g = OK (less, g)) ∧
  (less ≠ [] → (r <= 0)%Q → downsample_dataset data r g = OK (ge, g)).
Proof.
  intros Hc. unfold downsample_dataset. rewrite Hc. cbn [mbind outcome_bind].
  split; [|split].
  - by intros ->.
  - intros Hne Hr. destruct (Z.eqb_spec (Z.of_nat (length less)) 0) as [E|_].
    { destruct less; [done | simpl in E; lia]. }
    apply Qle_bool_iff in Hr. by rewrite Hr.
  - intros Hne Hr. destruct (Z.eqb_spec (Z.of_nat (length less)) 0) as [E|_].
    { destruct less; [done | simpl in E; lia]. }
    destruct (Qle_bool 1 r) eqn:H1.
    { apply Qle_bool_iff in H1. lra. }
    apply Qle_bool_iff in Hr. by rewrite Hr.
Qed.

(** The sampling branch of lines 84-134. *)
Lemma downsample_between data r g less ge rl rg :
  foldM classify ([], []) data = OK (less, ge) →
  less ≠ [] → (0 < r)%Q → (r < 1)%Q →
  sample_counts r (Z.of_nat (length less)) (Z.of_nat (length ge))
  = OK (rl, rg) →
  (0 ≤ rl ≤ Z.of_nat (length less))%Z →
  (0 ≤ rg ≤ Z.of_nat (length ge))%Z →
  ∃ out g' less1 ge1,
    downsample_dataset data r g = OK (out, g') ∧
    less1 ≡ₚ less ∧ ge1 ≡ₚ ge ∧
    out ≡ₚ take (Z.to_nat rl) less1 ++ take (Z.to_nat rg) ge1 ∧
    final_less out = OK rl.
Proof.
  intros Hc Hne Hr0 Hr1 Hsc Hrl Hrg.
  destruct (classify_filter _ _ _ _ _ Hc) as [Hless Hge]. simpl in Hless, Hge.
  unfold downsample_dataset. rewrite Hc. cbn [mbind outcome_bind].
  destruct (Z.eqb_spec (Z.of_nat (length less)) 0) as [E|_].
  { destruct less; [done | simpl in E; lia]. }
  destruct (Qle_bool 1 r) eqn:H1.
  { apply Qle_bool_iff in H1. lra. }
  destruct (Qle_bool r 0) eqn:H0.
  { apply Qle_bool_iff in H0. lra. }
  rewrite Hsc. cbn [mbind outcome_bind].
  pose proof (shuffle_perm g less) as P1.
  destruct (random_shuffle g less) as [less1 g1]. simpl in P1.
  pose proof (shuffle_perm g1 ge) as P2.
  destruct (random_shuffle g1 ge) as [ge1 g2]. simpl in P2.
  rewrite !py_slice_to_take by lia.
  pose proof (shuffle_perm g2
    (take (Z.to_nat rl) less1 ++ take (Z.to_nat rg) ge1)) as P3.
  destruct (random_shuffle g2 _) as [out g3]. simpl in P3.
  assert (Hl1 : Forall (λ x, predicate_true x = true) less1).
  { rewrite P1, Hless. apply Forall_filter_true. }
  assert (Hg1 : Forall (λ x, false_class x = true) ge1).
  { rewrite P2, Hge. apply Forall_filter_true. }
  assert (Hfl : final_less out = OK rl).
  { unfold final_less. rewrite final_less_count.
    - rewrite (filter_length_Permutation _ _ _ P3), List.filter_app, length_app.
      rewrite filter_length_all by (by apply Forall_take).
      rewrite filter_length_none.
      + rewrite length_take, (Permutation_length P1). f_equal. lia.
      + apply Forall_take. eapply Forall_impl; [exact Hg1|].
        intros x Hx%false_class_is_less. unfold predicate_true. by rewrite Hx.
    - rewrite P3. apply Forall_app. split; apply Forall_take.
      + eapply Forall_impl; [exact Hl1|]. intros x Hx%predicate_true_is_less. eauto.
      + eapply Forall_impl; [exact Hg1|]. intros x Hx%false_class_is_less. eauto. }
  assert (Hlen : Z.of_nat (length out) = (rl + rg)%Z).
  { rewrite P3, length_app, !length_take, (Permutation_length P1),
      (Permutation_length P2). lia. }
  exists out, g3, less1, ge1.
  unfold final_ratio. rewrite Hfl. cbn [mbind outcome_bind].
  destruct (Z.ltb_spec 0 (Z.of_nat (length out))) as [Hpos|_]; [|done].
  destruct (int_truediv_spec rl (Z.of_nat (length out))) as (q & -> & _);
    [lia | lia |].
  done.
Qed.

(** The same branch, read off a run that returned. *)
Lemma downsample_sampling data r (g g' : rng) out less ge :
  foldM classify ([], []) data = OK (less, ge) →
  less ≠ [] → (0 < r)%Q → (r < 1)%Q →
  downsample_dataset data r g = OK (out, g') →
  ∃ rl rg less1 ge1,
    sample_counts r (Z.of_nat (length less)) (Z.of_nat (length ge))
    = OK (rl, rg) ∧
    less1 ≡ₚ less ∧ ge1 ≡ₚ ge ∧
    out ≡ₚ py_slice_to less1 rl ++ py_slice_to ge1 rg.
Proof.
  intros Hc Hne Hr0 Hr1.
  unfold downsample_dataset. rewrite Hc. cbn [mbind outcome_bind].
  destruct (Z.eqb_spec (Z.of_nat (length less)) 0) as [E|_].
  { destruct less; [done | simpl in E; lia]. }
  destruct (Qle_bool 1 r) eqn:H1.
  { apply Qle_bool_iff in H1. lra. }
  destruct (Qle_bool r 0) eqn:H0.
  { apply Qle_bool_iff in H0. lra. }
  intros ([rl rg] & Hsc & Hrun)%bind_OK_inv.
  pose proof (shuffle_perm g less) as P1.
  destruct (random_shuffle g less) as [less1 g1]. simpl in P1.
  pose proof (shuffle_perm g1 ge) as P2.
  destruct (random_shuffle g1 ge) as [ge1 g2]. simpl in P2.
  pose proof (shuffle_perm g2
    (py_slice_to less1 rl ++ py_slice_to ge1 rg)) as P3.
  destruct (random_shuffle g2 _) as [out' g3]. simpl in P3.
  apply bind_OK_inv in Hrun as (_ & _ & [= <- _]).
  by exists rl, rg, less1, ge1.
Qed.

(** C2, as the code has it.  For a target ratio of 0 the output is exactly
    the false class, in input order, on every list of dictionaries.  For a
    target ratio of 1 the output is exactly the true class when that class
    is not empty.  When the true class is empty the input list is returned
    as it is, whatever the target ratio: for a target ratio of 1 the output
    is then the whole input and not the empty list. *)
Theorem rebalancer_extremes (data : list json) (r : Q) (g : rng)
    (less ge : list json) :
  foldM classify ([], []) data = OK (less, ge) →
  less = List.filter predicate_true data ∧
  ge = List.filter false_class data ∧
  (less ≠ [] → (r == 0)%Q → downsample_dataset data r g = OK (ge, g)) ∧
  (less ≠ [] → (r == 1)%Q → downsample_dataset data r g = OK (less, g)) ∧
  (less = [] → downsample_dataset data r g = OK (data, g)) ∧
  (less = [] → Forall (λ item, ∃ m, item = JObj m) data → data = ge).
Proof.
  intros Hc.
  destruct (classify_filter _ _ _ _ _ Hc) as [Hless Hge].
  simpl in Hless, Hge.
  destruct (downsample_early data r g less ge Hc) as (Hnone & Hone & Hzero).
  do 2 (split; [done|]). split; [|split; [|split; [done|]]].
  - intros Hne Hr. apply Hzero; [done|]. rewrite Hr. apply Qle_refl.
  - intros Hne Hr. apply Hone; [done|]. rewrite Hr. apply Qle_refl.
  - intros Hempty Hdict. subst less ge.
    pose proof (classify_comparable _ _ _ Hc) as Hcmp. clear Hc Hnone Hone Hzero.
    induction data as [|item data IH]; [done|].
    apply Forall_cons in Hdict as [[m ->] Hdict].
    apply Forall_cons in Hcmp as [[b Hb] Hcmp].
    assert (Hpt : predicate_true (JObj m) = b)
      by (unfold predicate_true; rewrite Hb; by destruct b).
    assert (Hfc : false_class (JObj m) = negb b)
      by (unfold false_class; rewrite Hb; by destruct b).
    cbn [List.filter] in Hempty |- *. rewrite Hpt in Hempty. rewrite Hfc.
    destruct b; [done|]. simpl. f_equal. by apply IH.
Qed.

(** C3.  With both classes non-empty, fewer than [2^48] data points and a
    binary64 target ratio strictly between 0 and 1, the sample counts of
    lines 87-101, computed in binary64, are integers between 0 and the size
    of their class; the run returns a non-empty list of that many items, at
    most [a + b], and the fraction of predicate-true items in it is within
    [1 / len(output)] of the target. *)
Theorem rebalancer_counts_and_ratio (data : list json) (r : Q) (g : rng)
    (less ge : list json) :
  foldM classify ([], []) data = OK (less, ge) →
  0 < length less → 0 < length ge →
  (Z.of_nat (length data) < 2 ^ 48)%Z →
  binary64 r → (0 < r)%Q → (r < 1)%Q →
  ∃ rl rg out g',
    sample_counts r (Z.of_nat (length less)) (Z.of_nat (length ge))
    = OK (rl, rg) ∧
    (0 ≤ rl ≤ Z.of_nat (length less))%Z ∧
    (0 ≤ rg ≤ Z.of_nat (length ge))%Z ∧
    downsample_dataset data r g = OK (out, g') ∧
    Z.of_nat (length out) = (rl + rg)%Z ∧
    0 < length out ≤ length less + length ge ∧
    final_less out = OK rl ∧
    (Qabs (inject_Z rl / inject_Z (Z.of_nat (length out)) - r)
     <= 1 / inject_Z (Z.of_nat (length out)))%Q.
Proof.
  intros Hc Ha Hb Hn Hbin Hr0 Hr1.
  destruct (classify_filter _ _ _ _ _ Hc) as [Hless Hge]. simpl in Hless, Hge.
  assert (Ha48 : (0 < Z.of_nat (length less) < 2 ^ 48)%Z).
  { pose proof (filter_length_le predicate_true data). rewrite <- Hless in *. lia. }
  assert (Hb48 : (0 ≤ Z.of_nat (length ge) < 2 ^ 48)%Z).
  { pose proof (filter_length_le false_class data). rewrite <- Hge in *. lia. }
  destruct (sample_counts_spec r (Z.of_nat (length less))
              (Z.of_nat (length ge)) Hbin Hr0 Hr1 Ha48 Hb48)
    as (L & rl & rg & _ & Hsc & Hrl & Hrg & _ & _ & Hratio).
  destruct Hratio as [Hpos Hclose]; [lia|].
  destruct (downsample_between data r g less ge rl rg)
    as (out & g' & less1 & ge1 & Hrun & P1 & P2 & P3 & Hfl); try done.
  { intros ->. simpl in Ha. lia. }
  assert (Hlen : Z.of_nat (length out) = (rl + rg)%Z).
  { rewrite P3, length_app, !length_take, (Permutation_length P1),
      (Permutation_length P2). lia. }
  exists rl, rg, out, g'. do 5 (split; [done|]).
  split; [lia|]. split; [done|]. by rewrite Hlen.
Qed.

(** C9.  An item without score fields (one missing is enough, so also both)
    is put in the false class, not in the true class and not dropped; it is
    in the output of every branch that keeps the false class whole: the
    early return on an empty true class, the return for a target ratio of 0,
    and the sampling branch when the [required_less] of line 87 is at most
    [total_less]. *)
Theorem rebalancer_keeps_unscored (data : list json) (r : Q) (g g' : rng)
    (out : list json) (item : json) (m : gmap string json) :
  downsample_dataset data r g = OK (out, g') →
  item ∈ data → item = JObj m →
  m !! "chosen_score" = None ∨ m !! "rejected_score" = None →
  ∃ less ge,
    foldM classify ([], []) data = OK (less, ge) ∧
    item ∈ ge ∧ (item ∉ less) ∧
    (less = [] → item ∈ out) ∧
    (less ≠ [] → (r <= 0)%Q → item ∈ out) ∧
    (less ≠ [] → (0 < r)%Q → (r < 1)%Q →
     ∃ required_less,
       required_less_count r (Z.of_nat (length ge)) = OK required_less ∧
       ((required_less ≤ Z.of_nat (length less))%Z → item ∈ out)).
Proof.
  intros Hrun Hin -> Hm.
  assert (Hf : false_class (JObj m) = true).
  { unfold false_class, is_less. by destruct Hm as [-> | ->];
      [|destruct (m !! "chosen_score")]. }
  destruct (foldM classify ([], []) data) as [[less ge]|e] eqn:Hc;
    [|by unfold downsample_dataset in Hrun; rewrite Hc in Hrun].
  destruct (classify_filter _ _ _ _ _ Hc) as [Hless Hge]. simpl in Hless, Hge.
  assert (Hige : JObj m ∈ ge).
  { rewrite Hge, list_elem_of_In, filter_In, <- list_elem_of_In. done. }
  exists less, ge. split; [done|]. split; [done|].
  destruct (downsample_early data r g less ge Hc) as (Hnone & Hone & Hzero).
  split; [|split; [|split]].
  - rewrite Hless, list_elem_of_In, filter_In.
    intros [_ Hp%predicate_true_is_less].
    apply false_class_is_less in Hf. congruence.
  - intros E. rewrite (Hnone E) in Hrun. by injection Hrun as <- _.
  - intros Hne Hr. rewrite (Hzero Hne Hr) in Hrun. by injection Hrun as <- _.
  - intros Hne Hr0 Hr1.
    destruct (downsample_sampling data r g g' out less ge Hc Hne Hr0 Hr1 Hrun)
      as (rl & rg & less1 & ge1 & Hsc & P1 & P2 & P3).
    assert (Hk : ∃ k, required_less_count r (Z.of_nat (length ge)) = OK k).
    { unfold sample_counts in Hsc.
      apply bind_OK_inv in Hsc as (k & Hk & _). by exists k. }
    destruct Hk as [k Hk]. exists k. split; [done|]. intros Hreq.
    rewrite (sample_counts_keep_false r _ _ k Hk Hreq) in Hsc.
    injection Hsc as _ <-.
    rewrite P3, elem_of_app. right.
    rewrite py_slice_to_take by lia.
    rewrite Nat2Z.id, <- (Permutation_length P2), firstn_all, P2. done.
Qed.

End Rebalancer.

Lemma counting_random_shuffle_perm (g : Z) (l : list json) :
  (@random_shuffle Z counting_random g l).1 ≡ₚ l.
Proof. simpl. apply reverse_Permutation. Qed.

Lemma rebalancer_extremes_witness :
  @downsample_dataset Z counting_random
    [scored_pair 1 2; scored_pair 5 3; unscored_pair "x" "y"] 0 7%Z
  = OK ([scored_pair 5 3; unscored_pair "x" "y"], 7%Z) ∧
  @downsample_dataset Z counting_random
    [scored_pair 1 2; scored_pair 5 3; unscored_pair "x" "y"] 1 7%Z
  = OK ([scored_pair 1 2], 7%Z).
Proof.
  destruct (@rebalancer_extremes Z counting_random
              [scored_pair 1 2; scored_pair 5 3; unscored_pair "x" "y"] 0 7%Z
              [scored_pair 1 2] [scored_pair 5 3; unscored_pair "x" "y"])
    as (_ & _ & Hzero & _); [reflexivity|].
  destruct (@rebalancer_extremes Z counting_random
              [scored_pair 1 2; scored_pair 5 3; unscored_pair "x" "y"] 1 7%Z
              [scored_pair 1 2] [scored_pair 5 3; unscored_pair "x" "y"])
    as (_ & _ & _ & Hone & _); [reflexivity|].
  split; [apply Hzero | apply Hone]; (discriminate || reflexivity).
Defined.

(** C2 as stated fails: with an empty true class the whole input is
    returned, which for a target ratio of 1 is not the (empty) true class
    and for a target ratio of 0 is not the false class when the input holds
    an item that is not a dictionary. *)
Lemma rebalancer_empty_true_class_returns_input :
  List.filter predicate_true [scored_pair 5 3] = [] ∧
  @downsample_dataset Z counting_random [scored_pair 5 3] 1 7%Z
  = OK ([scored_pair 5 3], 7%Z) ∧
  @downsample_dataset Z counting_random [scored_pair 5 3] 1 7%Z
  ≠ OK (List.filter predicate_true [scored_pair 5 3], 7%Z) ∧
  List.filter false_class [JNum 1; scored_pair 5 3] = [scored_pair 5 3] ∧
  @downsample_dataset Z counting_random [JNum 1; scored_pair 5 3] 0 7%Z
  = OK ([JNum 1; scored_pair 5 3], 7%Z).
Proof.
  split; [reflexivity|]. split; [reflexivity|].
  split; [|split; reflexivity].
  intros H. vm_compute in H. discriminate H.
Qed.

Lemma rebalancer_counts_and_ratio_witness :
  ∃ out g',
    @downsample_dataset Z counting_random imbalanced_data three_tenths 0%Z
    = OK (out, g') ∧
    Z.of_nat (length out) = (3 + 6)%Z ∧
    final_less out = OK 3%Z ∧
    (Qabs (inject_Z 3 / inject_Z (Z.of_nat (length out)) - three_tenths)
     <= 1 / inject_Z (Z.of_nat (length out)))%Q.
Proof.
  destruct (@rebalancer_counts_and_ratio Z counting_random
              counting_random_shuffle_perm imbalanced_data three_tenths 0%Z
              (replicate 3 (scored_pair 1 2))
              (replicate 10 (scored_pair 5 3)))
    as (rl & rg & out & g' & Hsc & _ & _ & Hrun & Hlen & _ & Hfl & Hclose).
  - reflexivity.
  - simpl. lia.
  - simpl. lia.
  - reflexivity.
  - exists three_tenths. split; reflexivity.
  - reflexivity.
  - reflexivity.
  - assert (E : OK (rl, rg) = OK (3, 6)%Z) by (rewrite <- Hsc; reflexivity).
    injection E as -> ->. exists out, g'.
    exact (conj Hrun (conj Hlen (conj Hfl Hclose))).
Defined.

Lemma rebalancer_keeps_unscored_witness :
  ∃ less ge,
    foldM classify ([], []) [unscored_pair "x" "y"; scored_pair 1 2]
    = OK (less, ge) ∧
    unscored_pair "x" "y" ∈ ge ∧ (unscored_pair "x" "y" ∉ less) ∧
    (less = [] →
     unscored_pair "x" "y" ∈ [unscored_pair "x" "y"; scored_pair 1 2]) ∧
    (less ≠ [] → (1 # 2 <= 0)%Q →
     unscored_pair "x" "y" ∈ [unscored_pair "x" "y"; scored_pair 1 2]) ∧
    (less ≠ [] → (0 < 1 # 2)%Q → (1 # 2 < 1)%Q →
     ∃ required_less,
       required_less_count (1 # 2) (Z.of_nat (length ge)) = OK required_less ∧
       ((required_less ≤ Z.of_nat (length less))%Z →
        unscored_pair "x" "y" ∈ [unscored_pair "x" "y"; scored_pair 1 2])).
Proof.
  apply (@rebalancer_keeps_unscored Z counting_random
           counting_random_shuffle_perm
           [unscored_pair "x" "y"; scored_pair 1 2] (1 # 2) 0%Z 3%Z
           [unscored_pair "x" "y"; scored_pair 1 2]
           (unscored_pair "x" "y")
           {[ "chosen" := JStr "x"; "rejected" := JStr "y" ]}).
  - reflexivity.
  - apply list_elem_of_here.
  - reflexivity.
  - left. reflexivity.
Defined.

(** ** Canonicalizer, enforce mode *)

(** The dictionary [flip_data_point] leaves when it flips. *)
Lemma flip_data_point_flips (m : gmap string json) (c r : json) :
  m !! "chosen_score" = Some c → m !! "rejected_score" = Some r →
  py_lt c r = OK true →
  ∃ m', flip_data_point m = OK m' ∧
    scores_exchanged m m' ∧
    (is_Some (m !! "chosen") → is_Some (m !! "rejected") →
     texts_exchanged m m') ∧
    (m !! "chosen" = None ∨ m !! "rejected" = None → texts_kept m m') ∧
    same_elsewhere ["chosen"; "rejected"; "chosen_score"; "rejected_score"]
                   m m'.
Proof.
  intros Hc Hr Hlt. unfold flip_data_point. rewrite Hc, Hr. simpl.
  rewrite Hlt. simpl.
  rewrite !lookup_insert_ne by done.
  unfold scores_exchanged, texts_exchanged, texts_kept, same_elsewhere.
  destruct (m !! "chosen") as [ch|] eqn:Hch,
           (m !! "rejected") as [rj|] eqn:Hrj;
    (eexists; split; [reflexivity|]).
  all: repeat split.
  all: try (by simplify_map_eq).
  all: try (by intros [? [=]]).
  all: try (by intros _ [? [=]]).
  all: try match goal with H : _ ∨ _ |- _ => by destruct H as [[=]|[=]] end.
  all: intros k Hk;
    assert (k ≠ "chosen" ∧ k ≠ "rejected" ∧ k ≠ "chosen_score" ∧
            k ≠ "rejected_score") as (? & ? & ? & ?)
      by (repeat split; intros ->; apply Hk; set_solver);
    by rewrite !lookup_insert_ne.
Qed.

Lemma flip_data_point_keeps (m : gmap string json) (c r : json) :
  m !! "chosen_score" = Some c → m !! "rejected_score" = Some r →
  py_lt c r = OK false → flip_data_point m = OK m.
Proof.
  intros Hc Hr Hlt. unfold flip_data_point. by rewrite Hc, Hr, Hlt.
Qed.

Lemma py_lt_not_none a b t : py_lt a b = OK t →
  py_is_none a = false ∧ py_is_none b = false.
Proof. by destruct a, b. Qed.

Lemma enforce_step_inv done n x st :
  enforce_step (done, n) x = OK st →
  ∃ x' k, st = (done ++ [x'], (n + k)%Z) ∧
          enforce_step ([], 0%Z) x = OK ([x'], k).
Proof.
  unfold enforce_step. destruct x as [| | | | |m];
    try (intros [= <-]; eexists _, 0%Z; by rewrite Z.add_0_r).
  destruct (_ || _).
  { intros [= <-]; eexists _, 0%Z; by rewrite Z.add_0_r. }
  destruct (py_lt _ _) as [[]|]; simpl; [| |done].
  - destruct (flip_data_point m) as [m'|]; simpl; [|done].
    intros [= <-]. by eexists _, 1%Z.
  - intros [= <-]; eexists _, 0%Z; by rewrite Z.add_0_r.
Qed.

Lemma enforce_counting_Forall2 data done n out n' :
  foldM enforce_step (done, n) data = OK (out, n') →
  ∃ new, out = done ++ new ∧ Forall2 enforced data new.
Proof.
  revert done n. induction data as [|x data IH]; intros done n; simpl.
  - intros [= <- <-]. exists []. by rewrite app_nil_r.
  - intros (st & Hst & Hrest)%bind_OK_inv.
    apply enforce_step_inv in Hst as (x' & k & -> & Hx).
    apply IH in Hrest as (new & -> & Hnew).
    exists (x' :: new). rewrite <- (assoc_L (++)). split; [done|].
    constructor; [by exists k | done].
Qed.

Lemma enforce_Forall2 data out :
  enforce data = OK out → Forall2 enforced data out.
Proof.
  unfold enforce, enforce_counting.
  destruct (foldM enforce_step ([], 0%Z) data) as [[out' n']|] eqn:H; [|done].
  intros [= <-]. by apply enforce_counting_Forall2 in H as (new & -> & Hnew).
Qed.

(** An item enforce mode has visited is left alone by a second visit. *)
Lemma enforced_fixed x x' done n :
  enforced x x' → enforce_step (done, n) x' = OK (done ++ [x'], n).
Proof.
  intros [k Hx]. revert Hx. unfold enforce_step.
  destruct x as [| | | | |m]; try (by intros [= <- _]).
  destruct (_ || _) eqn:Hnone.
  { intros [= <- _]. by rewrite Hnone. }
  destruct (py_lt _ _) as [[]|] eqn:Hlt; simpl; [| |done].
  - destruct (m !! "chosen_score") as [c|] eqn:Hc; [|done].
    destruct (m !! "rejected_score") as [r|] eqn:Hr; [|by destruct c].
    simpl in Hlt.
    destruct (flip_data_point_flips m c r Hc Hr Hlt)
      as (m' & -> & [Hc' Hr'] & _). simpl.
    intros [= <- _]. rewrite Hc', Hr', Hr, Hc. simpl.
    destruct (py_lt_not_none _ _ _ Hlt) as [-> ->]. simpl.
    by rewrite (py_lt_asym _ _ Hlt).
  - intros [= <- _]. by rewrite Hnone, Hlt.
Qed.

Lemma enforce_fixed_list out done n :
  Forall (λ x', ∀ done n, enforce_step (done, n) x' = OK (done ++ [x'], n)) out →
  foldM enforce_step (done, n) out = OK (done ++ out, n).
Proof.
  intros H. revert done.
  induction H as [|x out Hx _ IH]; intros done; cbn [foldM].
  - by rewrite app_nil_r.
  - rewrite Hx. cbn [mbind outcome_bind]. rewrite IH.
    by rewrite <- (assoc_L (++)).
Qed.

(** Enforce mode returns whenever the scores it compares are comparable. *)
Lemma enforce_returns data :
  Forall (λ item, ∃ b, is_less item = OK b) data →
  ∃ out, enforce data = OK out.
Proof.
  intros H. unfold enforce, enforce_counting.
  generalize (@nil json) as done, 0%Z as n.
  induction H as [|x data [b Hb] _ IH]; intros done n; cbn [foldM];
    [by eexists|].
  assert (∃ st, enforce_step (done, n) x = OK st) as [[done' n'] ->].
  { unfold enforce_step. destruct x as [| | | | |m]; try by eexists.
    destruct (_ || _) eqn:Hnone; [by eexists|].
    simpl in Hb.
    destruct (m !! "chosen_score") as [c|] eqn:Hc; [|done].
    destruct (m !! "rejected_score") as [r|] eqn:Hr; [|by destruct c].
    simpl. rewrite Hb. simpl. destruct b; [|by eexists].
    destruct (flip_data_point_flips m c r) as (m' & -> & _); try done.
    by eexists. }
  cbn [mbind outcome_bind]. apply IH.
Qed.

(** C4, as the code has it.  For a pair whose [chosen_score] is strictly
    less than its [rejected_score], enforce mode exchanges the two scores
    and, when both are present, the [chosen] and [rejected] values; every
    other field keeps its value, [chosen_source] and [rejected_source]
    included; afterwards the chosen score is not less than the rejected
    one.  A pair already in order is left as it is. *)
Theorem enforce_exchanges_scores_and_texts (data out : list json) (i : nat)
    (m : gmap string json) (c r : json) :
  enforce data = OK out → data !! i = Some (JObj m) →
  m !! "chosen_score" = Some c → m !! "rejected_score" = Some r →
  (py_lt c r = OK true →
   ∃ m', out !! i = Some (JObj m') ∧
     scores_exchanged m m' ∧
     (is_Some (m !! "chosen") → is_Some (m !! "rejected") →
      texts_exchanged m m') ∧
     (m !! "chosen" = None ∨ m !! "rejected" = None → texts_kept m m') ∧
     same_elsewhere ["chosen"; "rejected"; "chosen_score"; "rejected_score"]
                    m m' ∧
     m' !! "chosen_source" = m !! "chosen_source" ∧
     m' !! "rejected_source" = m !! "rejected_source" ∧
     py_lt r c = OK false ∧
     (∀ x y, c = JNum x → r = JNum y → (x <= y)%Q)) ∧
  (py_lt c r = OK false → out !! i = Some (JObj m)).
Proof.
  intros Hrun Hi Hc Hr.
  apply enforce_Forall2 in Hrun.
  destruct (Forall2_lookup_l _ _ _ _ _ Hrun Hi) as (x' & Hx' & [k Hstep]).
  unfold enforce_step in Hstep. rewrite Hc, Hr in Hstep. simpl in Hstep.
  split; intros Hlt; destruct (py_lt_not_none _ _ _ Hlt) as [Hnc Hnr];
    rewrite Hnc, Hnr, Hlt in Hstep; simpl in Hstep.
  - destruct (flip_data_point_flips m c r Hc Hr Hlt)
      as (m' & Hflip & Hs & Ht & Hk & He).
    rewrite Hflip in Hstep. injection Hstep as <- _.
    exists m'. do 5 (split; [done|]).
    split; [|split; [|split]].
    + apply He. compute_done.
    + apply He. compute_done.
    + by apply py_lt_asym.
    + intros x y -> ->. injection Hlt as Hlt.
      apply Qlt_le_weak. by apply Qltb_lt.
  - by injection Hstep as <- _.
Qed.

Lemma enforce_exchanges_scores_and_texts_witness :
  ∃ m', [JObj (dpo_entry (JStr "P") (JStr "B") (JStr "A") (JNum 5) (JNum 3)
                 (JStr "model_a") (JStr "model_b"))] !! 0
        = Some (JObj m') ∧
    scores_exchanged sourced_pair m' ∧
    m' !! "chosen_source" = sourced_pair !! "chosen_source".
Proof.
  destruct (enforce_exchanges_scores_and_texts
              [JObj sourced_pair]
              [JObj (dpo_entry (JStr "P") (JStr "B") (JStr "A") (JNum 5)
                       (JNum 3) (JStr "model_a") (JStr "model_b"))]
              0 sourced_pair (JNum 3) (JNum 5))
    as [Hflip _].
  - reflexivity.
  - reflexivity.
  - reflexivity.
  - reflexivity.
  - destruct Hflip as (m' & H0 & Hs & _ & _ & _ & Hsrc & _); [reflexivity|].
    exists m'. split; [exact H0|]. split; [exact Hs | exact Hsrc].
Defined.

(** C4 as stated fails: the source fields are not exchanged, so after the
    flip [chosen_source] names the model of the text now under
    [rejected]. *)
Lemma enforce_leaves_sources :
  enforce [JObj sourced_pair]
  = OK [JObj (dpo_entry (JStr "P") (JStr "B") (JStr "A") (JNum 5) (JNum 3)
                (JStr "model_a") (JStr "model_b"))] ∧
  sourced_pair !! "rejected_source" = Some (JStr "model_b") ∧
  dpo_entry (JStr "P") (JStr "B") (JStr "A") (JNum 5) (JNum 3)
    (JStr "model_a") (JStr "model_b") !! "chosen_source"
  = Some (JStr "model_a") ∧
  dpo_entry (JStr "P") (JStr "B") (JStr "A") (JNum 5) (JNum 3)
    (JStr "model_a") (JStr "model_b") !! "chosen_source"
  ≠ sourced_pair !! "rejected_source".
Proof.
  split; [reflexivity|].
  split; [reflexivity|]. split; [reflexivity|].
  intros H. vm_compute in H. discriminate H.
Qed.

(** C5.  Enforce mode returns on every collection whose scores are
    comparable; whenever it returns, a second application returns the same
    list, and in that list no pair with two score fields has its
    [chosen_score] less than its [rejected_score]. *)
Theorem enforce_idempotent (data : list json) :
  (Forall (λ item, ∃ b, is_less item = OK b) data →
   ∃ out, enforce data = OK out) ∧
  (∀ out, enforce data = OK out →
     enforce out = OK out ∧
     ∀ m c r,
       JObj m ∈ out →
       m !! "chosen_score" = Some c → m !! "rejected_score" = Some r →
       (py_is_none c = false → py_is_none r = false →
        py_lt c r = OK false) ∧
       (∀ x y, c = JNum x → r = JNum y → (y <= x)%Q)).
Proof.
  split; [apply enforce_returns|].
  intros out Hrun. apply enforce_Forall2 in Hrun.
  assert (Hfix : Forall (λ x', ∀ done n,
            enforce_step (done, n) x' = OK (done ++ [x'], n)) out).
  { apply Forall_forall. intros x' Hx'.
    apply list_elem_of_lookup in Hx' as [i Hi].
    destruct (Forall2_lookup_r _ _ _ _ _ Hrun Hi) as (x & _ & Hx).
    intros done n. by apply (enforced_fixed x). }
  split.
  - unfold enforce, enforce_counting. by rewrite enforce_fixed_list.
  - intros m c r Hm Hc Hr.
    rewrite Forall_forall in Hfix. specialize (Hfix _ Hm [] 0%Z).
    unfold enforce_step in Hfix. rewrite Hc, Hr in Hfix. simpl in Hfix.
    assert (Hord : py_is_none c = false → py_is_none r = false →
                   py_lt c r = OK false).
    { intros Hnc Hnr. rewrite Hnc, Hnr in Hfix. simpl in Hfix.
      destruct (py_lt c r) as [[]|]; [|done|done].
      by destruct (flip_data_point m). }
    split; [done|]. intros x y -> ->.
    specialize (Hord eq_refl eq_refl). injection Hord as Hord.
    by apply Qltb_ge.
Qed.

Lemma enforce_idempotent_witness :
  (∃ out, enforce [JObj sourced_pair; scored_pair 5 3; unscored_pair "x" "y"]
          = OK out) ∧
  enforce
    [JObj (dpo_entry (JStr "P") (JStr "B") (JStr "A") (JNum 5) (JNum 3)
             (JStr "model_a") (JStr "model_b"));
     scored_pair 5 3; unscored_pair "x" "y"]
  = OK [JObj (dpo_entry (JStr "P") (JStr "B") (JStr "A") (JNum 5) (JNum 3)
                (JStr "model_a") (JStr "model_b"));
        scored_pair 5 3; unscored_pair "x" "y"].
Proof.
  destruct (enforce_idempotent
              [JObj sourced_pair; scored_pair 5 3; unscored_pair "x" "y"])
    as [Hret Hidem].
  split.
  - apply Hret. repeat constructor; eexists; reflexivity.
  - apply (Hidem
      [JObj (dpo_entry (JStr "P") (JStr "B") (JStr "A") (JNum 5) (JNum 3)
               (JStr "model_a") (JStr "model_b"));
       scored_pair 5 3; unscored_pair "x" "y"]).
    reflexivity.
Defined.

(** ** Canonicalizer, noise injection *)

Section Noise.
Context {rng : Type} `{!PyRandom rng}.

Lemma flip_step_inv flip_ratio fd n (g : rng) item st :
  flip_step flip_ratio (fd, n, g) item = OK st →
  ∃ new_item k,
    st = (fd ++ [new_item], (n + k)%Z, (random_random g).2) ∧
    if Qltb (random_random g).1 flip_ratio
    then noise_flipped item new_item ∧ k = 1%Z
    else new_item = item ∧ k = 0%Z.
Proof.
  unfold flip_step. destruct (random_random g) as [u g1]. simpl.
  destruct (Qltb u flip_ratio).
  - unfold dict_getitem.
    destruct (item !! "rejected") as [r|] eqn:Hr; [|done].
    destruct (item !! "chosen") as [c|] eqn:Hc; [|done].
    simpl. intros [= <-]. eexists _, 1%Z. split; [done|].
    split; [|done]. by exists c, r.
  - intros [= <-]. exists item, 0%Z. by rewrite Z.add_0_r.
Qed.

Lemma noise_flipped_frame item new_item :
  noise_flipped item new_item →
  new_item !! "chosen" = item !! "rejected" ∧
  new_item !! "rejected" = item !! "chosen" ∧
  ∀ k, k ≠ "chosen" → k ≠ "rejected" → new_item !! k = item !! k.
Proof.
  intros (c & r & Hc & Hr & ->). split; [|split].
  - by rewrite lookup_insert_ne, lookup_insert_eq.
  - by rewrite lookup_insert_eq.
  - intros k H1 H2. by rewrite !lookup_insert_ne.
Qed.

Lemma flip_loop_Forall2 flip_ratio data fd n (g : rng) out n' g' :
  foldM (flip_step flip_ratio) (fd, n, g) data = OK (out, n', g') →
  ∃ new, out = fd ++ new ∧
    Forall2 (λ item new_item, new_item = item ∨ noise_flipped item new_item)
            data new.
Proof.
  revert fd n g. induction data as [|item data IH]; intros fd n g; simpl.
  - intros [= <- <- <-]. exists []. by rewrite app_nil_r.
  - intros (st & Hst & Hrest)%bind_OK_inv.
    apply flip_step_inv in Hst as (new_item & k & -> & Hdec).
    apply IH in Hrest as (new & -> & Hnew).
    exists (new_item :: new). rewrite <- (assoc_L (++)). split; [done|].
    constructor; [|done].
    destruct (Qltb _ _); [right | left]; tauto.
Qed.

(** C10.  Whatever the flip decision, the new item differs from the input
    item at most in ["chosen"] and ["rejected"], which a flip exchanges:
    every other key, the two scores, the two sources and the conversations
    included, keeps its value, so after a flip ["chosen_score"] is still the
    score of the text now under ["rejected"].  This holds of the loop body
    and of every position of the list [flip_chosen_rejected] returns. *)
Theorem noise_flip_frame (flip_ratio : Q) (item : gmap string json) :
  (∀ fd n (g : rng) st,
     flip_step flip_ratio (fd, n, g) item = OK st →
     ∃ new_item,
       st.1.1 = fd ++ [new_item] ∧
       (if Qltb (random_random g).1 flip_ratio
        then new_item !! "chosen" = item !! "rejected" ∧
             new_item !! "rejected" = item !! "chosen"
        else new_item = item) ∧
       (∀ k, k ≠ "chosen" → k ≠ "rejected" → new_item !! k = item !! k) ∧
       new_item !! "chosen_score" = item !! "chosen_score" ∧
       new_item !! "rejected_score" = item !! "rejected_score" ∧
       new_item !! "chosen_source" = item !! "chosen_source" ∧
       new_item !! "rejected_source" = item !! "rejected_source" ∧
       new_item !! "conversations" = item !! "conversations") ∧
  (∀ data seed (g g' : rng) out i new_item,
     flip_chosen_rejected data flip_ratio seed g = OK (out, g') →
     data !! i = Some item → out !! i = Some new_item →
     length out = length data ∧
     (new_item = item ∨
      new_item !! "chosen" = item !! "rejected" ∧
      new_item !! "rejected" = item !! "chosen") ∧
     (∀ k, k ≠ "chosen" → k ≠ "rejected" → new_item !! k = item !! k)).
Proof.
  split.
  - intros fd n g st (new_item & k & -> & Hdec)%flip_step_inv.
    exists new_item. split; [done|].
    assert (Hframe : ∀ k, k ≠ "chosen" → k ≠ "rejected" →
                          new_item !! k = item !! k).
    { destruct (Qltb _ _).
      - destruct Hdec as [Hf%noise_flipped_frame _]. apply Hf.
      - by destruct Hdec as [-> _]. }
    split.
    { destruct (Qltb _ _).
      - destruct Hdec as [Hf%noise_flipped_frame _]. split; apply Hf.
      - by destruct Hdec. }
    split; [done|]. repeat split; by apply Hframe.
  - intros data seed g g' out i new_item Hrun Hi Ho.
    unfold flip_chosen_rejected in Hrun.
    apply bind_OK_inv in Hrun as ([[fdata n] g1] & Hloop & Hret).
    destruct (Z.of_nat (length data) =? 0)%Z; [done|].
    injection Hret as <- <-.
    apply flip_loop_Forall2 in Hloop as (new & -> & Hall). simpl in *.
    split; [symmetry; by eapply Forall2_length|].
    destruct (Forall2_lookup_l _ _ _ _ _ Hall Hi) as (y & Hy & Hrel).
    rewrite Ho in Hy. injection Hy as <-.
    destruct Hrel as [->|Hf%noise_flipped_frame].
    + split; [by left | done].
    + split; [right; split; apply Hf | apply Hf].
Qed.

End Noise.

Lemma noise_flip_frame_witness :
  ∃ new_item : gmap string json,
    new_item !! "chosen" = sourced_pair !! "rejected" ∧
    new_item !! "rejected" = sourced_pair !! "chosen" ∧
    new_item !! "chosen_score" = Some (JNum 3) ∧
    new_item !! "chosen_source" = Some (JStr "model_a").
Proof.
  destruct (@noise_flip_frame Z counting_random (1 # 2) sourced_pair)
    as [Hstep _].
  destruct (Hstep [] 0%Z 0%Z
              ([<["rejected" := JObj {[ "from" := JStr "gpt";
                                        "value" := JStr "A" ]}]>
                  (<["chosen" := JObj {[ "from" := JStr "gpt";
                                         "value" := JStr "B" ]}]>
                     sourced_pair)], 1%Z, 1%Z))
    as (new_item & _ & Hdec & _ & Hcs & _ & Hsrc & _).
  - reflexivity.
  - exists new_item. simpl in Hdec. destruct Hdec as [Hc Hr].
    split; [exact Hc|]. split; [exact Hr|].
    split; [rewrite Hcs | rewrite Hsrc]; reflexivity.
Defined.

(** ** FormatAdapter *)

Lemma first_human_none convs :
  no_human_turn convs → first_human convs = OK (JStr "").
Proof.
  induction 1 as [|conv convs (m & -> & Hfrom) _ IH]; simpl; [done|].
  destruct (m !! "from") as [[| | |t| |]|] eqn:Hf; simpl; try done.
  destruct (String.eqb_spec t "human") as [->|_]; [done | exact IH].
Qed.

Lemma sft_step_inv sft_data item acc' :
  sft_step sft_data item = OK acc' →
  ∃ instruction output, acc' = sft_data ++ [sft_entry instruction output].
Proof.
  unfold sft_step.
  intros (ins & _ & (out & _ & [= <-])%bind_OK_inv)%bind_OK_inv. eauto.
Qed.

Lemma convert_to_sft_length data acc out :
  foldM sft_step acc data = OK out → length out = length acc + length data.
Proof.
  revert acc. induction data as [|item data IH]; intros acc; simpl.
  - intros [= <-]. lia.
  - intros (acc1 & (ins & o & ->)%sft_step_inv & Hrest%IH)%bind_OK_inv.
    rewrite Hrest, length_app. simpl. lia.
Qed.

(** C7, as the code has it.  [convert_to_sft] never skips a pair: each
    step that returns appends exactly one record, so the output has one
    record per input pair; the instruction is the empty string when the
    conversations hold no human turn and the output is the empty string
    when ["chosen"] is absent.  [convert_dpo_to_sft] skips a pair when its
    ["conversations"] is absent or empty, and only then: on any other pair
    a step that returns has appended exactly one record.  When
    ["conversations"] is a list whose first turn is a dictionary the step
    returns, and the record has the value of that turn as instruction,
    whatever the origin of the turn, and as output the value of ["chosen"]
    when that is a dictionary, [str(chosen)] when it is another value and
    the empty string when ["chosen"] is absent.  When the first turn is not
    a dictionary the step raises [AttributeError]. *)
Theorem adapter_skip_policy (py_str : json → string)
    (item : gmap string json) (sft_data : list (gmap string json)) :
  (∀ data out, convert_to_sft data = OK out → length out = length data) ∧
  (∀ acc', sft_step sft_data item = OK acc' →
     ∃ instruction output,
       acc' = sft_data ++ [sft_entry instruction output] ∧
       (item !! "chosen" = None → output = JStr "") ∧
       (∀ convs, item !! "conversations" = Some (JArr convs) →
                 no_human_turn convs → instruction = JStr "")) ∧
  (∀ convs, item !! "conversations" = Some (JArr convs) →
            no_human_turn convs → item !! "chosen" = None →
     sft_step sft_data item
     = OK (sft_data ++ [sft_entry (JStr "") (JStr "")])) ∧
  (py_truthy (default (JArr []) (item !! "conversations")) = false →
     dpo_to_sft_step py_str sft_data (JObj item) = OK sft_data) ∧
  (py_truthy (default (JArr []) (item !! "conversations")) = true →
     ∀ acc', dpo_to_sft_step py_str sft_data (JObj item) = OK acc' →
       ∃ instruction output,
         acc' = sft_data ++ [sft_entry instruction output]) ∧
  (∀ first rest,
     item !! "conversations" = Some (JArr (JObj first :: rest)) →
     dpo_to_sft_step py_str sft_data (JObj item)
     = OK (sft_data ++
             [sft_entry (default (JStr "") (first !! "value"))
                (match item !! "chosen" with
                 | None => JStr ""
                 | Some (JObj chosen) => default (JStr "") (chosen !! "value")
                 | Some chosen => JStr (py_str chosen)
                 end)])) ∧
  (∀ first rest,
     item !! "conversations" = Some (JArr (first :: rest)) →
     (∀ m, first ≠ JObj m) →
     dpo_to_sft_step py_str sft_data (JObj item) = Raise AttributeError).
Proof.
  assert (Hnone : ∀ convs, item !! "conversations" = Some (JArr convs) →
            no_human_turn convs →
            (n ← py_len (JArr convs);
             if (0 <? n)%nat then py_iter (JArr convs) ≫= first_human
             else OK (JStr "")) = OK (JStr "")).
  { intros convs Hc Hno. simpl. destruct (0 <? length convs)%nat; [|done].
    by apply first_human_none. }
  split; [|split; [|split; [|split; [|split; [|split]]]]].
  - intros data out H%convert_to_sft_length. by rewrite H.
  - unfold sft_step.
    intros acc' (ins & Hins & (out & Hout & [= <-])%bind_OK_inv)%bind_OK_inv.
    exists ins, out. split; [done|]. split.
    + intros Hch. rewrite Hch in Hout. by injection Hout.
    + intros convs Hc Hno. rewrite Hc, (Hnone convs Hc Hno) in Hins.
      by injection Hins.
  - intros convs Hc Hno Hch. unfold sft_step.
    rewrite Hc, (Hnone convs Hc Hno), Hch. done.
  - intros Hf. unfold dpo_to_sft_step. simpl. by rewrite Hf.
  - intros Ht acc'. unfold dpo_to_sft_step. simpl. rewrite Ht. simpl.
    destruct (py_index _ 0) as [first|]; simpl; [|done].
    destruct (py_get first "value" (JStr "")) as [ins|]; simpl; [|done].
    intros [= <-]. eauto.
  - intros first rest Hc. unfold dpo_to_sft_step. simpl. rewrite Hc. simpl.
    by destruct (item !! "chosen") as [[| | | | |chosen]|].
  - intros first rest Hc Hfirst. unfold dpo_to_sft_step. simpl.
    rewrite Hc. simpl. destruct first; try done. by destruct (Hfirst m).
Qed.

Lemma adapter_skip_policy_witness :
  length [sft_entry (JStr "") (JStr "")] = length [gpt_only_pair] ∧
  sft_step [] gpt_only_pair = OK ([] ++ [sft_entry (JStr "") (JStr "")]) ∧
  dpo_to_sft_step (λ _, "") [] (JObj ∅) = OK [] ∧
  dpo_to_sft_step (λ _, "") [] (JObj gpt_only_pair)
  = OK ([] ++ [sft_entry (JStr "hi") (JStr "")]) ∧
  dpo_to_sft_step (λ _, "") []
    (JObj (human_pair "prompt" "good" "bad"))
  = OK ([] ++ [sft_entry (JStr "prompt") (JStr "good")]) ∧
  dpo_to_sft_step (λ _, "") [] (JObj {[ "conversations" := JArr [JStr "hi"] ]})
  = Raise AttributeError.
Proof.
  destruct (adapter_skip_policy (λ _, "") gpt_only_pair [])
    as (Hlen & _ & Hsft & _ & _ & Hdpo & _).
  destruct (adapter_skip_policy (λ _, "") ∅ []) as (_ & _ & _ & Hskip & _).
  destruct (adapter_skip_policy (λ _, "") (human_pair "prompt" "good" "bad") [])
    as (_ & _ & _ & _ & _ & Hpair & _).
  destruct (adapter_skip_policy (λ _, "")
              {[ "conversations" := JArr [JStr "hi"] ]} [])
    as (_ & _ & _ & _ & _ & _ & Hraise).
  split; [|split; [|split; [|split; [|split]]]].
  - apply Hlen. reflexivity.
  - apply (Hsft [JObj {[ "from" := JStr "gpt"; "value" := JStr "hi" ]}]).
    + reflexivity.
    + repeat constructor. eexists. split; [reflexivity|]. discriminate.
    + reflexivity.
  - apply Hskip. reflexivity.
  - rewrite (Hdpo {[ "from" := JStr "gpt"; "value" := JStr "hi" ]} []);
      reflexivity.
  - rewrite (Hpair {[ "from" := JStr "human"; "value" := JStr "prompt" ]} []);
      reflexivity.
  - apply (Hraise (JStr "hi") []); [reflexivity | discriminate].
Defined.

(** C7 as stated fails: a pair with no human turn and no chosen field
    yields one record in both adapters. *)
Lemma adapters_do_not_skip :
  no_human_turn [JObj {[ "from" := JStr "gpt"; "value" := JStr "hi" ]}] ∧
  gpt_only_pair !! "chosen" = None ∧
  convert_to_sft [gpt_only_pair] = OK [sft_entry (JStr "") (JStr "")] ∧
  convert_dpo_to_sft (λ _, "") [JObj gpt_only_pair]
  = OK [sft_entry (JStr "hi") (JStr "")].
Proof.
  split; [|split; [|split]]; try reflexivity.
  repeat constructor. eexists. split; [reflexivity|]. discriminate.
Qed.

(** * Further properties of the tools *)

(** A loop raises as soon as its body raises on one element in every
    state. *)
Lemma foldM_raises {S A} (body : S → A → outcome S) (x : A) (l : list A) s :
  x ∈ l → (∀ s, ∃ e, body s x = Raise e) → ∃ e, foldM body s l = Raise e.
Proof.
  intros Hin Hx. revert s. induction l as [|y l IH]; intros s.
  - by apply elem_of_nil in Hin.
  - simpl. apply elem_of_cons in Hin as [<-|Hin].
    + destruct (Hx s) as [e ->]. by exists e.
    + destruct (body s y) as [s'|e]; [by apply IH | by exists e].
Qed.

(** ** ReproducibleSplitter *)

Lemma py_slice_split {A} (l : list A) (n : Z) :
  py_slice_to l n ++ py_slice_from l n = l.
Proof.
  unfold py_slice_to, py_slice_from. destruct (0 <=? n)%Z; apply take_drop.
Qed.

Section Splitter.
Context {rng : Type} `{!PyRandom rng}.
Hypothesis shuffle_perm : ∀ (g : rng) (l : list json), (random_shuffle g l).1 ≡ₚ l.

Lemma split_train_test_perm dpo_data train_ratio train test :
  split_train_test dpo_data train_ratio = OK (train, test) →
  train ++ test ≡ₚ dpo_data.
Proof.
  unfold split_train_test.
  pose proof (shuffle_perm (random_seed 42) dpo_data) as P.
  destruct (random_shuffle (random_seed 42) dpo_data) as [l g]. simpl in P.
  intros (n & _ & (k & _ & [= <- <-])%bind_OK_inv)%bind_OK_inv.
  by rewrite py_slice_split.
Qed.

(** X1.  The train and test lists together hold exactly the pairs the
    expansion produced, each as often as it was produced, whatever the
    train ratio, also one outside of [0, 1]. *)
Theorem split_loses_nothing (comparison_data : list json) (train_ratio : Q)
    (train test : list json) :
  convert_to_dpo_format comparison_data train_ratio = OK (train, test) →
  ∃ dpo_data,
    convert_to_dpo_pairs comparison_data = OK dpo_data ∧
    train ++ test ≡ₚ dpo_data ∧
    length train + length test = length dpo_data.
Proof.
  unfold convert_to_dpo_format.
  intros (dpo_data & Hrun & Hsplit)%bind_OK_inv.
  exists dpo_data. split; [done|].
  pose proof (split_train_test_perm _ _ _ _ Hsplit) as P.
  split; [done|].
  by rewrite <- (Permutation_length P), length_app.
Qed.

(** X2.  For a train ratio in [0, 1] and fewer than [2^53] pairs the split
    returns; the train list has [int(len(dpo_data) * train_ratio)] pairs,
    the product being rounded to binary64 before it is truncated: at most
    [len * ratio * (1 + 2^-53)] and more than
    [len * ratio * (1 - 2^-53) - 1]; the test list has the others. *)
Theorem split_sizes (dpo_data : list json) (train_ratio : Q) :
  (0 <= train_ratio)%Q → (train_ratio <= 1)%Q →
  (Z.of_nat (length dpo_data) < 2 ^ 53)%Z →
  ∃ train test,
    split_train_test dpo_data train_ratio = OK (train, test) ∧
    length train + length test = length dpo_data ∧
    (inject_Z (Z.of_nat (length dpo_data)) * train_ratio * (1 - pow2 (-53)) - 1
     < inject_Z (Z.of_nat (length train)))%Q ∧
    (inject_Z (Z.of_nat (length train))
     <= inject_Z (Z.of_nat (length dpo_data)) * train_ratio
        * (1 + pow2 (-53)))%Q.
Proof.
  intros H0 H1 Hn. unfold split_train_test.
  pose proof (shuffle_perm (random_seed 42) dpo_data) as P.
  destruct (random_shuffle (random_seed 42) dpo_data) as [l g]. cbn [fst] in P.
  apply Permutation_length in P. rewrite <- P in *. clear P.
  set (n := Z.of_nat (length l)) in *.
  destruct (float_of_int_exact n) as (N & HN & EN); [lia|].
  rewrite HN. cbn [mbind outcome_bind float_mul].
  pose proof (inject_Z_nonneg n ltac:(lia)) as Hn0.
  assert (EP : (N * train_ratio == inject_Z n * train_ratio)%Q) by (by rewrite EN).
  assert (Hp0 : (0 <= inject_Z n * train_ratio)%Q)
    by (apply Qmult_le_0_compat; lra).
  assert (Hpn : (inject_Z n * train_ratio <= inject_Z n)%Q).
  { rewrite Qmult_comm. apply Qmul_le_1; lra. }
  destruct (round64_spec (N * train_ratio) 53)
    as (y & Hy & Hy0 & _ & _ & Hyle & _ & Hyint & _ & Hyn).
  { by rewrite EP. }
  { lia. }
  { rewrite EP, pow2_int by lia. apply Qle_trans with (inject_Z n); [done|].
    rewrite <- Zle_Qle. lia. }
  rewrite Hy. cbn [int_of_float mbind outcome_bind].
  destruct (py_int_bounds y Hy0) as (Hk0 & Hk1 & Hk2).
  set (k := py_int y) in *.
  assert (Hyn' : (y <= inject_Z n)%Q).
  { apply Hyint; [lia|]. by rewrite EP. }
  assert (Hkn : (k ≤ n)%Z) by (rewrite Zle_Qle; lra).
  eexists _, _. split; [done|].
  unfold py_slice_to, py_slice_from. destruct (Z.leb_spec 0 k); [|lia].
  rewrite length_take, length_drop. split; [lia|].
  replace (Z.of_nat (Z.to_nat k `min` length l)) with k by lia.
  pose proof pow2_m53 as Hu.
  destruct (Qlt_le_dec (inject_Z n * train_ratio) (pow2 (-1022)))
    as [Hsmall|Hnorm].
  - assert (Hy1 : (y <= pow2 (-1022))%Q).
    { apply Hyle; [lia|]. rewrite EP. by apply Qlt_le_weak. }
    assert (H1022 : (pow2 (-1022) <= pow2 (-1))%Q) by (by apply pow2_le).
    change (pow2 (-1)) with (1 # 2)%Q in H1022.
    assert (k = 0%Z) as ->.
    { apply Z.le_antisymm; [|done].
      assert (k < 1)%Z; [|lia]. rewrite Zlt_Qlt. change (inject_Z 1) with 1%Q. lra. }
    change (inject_Z 0) with 0%Q. rewrite Hu. lra.
  - rewrite <- EP in Hnorm. destruct (Hyn Hnorm) as [Hy1 Hy2].
    rewrite EP in Hy1, Hy2. lra.
Qed.

(** X3.  Every pair written to the train file or to the test file has a
    [chosen_score] strictly greater than its [rejected_score]. *)
Theorem split_keeps_strict_order (comparison_data : list json)
    (train_ratio : Q) (train test : list json) (p : json) :
  convert_to_dpo_format comparison_data train_ratio = OK (train, test) →
  p ∈ train ∨ p ∈ test → strictly_ordered p.
Proof.
  unfold convert_to_dpo_format.
  intros (dpo_data & Hrun & Hsplit)%bind_OK_inv Hp.
  assert (Hall : Forall strictly_ordered dpo_data).
  { revert Hrun. unfold convert_to_dpo_pairs.
    apply foldM_invariant; [|done].
    intros s x s' Hs. by apply expand_entry_ordered. }
  pose proof (split_train_test_perm _ _ _ _ Hsplit) as P.
  rewrite <- P in Hall. rewrite Forall_forall in Hall.
  apply Hall, elem_of_app, Hp.
Qed.

End Splitter.

Lemma split_loses_nothing_witness :
  ∃ dpo_data,
    convert_to_dpo_pairs
      [JObj (prompt_record "P"
               [candidate "A" 3 "a"; candidate "B" 5 "b"; candidate "C" 5 "c"])]
    = OK dpo_data ∧
    [JObj (dpo_entry (JStr "P") (JStr "C") (JStr "A") (JNum 5) (JNum 3)
             (JStr "c") (JStr "a"))] ++
    [JObj (dpo_entry (JStr "P") (JStr "B") (JStr "A") (JNum 5) (JNum 3)
             (JStr "b") (JStr "a"))] ≡ₚ dpo_data ∧
    1 + 1 = length dpo_data.
Proof.
  apply (@split_loses_nothing Z counting_random counting_random_shuffle_perm
           [JObj (prompt_record "P"
              [candidate "A" 3 "a"; candidate "B" 5 "b"; candidate "C" 5 "c"])]
           (1 # 2)).
  reflexivity.
Defined.

Lemma split_sizes_witness :
  ∃ train test,
    @split_train_test Z counting_random
      (JNum <$> [1; 2; 3; 4; 5; 6; 7; 8; 9; 10]%Q) three_tenths
    = OK (train, test) ∧
    length train = 3 ∧ length test = 7.
Proof.
  destruct (@split_sizes Z counting_random counting_random_shuffle_perm
              (JNum <$> [1; 2; 3; 4; 5; 6; 7; 8; 9; 10]%Q) three_tenths)
    as (train & test & Hrun & _); [discriminate | discriminate | reflexivity |].
  exists train, test. split; [done|].
  assert (E : OK (train, test)
              = OK (JNum <$> [10; 9; 8]%Q, JNum <$> [7; 6; 5; 4; 3; 2; 1]%Q))
    by (rewrite <- Hrun; reflexivity).
  injection E as -> ->. split; reflexivity.
Defined.

Lemma split_keeps_strict_order_witness :
  strictly_ordered
    (JObj (dpo_entry (JStr "P") (JStr "B") (JStr "A") (JNum 5) (JNum 3)
             (JStr "b") (JStr "a"))).
Proof.
  apply (@split_keeps_strict_order Z counting_random
           counting_random_shuffle_perm
           [JObj (prompt_record "P"
              [candidate "A" 3 "a"; candidate "B" 5 "b"; candidate "C" 5 "c"])]
           (1 # 2)
           [JObj (dpo_entry (JStr "P") (JStr "C") (JStr "A") (JNum 5) (JNum 3)
                    (JStr "c") (JStr "a"))]
           [JObj (dpo_entry (JStr "P") (JStr "B") (JStr "A") (JNum 5) (JNum 3)
                    (JStr "b") (JStr "a"))]).
  - reflexivity.
  - right. apply list_elem_of_here.
Defined.

(** ** RatioRebalancer, further *)

(** Two filters that no element passes both keep no more than the list. *)
Lemma filter_disjoint_submseteq {A} (f h : A → bool) (l : list A) :
  (∀ x, f x = true → h x = true → False) →
  List.filter f l ++ List.filter h l ⊆+ l.
Proof.
  intros Hd. induction l as [|x l IH]; simpl; [done|].
  destruct (f x) eqn:Hf, (h x) eqn:Hh.
  - destruct (Hd x Hf Hh).
  - simpl. by apply submseteq_skip.
  - rewrite <- Permutation_middle. by apply submseteq_skip.
  - by apply submseteq_cons.
Qed.

Lemma elem_of_take_weak {A} (x : A) (n : nat) (l : list A) :
  x ∈ take n l → x ∈ l.
Proof.
  intros H. rewrite <- (take_drop n l). apply elem_of_app. by left.
Qed.

Lemma classes_disjoint (x : json) :
  predicate_true x = true → false_class x = true → False.
Proof.
  intros H1%predicate_true_is_less H2%false_class_is_less. congruence.
Qed.

Lemma false_class_dict (x : json) : false_class x = true → ∃ m, x = JObj m.
Proof. destruct x; try done. by eexists. Qed.

Lemma predicate_true_dict (x : json) :
  predicate_true x = true → ∃ m, x = JObj m.
Proof. destruct x; try done. by eexists. Qed.

(** The only exception the classification loop raises is [TypeError]. *)
Lemma classify_raises_TypeError data st e :
  foldM classify st data = Raise e → e = TypeError.
Proof.
  revert st. induction data as [|item data IH]; intros st; simpl; [done|].
  destruct (classify st item) as [st'|e'] eqn:Hc; simpl; [apply IH|].
  intros [= <-]. destruct st as [l0 g0]. unfold classify in Hc.
  destruct item as [| | | | |m]; try done.
  destruct (m !! "chosen_score") as [c|], (m !! "rejected_score") as [r|];
    try done.
  destruct (py_lt c r) as [b|e''] eqn:Hlt; simpl in Hc; [by destruct b|].
  injection Hc as <-. unfold py_lt in Hlt.
  destruct (num_of c), (num_of r); try done;
    destruct c, r; simpl in Hlt; try done; by injection Hlt.
Qed.

Section RebalancerFurther.
Context {rng : Type} `{!PyRandom rng}.
Hypothesis shuffle_perm : ∀ (g : rng) (l : list json), (random_shuffle g l).1 ≡ₚ l.

(** Every run that returns went through one of the four exits. *)
Lemma downsample_cases data r (g g' : rng) out :
  downsample_dataset data r g = OK (out, g') →
  ∃ less ge,
    foldM classify ([], []) data = OK (less, ge) ∧
    less = List.filter predicate_true data ∧
    ge = List.filter false_class data ∧
    ((less = [] ∧ out = data) ∨
     (less ≠ [] ∧ (1 <= r)%Q ∧ out = less) ∨
     (less ≠ [] ∧ (r <= 0)%Q ∧ out = ge) ∨
     (less ≠ [] ∧ (0 < r)%Q ∧ (r < 1)%Q ∧
      ∃ nl ng less1 ge1,
        less1 ≡ₚ less ∧ ge1 ≡ₚ ge ∧ out ≡ₚ take nl less1 ++ take ng ge1)).
Proof.
  intros Hrun.
  destruct (foldM classify ([], []) data) as [[less ge]|e] eqn:Hc;
    [|by unfold downsample_dataset in Hrun; rewrite Hc in Hrun].
  destruct (classify_filter _ _ _ _ _ Hc) as [Hless Hge]. simpl in Hless, Hge.
  exists less, ge. do 3 (split; [done|]).
  destruct (downsample_early data r g less ge Hc) as (Hnone & Hone & Hzero).
  destruct (decide (less = [])) as [E|Hne].
  { left. rewrite (Hnone E) in Hrun. by injection Hrun as <- _. }
  right. destruct (Qlt_le_dec r 1) as [Hr1|Hr1].
  2: { left. rewrite (Hone Hne Hr1) in Hrun. by injection Hrun as <- _. }
  right. destruct (Qlt_le_dec 0 r) as [Hr0|Hr0].
  2: { left. rewrite (Hzero Hne Hr0) in Hrun. by injection Hrun as <- _. }
  right. do 3 (split; [done|]).
  destruct (downsample_sampling shuffle_perm data r g g' out less ge
              Hc Hne Hr0 Hr1 Hrun)
    as (rl & rg & less1 & ge1 & _ & P1 & P2 & P3).
  destruct (py_slice_to_is_take less1 rl) as [nl El].
  destruct (py_slice_to_is_take ge1 rg) as [ng Eg].
  rewrite El, Eg in P3. by exists nl, ng, less1, ge1.
Qed.

(** X4.  Whatever the target ratio, the output holds only items of the
    input, none more often than the input does: the rebalancer never
    invents or duplicates a pair. *)
Theorem rebalancer_output_within_input (data : list json) (r : Q)
    (g g' : rng) (out : list json) :
  downsample_dataset data r g = OK (out, g') → out ⊆+ data.
Proof.
  intros (less & ge & _ & Hless & Hge & Hcases)%downsample_cases.
  pose proof (filter_disjoint_submseteq predicate_true false_class data
                classes_disjoint) as Hsub.
  rewrite <- Hless, <- Hge in Hsub.
  destruct Hcases as [[_ ->]|[(_ & _ & ->)|[(_ & _ & ->)|
    (_ & _ & _ & nl & ng & less1 & ge1 & P1 & P2 & P3)]]].
  - done.
  - etrans; [|exact Hsub]. by apply submseteq_inserts_r.
  - etrans; [|exact Hsub]. by apply submseteq_inserts_l.
  - rewrite P3. etrans; [|exact Hsub]. rewrite <- P1, <- P2.
    apply submseteq_app; apply sublist_submseteq, sublist_take.
Qed.

(** X5.  When the true class is not empty, no item that is not a
    dictionary reaches the output. *)
Theorem rebalancer_drops_non_dictionaries (data : list json) (r : Q)
    (g g' : rng) (out : list json) (x : json) :
  downsample_dataset data r g = OK (out, g') →
  List.filter predicate_true data ≠ [] →
  x ∈ out → ∃ m, x = JObj m.
Proof.
  intros (less & ge & _ & Hless & Hge & Hcases)%downsample_cases Hne Hx.
  rewrite <- Hless in Hne.
  assert (Hin : x ∈ less ++ ge).
  { destruct Hcases as [[E _]|[(_ & _ & ->)|[(_ & _ & ->)|
      (_ & _ & _ & nl & ng & less1 & ge1 & P1 & P2 & P3)]]].
    - done.
    - apply elem_of_app. by left.
    - apply elem_of_app. by right.
    - rewrite P3 in Hx. rewrite <- P1, <- P2.
      apply elem_of_app in Hx as [Hx|Hx]; apply elem_of_app;
        [left | right]; by eapply elem_of_take_weak. }
  rewrite Hless, Hge in Hin.
  apply elem_of_app in Hin as [Hin|Hin];
    apply list_elem_of_In, filter_In in Hin as [_ Hin].
  - by apply predicate_true_dict.
  - by apply false_class_dict.
Qed.

(** X6.  When the false class is empty and the true class is not, every
    binary64 target ratio strictly between 0 and 1 gives an empty output:
    all the pairs are dropped. *)
Theorem rebalancer_empty_false_class (data : list json) (r : Q) (g : rng)
    (less : list json) :
  foldM classify ([], []) data = OK (less, []) → less ≠ [] →
  binary64 r → (0 < r)%Q → (r < 1)%Q →
  ∃ g', downsample_dataset data r g = OK ([], g').
Proof.
  intros Hc Hne Hbin Hr0 Hr1.
  destruct (required_less_spec r 0 Hbin Hr0 Hr1) as (L & HL & _ & HLz & _);
    [lia|].
  rewrite (HLz eq_refl) in HL.
  pose proof (sample_counts_keep_false r (Z.of_nat (length less)) 0 0 HL
                (Nat2Z.is_nonneg _)) as Hsc.
  rewrite Z.min_l in Hsc by lia.
  destruct (downsample_between shuffle_perm data r g less [] 0%Z 0%Z)
    as (out & g' & less1 & ge1 & Hrun & _ & _ & P3 & _); try done.
  { lia. }
  simpl in P3. apply Permutation_nil_r in P3 as ->. by exists g'.
Qed.

(** X7.  In the bottleneck branch, where the [required_less] of line 87
    exceeds the size of the true class, every item of the true class is
    kept and the [required_greater_equal] of line 94 items of the false
    class are sampled, fewer than the false class has; for a binary64
    target ratio and fewer than [2^48] data points. *)
Theorem rebalancer_bottleneck_keeps_true_class (data : list json) (r : Q)
    (g : rng) (less ge : list json) (required_less : Z) :
  foldM classify ([], []) data = OK (less, ge) → less ≠ [] →
  (Z.of_nat (length data) < 2 ^ 48)%Z →
  binary64 r → (0 < r)%Q → (r < 1)%Q →
  required_less_count r (Z.of_nat (length ge)) = OK required_less →
  (Z.of_nat (length less) < required_less)%Z →
  ∃ out g' required_greater_equal,
    downsample_dataset data r g = OK (out, g') ∧
    (∀ x, x ∈ less → x ∈ out) ∧
    required_greater_equal_count r (Z.of_nat (length less))
    = OK required_greater_equal ∧
    (0 ≤ required_greater_equal)%Z ∧
    Z.of_nat (length out)
    = (Z.of_nat (length less) + required_greater_equal)%Z ∧
    length out < length less + length ge.
Proof.
  intros Hc Hne Hn Hbin Hr0 Hr1 Hk Hbn.
  destruct (classify_filter _ _ _ _ _ Hc) as [Hless Hge]. simpl in Hless, Hge.
  assert (Ha48 : (0 < Z.of_nat (length less) < 2 ^ 48)%Z).
  { pose proof (filter_length_le predicate_true data). rewrite <- Hless in *.
    destruct less; [done | simpl in *; lia]. }
  assert (Hb48 : (0 ≤ Z.of_nat (length ge) < 2 ^ 48)%Z).
  { pose proof (filter_length_le false_class data). rewrite <- Hge in *. lia. }
  destruct (sample_counts_spec r (Z.of_nat (length less))
              (Z.of_nat (length ge)) Hbin Hr0 Hr1 Ha48 Hb48)
    as (L & rl & rg & HL & Hsc & Hrl & Hrg & _ & Hbottle & _).
  rewrite Hk in HL. injection HL as <-.
  destruct (Hbottle Hbn) as (-> & HG & HGb).
  destruct (downsample_between shuffle_perm data r g less ge _ _ Hc Hne
              Hr0 Hr1 Hsc Hrl Hrg)
    as (out & g' & less1 & ge1 & Hrun & P1 & P2 & P3 & _).
  exists out, g', rg. split; [done|].
  assert (Hlen : Z.of_nat (length out) = (Z.of_nat (length less) + rg)%Z).
  { rewrite P3, length_app, !length_take, (Permutation_length P1),
      (Permutation_length P2). lia. }
  split; [|split; [done | split; [lia | split; [done | lia]]]].
  intros x Hx. rewrite P3, elem_of_app. left.
  rewrite Nat2Z.id, <- (Permutation_length P1), firstn_all, P1. done.
Qed.

(** X8.  A dictionary that has both score keys with one of them null makes
    the run raise [TypeError], wherever it is in the list and whatever the
    target ratio. *)
Theorem rebalancer_null_score_raises (data : list json) (r : Q) (g : rng)
    (m : gmap string json) (c s : json) :
  JObj m ∈ data →
  m !! "chosen_score" = Some c → m !! "rejected_score" = Some s →
  c = JNull ∨ s = JNull →
  downsample_dataset data r g = Raise TypeError.
Proof.
  intros Hin Hc Hs Hnull.
  destruct (foldM_raises classify (JObj m) data ([], []) Hin) as [e He].
  { intros [l0 g0]. unfold classify. rewrite Hc, Hs.
    destruct Hnull as [-> | ->]; [by exists TypeError|].
    exists TypeError. by destruct c. }
  pose proof (classify_raises_TypeError _ _ _ He) as ->.
  unfold downsample_dataset. by rewrite He.
Qed.

End RebalancerFurther.

Lemma rebalancer_output_within_input_witness :
  [unscored_pair "x" "y"; scored_pair 1 2]
  ⊆+ [scored_pair 1 2; scored_pair 5 3; scored_pair 4 4;
      unscored_pair "x" "y"].
Proof.
  apply (@rebalancer_output_within_input Z counting_random
           counting_random_shuffle_perm
           [scored_pair 1 2; scored_pair 5 3; scored_pair 4 4;
            unscored_pair "x" "y"] (1 # 2) 0%Z 3%Z).
  reflexivity.
Defined.

Lemma rebalancer_drops_non_dictionaries_witness :
  ∃ m, scored_pair 1 2 = JObj m.
Proof.
  apply (@rebalancer_drops_non_dictionaries Z counting_random
           counting_random_shuffle_perm
           [JNum 7; scored_pair 1 2; JStr "note"; scored_pair 5 3] 1 0%Z 0%Z
           [scored_pair 1 2]).
  - reflexivity.
  - discriminate.
  - apply list_elem_of_here.
Defined.

Lemma rebalancer_empty_false_class_witness :
  ∃ g', @downsample_dataset Z counting_random
          [scored_pair 1 2; scored_pair 3 4] three_tenths 0%Z = OK ([], g').
Proof.
  apply (@rebalancer_empty_false_class Z counting_random
           counting_random_shuffle_perm
           [scored_pair 1 2; scored_pair 3 4] three_tenths 0%Z
           [scored_pair 1 2; scored_pair 3 4]).
  - reflexivity.
  - discriminate.
  - exists three_tenths. split; reflexivity.
  - reflexivity.
  - reflexivity.
Defined.

Lemma rebalancer_bottleneck_keeps_true_class_witness :
  ∃ out g' required_greater_equal,
    @downsample_dataset Z counting_random imbalanced_data three_tenths 0%Z
    = OK (out, g') ∧
    (∀ x, x ∈ replicate 3 (scored_pair 1 2) → x ∈ out) ∧
    required_greater_equal_count three_tenths
      (Z.of_nat (length (replicate 3 (scored_pair 1 2))))
    = OK required_greater_equal ∧
    (0 ≤ required_greater_equal)%Z ∧
    Z.of_nat (length out)
    = (Z.of_nat (length (replicate 3 (scored_pair 1 2)))
       + required_greater_equal)%Z ∧
    length out
    < length (replicate 3 (scored_pair 1 2))
      + length (replicate 10 (scored_pair 5 3)).
Proof.
  apply (@rebalancer_bottleneck_keeps_true_class Z counting_random
           counting_random_shuffle_perm imbalanced_data three_tenths 0%Z
           (replicate 3 (scored_pair 1 2)) (replicate 10 (scored_pair 5 3))
           4%Z).
  - reflexivity.
  - discriminate.
  - reflexivity.
  - exists three_tenths. split; reflexivity.
  - reflexivity.
  - reflexivity.
  - reflexivity.
  - reflexivity.
Defined.

Lemma rebalancer_null_score_raises_witness :
  @downsample_dataset Z counting_random
    [scored_pair 1 2;
     JObj {[ "chosen_score" := JNum 1; "rejected_score" := JNull ]}]
    (1 # 2) 0%Z
  = Raise TypeError.
Proof.
  apply (@rebalancer_null_score_raises Z counting_random
           [scored_pair 1 2;
            JObj {[ "chosen_score" := JNum 1; "rejected_score" := JNull ]}]
           (1 # 2) 0%Z
           {[ "chosen_score" := JNum 1; "rejected_score" := JNull ]}
           (JNum 1) JNull).
  - apply list_elem_of_further, list_elem_of_here.
  - reflexivity.
  - reflexivity.
  - by right.
Defined.

(** ** Canonicalizer, enforce mode, further *)

Lemma flip_data_point_unscored (m : gmap string json) :
  m !! "chosen_score" = None ∨ m !! "rejected_score" = None →
  flip_data_point m = OK m.
Proof.
  unfold flip_data_point. intros [-> | ->]; [done|].
  by destruct (m !! "chosen_score").
Qed.

(** X9.  [flip_data_point] called twice gives what one call gives: the
    dictionary it returns is in order, so a second call changes nothing. *)
Theorem flip_data_point_idempotent (m m' : gmap string json) :
  flip_data_point m = OK m' → flip_data_point m' = OK m'.
Proof.
  intros Hflip.
  destruct (m !! "chosen_score") as [c|] eqn:Hc.
  2: { rewrite flip_data_point_unscored in Hflip by (by left).
       injection Hflip as <-. apply flip_data_point_unscored. by left. }
  destruct (m !! "rejected_score") as [r|] eqn:Hr.
  2: { rewrite flip_data_point_unscored in Hflip by (by right).
       injection Hflip as <-. apply flip_data_point_unscored. by right. }
  destruct (py_lt c r) as [[]|e] eqn:Hlt.
  - destruct (flip_data_point_flips m c r Hc Hr Hlt)
      as (m'' & Hflip' & [Hc' Hr'] & _).
    rewrite Hflip' in Hflip. injection Hflip as <-.
    apply (flip_data_point_keeps m'' r c); [congruence | congruence |].
    by apply py_lt_asym.
  - rewrite (flip_data_point_keeps m c r Hc Hr Hlt) in Hflip.
    injection Hflip as <-. by apply (flip_data_point_keeps m c r).
  - unfold flip_data_point in Hflip. by rewrite Hc, Hr, Hlt in Hflip.
Qed.

Lemma flip_data_point_idempotent_witness :
  flip_data_point
    (dpo_entry (JStr "P") (JStr "B") (JStr "A") (JNum 5) (JNum 3)
       (JStr "model_a") (JStr "model_b"))
  = OK (dpo_entry (JStr "P") (JStr "B") (JStr "A") (JNum 5) (JNum 3)
          (JStr "model_a") (JStr "model_b")).
Proof.
  apply (flip_data_point_idempotent sourced_pair). reflexivity.
Defined.

(** X10.  [flip_data_point] never adds or removes a key: the dictionary it
    returns has the keys of its argument. *)
Theorem flip_data_point_keeps_keys (m m' : gmap string json) :
  flip_data_point m = OK m' → dom m' = dom m.
Proof.
  intros Hflip.
  destruct (m !! "chosen_score") as [c|] eqn:Hc.
  2: { rewrite flip_data_point_unscored in Hflip by (by left).
       by injection Hflip as <-. }
  destruct (m !! "rejected_score") as [r|] eqn:Hr.
  2: { rewrite flip_data_point_unscored in Hflip by (by right).
       by injection Hflip as <-. }
  destruct (py_lt c r) as [[]|e] eqn:Hlt.
  - destruct (flip_data_point_flips m c r Hc Hr Hlt)
      as (m'' & Hflip' & [Hc' Hr'] & Hex & Hkept & Hsame).
    rewrite Hflip' in Hflip. injection Hflip as <-.
    apply set_eq. intros k. rewrite !elem_of_dom.
    destruct (decide (k = "chosen_score")) as [->|N1];
      [by rewrite Hc', Hr, Hc|].
    destruct (decide (k = "rejected_score")) as [->|N2];
      [by rewrite Hr', Hr, Hc|].
    destruct (decide (k = "chosen")) as [->|N3];
      [|destruct (decide (k = "rejected")) as [->|N4]].
    + destruct (m !! "chosen") as [ch|] eqn:Hch,
               (m !! "rejected") as [rj|] eqn:Hrj.
      * destruct (Hex ltac:(by eauto) ltac:(by eauto)) as [E _].
        rewrite E, ?Hch, ?Hrj. split; intros _; by eauto.
      * destruct (Hkept ltac:(by right)) as [E _]. rewrite E, ?Hch, ?Hrj. reflexivity.
      * destruct (Hkept ltac:(by left)) as [E _]. rewrite E, ?Hch, ?Hrj. reflexivity.
      * destruct (Hkept ltac:(by left)) as [E _]. rewrite E, ?Hch, ?Hrj. reflexivity.
    + destruct (m !! "chosen") as [ch|] eqn:Hch,
               (m !! "rejected") as [rj|] eqn:Hrj.
      * destruct (Hex ltac:(by eauto) ltac:(by eauto)) as [_ E].
        rewrite E, ?Hch, ?Hrj. split; intros _; by eauto.
      * destruct (Hkept ltac:(by right)) as [_ E]. rewrite E, ?Hch, ?Hrj. reflexivity.
      * destruct (Hkept ltac:(by left)) as [_ E]. rewrite E, ?Hch, ?Hrj. reflexivity.
      * destruct (Hkept ltac:(by left)) as [_ E]. rewrite E, ?Hch, ?Hrj. reflexivity.
    + rewrite (Hsame k); [done|].
      rewrite !elem_of_cons, elem_of_nil. tauto.
  - rewrite (flip_data_point_keeps m c r Hc Hr Hlt) in Hflip.
    by injection Hflip as <-.
  - unfold flip_data_point in Hflip. by rewrite Hc, Hr, Hlt in Hflip.
Qed.

Lemma flip_data_point_keeps_keys_witness :
  dom (dpo_entry (JStr "P") (JStr "B") (JStr "A") (JNum 5) (JNum 3)
         (JStr "model_a") (JStr "model_b"))
  = dom sourced_pair.
Proof.
  apply (flip_data_point_keeps_keys sourced_pair). reflexivity.
Defined.

(** One step of enforce mode counts a flip exactly on the items of the
    rebalancer's true class. *)
Lemma enforce_step_count (x x' : json) (k : Z) :
  enforce_step ([], 0%Z) x = OK ([x'], k) →
  k = (if predicate_true x then 1 else 0)%Z ∧
  (predicate_true x = false → x' = x) ∧
  (predicate_true x = true → x' ≠ x).
Proof.
  unfold enforce_step, predicate_true, is_less.
  destruct x as [| | | | |m]; try (by intros [= <- <-]).
  destruct (m !! "chosen_score") as [c|] eqn:Hc; [|by intros [= <- <-]].
  destruct (m !! "rejected_score") as [r|] eqn:Hr;
    [|by destruct c; intros [= <- <-]].
  simpl. destruct (py_is_none c || py_is_none r) eqn:Hnone.
  { intros [= <- <-].
    assert (py_lt c r = Raise TypeError) as -> by (by destruct c, r).
    done. }
  destruct (py_lt c r) as [[]|] eqn:Hlt; simpl; [| |done].
  - destruct (flip_data_point_flips m c r Hc Hr Hlt)
      as (m' & -> & [Hc' _] & _). simpl.
    intros [= <- <-]. split; [done|]. split; [done|].
    intros _ [= ->]. rewrite Hr in Hc'.
    assert (c = r) as -> by congruence.
    pose proof (py_lt_asym _ _ Hlt). congruence.
  - by intros [= <- <-].
Qed.

Lemma enforce_counting_count data done n out n' :
  foldM enforce_step (done, n) data = OK (out, n') →
  n' = (n + Z.of_nat (length (List.filter predicate_true data)))%Z.
Proof.
  revert done n. induction data as [|x data IH]; intros done n; simpl.
  - intros [= <- <-]. lia.
  - intros (st & Hst & Hrest)%bind_OK_inv.
    apply enforce_step_inv in Hst as (x' & k & -> & Hx).
    apply enforce_step_count in Hx as (-> & _).
    apply IH in Hrest as ->.
    destruct (predicate_true x); simpl length; lia.
Qed.

(** X11.  Enforce mode keeps the length of the list; the number of flips it
    reports is the number of items with [chosen_score < rejected_score]; a
    second run over its output reports no flip. *)
Theorem enforce_flip_count (data out : list json) (flipped_count : Z) :
  enforce_counting data = OK (out, flipped_count) →
  length out = length data ∧
  flipped_count = Z.of_nat (length (List.filter predicate_true data)) ∧
  enforce_counting out = OK (out, 0%Z).
Proof.
  unfold enforce_counting. intros Hrun.
  pose proof (enforce_counting_count _ _ _ _ _ Hrun) as Hn.
  apply enforce_counting_Forall2 in Hrun as (new & -> & Hall). simpl in *.
  split; [symmetry; by eapply Forall2_length|]. split; [lia|].
  rewrite enforce_fixed_list; [done|].
  apply Forall_forall. intros x' Hx'.
  apply list_elem_of_lookup in Hx' as [i Hi].
  destruct (Forall2_lookup_r _ _ _ _ _ Hall Hi) as (x & _ & Hx).
  intros done n. by apply (enforced_fixed x).
Qed.

Lemma enforce_flip_count_witness :
  length [JObj (dpo_entry (JStr "P") (JStr "B") (JStr "A") (JNum 5) (JNum 3)
                  (JStr "model_a") (JStr "model_b"));
          scored_pair 5 3; unscored_pair "x" "y"]
  = length [JObj sourced_pair; scored_pair 5 3; unscored_pair "x" "y"] ∧
  1%Z = Z.of_nat
          (length (List.filter predicate_true
                     [JObj sourced_pair; scored_pair 5 3;
                      unscored_pair "x" "y"])) ∧
  enforce_counting
    [JObj (dpo_entry (JStr "P") (JStr "B") (JStr "A") (JNum 5) (JNum 3)
             (JStr "model_a") (JStr "model_b"));
     scored_pair 5 3; unscored_pair "x" "y"]
  = OK ([JObj (dpo_entry (JStr "P") (JStr "B") (JStr "A") (JNum 5) (JNum 3)
                 (JStr "model_a") (JStr "model_b"));
         scored_pair 5 3; unscored_pair "x" "y"], 0%Z).
Proof.
  apply (enforce_flip_count
           [JObj sourced_pair; scored_pair 5 3; unscored_pair "x" "y"]).
  reflexivity.
Defined.

(** X12.  Enforce mode changes exactly the items with
    [chosen_score < rejected_score]: every other item (not a dictionary, a
    score missing or null, or already in order) is at its position in the
    output as it was, and an item with [chosen_score < rejected_score] is
    not. *)
Theorem enforce_changes_exactly_true_class (data out : list json) (i : nat)
    (x : json) :
  enforce data = OK out → data !! i = Some x →
  (out !! i = Some x ↔ predicate_true x = false).
Proof.
  intros Hrun%enforce_Forall2 Hi.
  destruct (Forall2_lookup_l _ _ _ _ _ Hrun Hi) as (x' & Hx' & [k Hstep]).
  apply enforce_step_count in Hstep as (_ & Hsame & Hdiff).
  rewrite Hx'. split.
  - intros [= ->]. destruct (predicate_true x); [|done]. by destruct Hdiff.
  - intros Hp. by rewrite (Hsame Hp).
Qed.

Lemma enforce_changes_exactly_true_class_witness :
  [JObj (dpo_entry (JStr "P") (JStr "B") (JStr "A") (JNum 5) (JNum 3)
           (JStr "model_a") (JStr "model_b"));
   scored_pair 5 3; unscored_pair "x" "y"] !! 2
  = Some (unscored_pair "x" "y")
  ↔ predicate_true (unscored_pair "x" "y") = false.
Proof.
  apply (enforce_changes_exactly_true_class
           [JObj sourced_pair; scored_pair 5 3; unscored_pair "x" "y"]);
    reflexivity.
Defined.

Lemma enforced_not_less (x x' : json) :
  enforced x x' → (∃ b, is_less x = OK b) → is_less x' = OK false.
Proof.
  intros [k Hstep] [b Hb].
  pose proof (enforce_step_count _ _ _ Hstep) as (_ & Hsame & _).
  destruct (predicate_true x) eqn:Hp.
  - clear Hsame. apply predicate_true_is_less in Hp.
    revert Hstep. unfold enforce_step. unfold is_less in Hp.
    destruct x as [| | | | |m]; try done.
    destruct (m !! "chosen_score") as [c|] eqn:Hc; [|done].
    destruct (m !! "rejected_score") as [r|] eqn:Hr; [|done].
    simpl. destruct (py_lt_not_none _ _ _ Hp) as [-> ->]. simpl.
    rewrite Hp. simpl.
    destruct (flip_data_point_flips m c r Hc Hr Hp)
      as (m' & -> & [Hc' Hr'] & _). simpl.
    intros [= <- _]. simpl. rewrite Hc', Hr', Hr, Hc.
    by apply py_lt_asym.
  - rewrite (Hsame eq_refl). unfold predicate_true in Hp.
    rewrite Hb in Hp |- *. by destruct b.
Qed.

Lemma classify_no_less (l : list json) (l0 g0 : list json) :
  Forall (λ x, is_less x = OK false) l →
  ∃ ge, foldM classify (l0, g0) l = OK (l0, ge).
Proof.
  intros H. revert g0.
  induction H as [|x l Hx _ IH]; intros g0; cbn [foldM].
  - by eexists.
  - assert (∃ g1, classify (l0, g0) x = OK (l0, g1)) as [g1 ->].
    { unfold classify. unfold is_less in Hx.
      destruct x as [| | | | |m]; try by eexists.
      destruct (m !! "chosen_score"), (m !! "rejected_score");
        try by eexists.
      rewrite Hx. by eexists. }
    cbn [mbind outcome_bind]. apply IH.
Qed.

Section EnforceThenRebalance.
Context {rng : Type} `{!PyRandom rng}.

(** X13.  After enforce mode the rebalancer finds no pair with
    [chosen_score < rejected_score], so it returns the canonicalized list
    as it is, whatever the target ratio. *)
Theorem rebalancer_after_enforce (data : list json) :
  Forall (λ item, ∃ b, is_less item = OK b) data →
  ∃ out,
    enforce data = OK out ∧
    ∀ (r : Q) (g : rng), downsample_dataset out r g = OK (out, g).
Proof.
  intros Hcmp. destruct (enforce_returns data Hcmp) as [out Hrun].
  exists out. split; [done|]. intros r g.
  apply enforce_Forall2 in Hrun.
  assert (Hnl : Forall (λ x, is_less x = OK false) out).
  { apply Forall_forall. intros x' Hx'.
    apply list_elem_of_lookup in Hx' as [i Hi].
    destruct (Forall2_lookup_r _ _ _ _ _ Hrun Hi) as (x & Hx & Henf).
    apply (enforced_not_less x); [done|].
    rewrite Forall_forall in Hcmp. apply Hcmp.
    apply list_elem_of_lookup. eauto. }
  destruct (classify_no_less out [] [] Hnl) as [ge Hc].
  unfold downsample_dataset. by rewrite Hc.
Qed.

End EnforceThenRebalance.

Lemma rebalancer_after_enforce_witness :
  ∃ out,
    enforce [JObj sourced_pair; scored_pair 5 3; unscored_pair "x" "y"]
    = OK out ∧
    ∀ (r : Q) (g : Z),
      @downsample_dataset Z counting_random out r g = OK (out, g).
Proof.
  apply (@rebalancer_after_enforce Z counting_random
           [JObj sourced_pair; scored_pair 5 3; unscored_pair "x" "y"]).
  repeat constructor; eexists; reflexivity.
Defined.

(** ** Canonicalizer, noise injection, further *)

Lemma noise_flipped_involutive (a b c : gmap string json) :
  noise_flipped a b → noise_flipped b c → c = a.
Proof.
  intros (ca & ra & Hca & Hra & ->) (cb & rb & Hcb & Hrb & ->).
  rewrite lookup_insert_ne, lookup_insert_eq in Hcb by done.
  rewrite lookup_insert_eq in Hrb. injection Hcb as <-. injection Hrb as <-.
  apply map_eq. intros k.
  destruct (decide (k = "rejected")) as [->|N1];
    [by rewrite lookup_insert_eq|].
  rewrite lookup_insert_ne by done.
  destruct (decide (k = "chosen")) as [->|N2];
    [by rewrite lookup_insert_eq|].
  by rewrite !lookup_insert_ne.
Qed.

Section NoiseFurther.
Context {rng : Type} `{!PyRandom rng}.

Lemma flip_step_no flip_ratio fd n (g : rng) item :
  Qltb (random_random g).1 flip_ratio = false →
  flip_step flip_ratio (fd, n, g) item
  = OK (fd ++ [item], n, (random_random g).2).
Proof.
  unfold flip_step. destruct (random_random g) as [u g1]. simpl.
  by intros ->.
Qed.

Lemma flip_step_yes flip_ratio fd n (g : rng) item c r :
  Qltb (random_random g).1 flip_ratio = true →
  item !! "chosen" = Some c → item !! "rejected" = Some r →
  flip_step flip_ratio (fd, n, g) item
  = OK (fd ++ [<["rejected":=c]> (<["chosen":=r]> item)], (n + 1)%Z,
        (random_random g).2).
Proof.
  unfold flip_step, dict_getitem. destruct (random_random g) as [u g1].
  simpl. by intros -> -> ->.
Qed.

Lemma flip_loop_none flip_ratio data fd n (g : rng) :
  (∀ g, Qltb (random_random g).1 flip_ratio = false) →
  ∃ g', foldM (flip_step flip_ratio) (fd, n, g) data = OK (fd ++ data, n, g').
Proof.
  intros Hno. revert fd g.
  induction data as [|item data IH]; intros fd g; cbn [foldM].
  - exists g. by rewrite app_nil_r.
  - rewrite flip_step_no by done. cbn [mbind outcome_bind].
    destruct (IH (fd ++ [item]) (random_random g).2) as [g' ->]. exists g'.
    by rewrite <- (assoc_L (++)).
Qed.

Lemma flip_loop_all flip_ratio data fd n (g : rng) :
  (∀ g, Qltb (random_random g).1 flip_ratio = true) →
  Forall (λ item : gmap string json,
            is_Some (item !! "chosen") ∧ is_Some (item !! "rejected")) data →
  ∃ out n' g',
    foldM (flip_step flip_ratio) (fd, n, g) data = OK (fd ++ out, n', g') ∧
    Forall2 noise_flipped data out.
Proof.
  intros Hall Hkeys. revert fd n g.
  induction Hkeys as [|item data [[c Hc] [r Hr]] _ IH]; intros fd n g;
    cbn [foldM].
  - exists [], n, g. by rewrite app_nil_r.
  - rewrite (flip_step_yes _ _ _ _ _ c r) by done. cbn [mbind outcome_bind].
    destruct (IH (fd ++ [<["rejected":=c]> (<["chosen":=r]> item)])
                (n + 1)%Z (random_random g).2) as (out & n' & g' & -> & Hout).
    exists (<["rejected":=c]> (<["chosen":=r]> item) :: out), n', g'.
    rewrite <- (assoc_L (++)). split; [done|].
    constructor; [by exists c, r | done].
Qed.

Lemma flip_loop_all_inv flip_ratio data fd n (g : rng) out n' g' :
  (∀ g, Qltb (random_random g).1 flip_ratio = true) →
  foldM (flip_step flip_ratio) (fd, n, g) data = OK (out, n', g') →
  ∃ new, out = fd ++ new ∧ Forall2 noise_flipped data new.
Proof.
  intros Hall. revert fd n g.
  induction data as [|item data IH]; intros fd n g; simpl.
  - intros [= <- <- <-]. exists []. by rewrite app_nil_r.
  - intros (st & Hst & Hrest)%bind_OK_inv.
    apply flip_step_inv in Hst as (new_item & k & -> & Hdec).
    rewrite Hall in Hdec. destruct Hdec as [Hf _].
    apply IH in Hrest as (new & -> & Hnew).
    exists (new_item :: new). rewrite <- (assoc_L (++)). split; [done|].
    by constructor.
Qed.

(** The only exception the loop raises is [KeyError]. *)
Lemma flip_loop_raises_KeyError flip_ratio data st e :
  foldM (flip_step flip_ratio) st data = Raise e → e = KeyError.
Proof.
  revert st. induction data as [|item data IH]; intros st; simpl; [done|].
  destruct (flip_step flip_ratio st item) as [st'|e'] eqn:Hs; simpl;
    [apply IH|].
  intros [= <-]. destruct st as [[fd n] g]. unfold flip_step in Hs.
  destruct (random_random g) as [u g1]. destruct (Qltb u flip_ratio); [|done].
  unfold dict_getitem in Hs.
  destruct (item !! "rejected"); simpl in Hs; [|by injection Hs].
  destruct (item !! "chosen"); simpl in Hs; [done | by injection Hs].
Qed.

(** X14.  [flip_chosen_rejected] raises [ZeroDivisionError] on an empty
    list, whatever the ratio and the seed; on a non-empty list whose items
    all have ["chosen"] and ["rejected"] it returns a list of the same
    length. *)
Theorem noise_flip_returns (data : list (gmap string json)) (flip_ratio : Q)
    (seed : option Z) (g : rng) :
  (data = [] →
   flip_chosen_rejected data flip_ratio seed g = Raise ZeroDivisionError) ∧
  (data ≠ [] →
   Forall (λ item : gmap string json,
             is_Some (item !! "chosen") ∧ is_Some (item !! "rejected")) data →
   ∃ out g',
     flip_chosen_rejected data flip_ratio seed g = OK (out, g') ∧
     length out = length data).
Proof.
  split; [by intros ->|].
  intros Hne Hkeys. unfold flip_chosen_rejected.
  set (g0 := match seed with Some s => random_seed s | None => g end).
  destruct (foldM (flip_step flip_ratio) ([], 0%Z, g0) data)
    as [[[out n] g1]|e] eqn:Hloop.
  - cbn [mbind outcome_bind].
    destruct (Z.eqb_spec (Z.of_nat (length data)) 0) as [E|_].
    { destruct data; [done | simpl in E; lia]. }
    exists out, g1. split; [done|].
    apply flip_loop_Forall2 in Hloop as (new & -> & Hall).
    symmetry. by eapply Forall2_length.
  - exfalso. clear Hne. revert Hloop.
    generalize (@nil (gmap string json)) 0%Z g0.
    induction Hkeys as [|item data [[c Hc] [r Hr]] _ IH]; intros fd n g2;
      cbn [foldM]; [done|].
    destruct (Qltb (random_random g2).1 flip_ratio) eqn:Hu.
    + rewrite (flip_step_yes _ _ _ _ _ c r) by done. apply IH.
    + rewrite flip_step_no by done. apply IH.
Qed.

(** [random.random()] returns a number in [0, 1). *)
Hypothesis random_range :
  ∀ g : rng, (0 <= (random_random g).1)%Q ∧ ((random_random g).1 < 1)%Q.

(** X15.  With a flip ratio of 0 nothing is flipped: the output is the
    input.  With a flip ratio of 1 every pair is flipped, if each has
    ["chosen"] and ["rejected"]. *)
Theorem noise_flip_extremes (data : list (gmap string json)) (flip_ratio : Q)
    (seed : option Z) (g : rng) :
  data ≠ [] →
  ((flip_ratio <= 0)%Q →
   ∃ g', flip_chosen_rejected data flip_ratio seed g = OK (data, g')) ∧
  ((1 <= flip_ratio)%Q →
   Forall (λ item : gmap string json,
             is_Some (item !! "chosen") ∧ is_Some (item !! "rejected")) data →
   ∃ out g',
     flip_chosen_rejected data flip_ratio seed g = OK (out, g') ∧
     Forall2 noise_flipped data out).
Proof.
  intros Hne.
  assert (Hlen : (Z.of_nat (length data) =? 0)%Z = false).
  { apply Z.eqb_neq. destruct data; [done | simpl; lia]. }
  unfold flip_chosen_rejected.
  set (g0 := match seed with Some s => random_seed s | None => g end).
  split.
  - intros Hr.
    destruct (flip_loop_none flip_ratio data [] 0%Z g0) as [g' ->].
    { intros g1. apply Qltb_ge. destruct (random_range g1) as [H0 _]. lra. }
    cbn [mbind outcome_bind]. rewrite Hlen. by exists g'.
  - intros Hr Hkeys.
    destruct (flip_loop_all flip_ratio data [] 0%Z g0)
      as (out & n' & g' & -> & Hout); [|done|].
    { intros g1. apply Qltb_lt. destruct (random_range g1) as [_ H1]. lra. }
    cbn [mbind outcome_bind]. rewrite Hlen. by exists out, g'.
Qed.

(** X16.  With a flip ratio of 1, a pair without ["chosen"] or without
    ["rejected"] makes the run raise [KeyError]. *)
Theorem noise_flip_missing_key (data : list (gmap string json))
    (flip_ratio : Q) (seed : option Z) (g : rng) (item : gmap string json) :
  (1 <= flip_ratio)%Q → item ∈ data →
  item !! "chosen" = None ∨ item !! "rejected" = None →
  flip_chosen_rejected data flip_ratio seed g = Raise KeyError.
Proof.
  intros Hr Hin Hmiss. unfold flip_chosen_rejected.
  set (g0 := match seed with Some s => random_seed s | None => g end).
  destruct (foldM_raises (flip_step flip_ratio) item data ([], 0%Z, g0) Hin)
    as [e He].
  { intros [[fd n] g1]. unfold flip_step.
    assert (Hu : Qltb (random_random g1).1 flip_ratio = true).
    { apply Qltb_lt. destruct (random_range g1) as [_ H1]. lra. }
    destruct (random_random g1) as [u g2]. simpl in Hu. rewrite Hu.
    unfold dict_getitem.
    destruct Hmiss as [Hc|Hrj].
    - rewrite Hc. destruct (item !! "rejected"); by eexists.
    - rewrite Hrj. by eexists. }
  rewrite (flip_loop_raises_KeyError _ _ _ _ He) in He. by rewrite He.
Qed.

(** X17.  Flipping every pair twice gives the input back: a run with flip
    ratio 1 over the output of a run with flip ratio 1 returns the original
    list. *)
Theorem noise_flip_twice (data out : list (gmap string json))
    (seed seed' : option Z) (g g' g'' : rng) :
  flip_chosen_rejected data 1 seed g = OK (out, g') →
  ∃ g3, flip_chosen_rejected out 1 seed' g'' = OK (data, g3).
Proof.
  intros Hrun.
  assert (Hall1 : ∀ g1 : rng, Qltb (random_random g1).1 1 = true).
  { intros g1. apply Qltb_lt. by destruct (random_range g1). }
  unfold flip_chosen_rejected in Hrun.
  apply bind_OK_inv in Hrun as ([[fd n] g1] & Hloop & Hret).
  destruct (Z.eqb_spec (Z.of_nat (length data)) 0) as [|Hlen]; [done|].
  injection Hret as <- <-.
  apply (flip_loop_all_inv _ _ _ _ _ _ _ _ Hall1) in Hloop
    as (new & -> & Hfl).
  simpl in *.
  assert (Hkeys : Forall (λ item : gmap string json,
            is_Some (item !! "chosen") ∧ is_Some (item !! "rejected")) new).
  { apply Forall_forall. intros b Hb.
    apply list_elem_of_lookup in Hb as [i Hi].
    destruct (Forall2_lookup_r _ _ _ _ _ Hfl Hi) as (a & _ & Hab).
    destruct Hab as (c & r & Hc & Hr & ->).
    rewrite lookup_insert_ne, !lookup_insert_eq by done. eauto. }
  unfold flip_chosen_rejected.
  set (g0 := match seed' with Some s => random_seed s | None => g'' end).
  destruct (flip_loop_all 1 new [] 0%Z g0 Hall1 Hkeys)
    as (out2 & n2 & g3 & -> & Hfl2).
  cbn [mbind outcome_bind].
  rewrite <- (Forall2_length _ _ _ Hfl).
  destruct (Z.eqb_spec (Z.of_nat (length data)) 0) as [|_]; [done|].
  exists g3. simpl. do 2 f_equal.
  clear -Hfl Hfl2. revert out2 Hfl2.
  induction Hfl as [|a b data new Hab _ IH]; intros out2 Hfl2.
  - by apply Forall2_nil_inv_l in Hfl2.
  - apply Forall2_cons_inv_l in Hfl2 as (c & out3 & Hbc & Hrest & ->).
    f_equal; [by apply (noise_flipped_involutive a b) | by apply IH].
Qed.

End NoiseFurther.

Lemma counting_random_range (g : Z) :
  (0 <= (@random_random Z counting_random g).1)%Q ∧
  ((@random_random Z counting_random g).1 < 1)%Q.
Proof.
  simpl. pose proof (Z.mod_pos_bound g 10 ltac:(lia)) as [H0 H1].
  apply inject_Z_nonneg in H0.
  assert (H1' : (inject_Z (g mod 10) < 10)%Q).
  { change 10%Q with (inject_Z 10). by rewrite <- Zlt_Qlt. }
  split.
  - apply Qle_shift_div_l; [reflexivity | lra].
  - apply Qlt_shift_div_r; [reflexivity | lra].
Qed.

Lemma noise_flip_returns_witness :
  @flip_chosen_rejected Z counting_random [] (1 # 2) (Some 42%Z) 0%Z
  = Raise ZeroDivisionError ∧
  ∃ out g',
    @flip_chosen_rejected Z counting_random [sourced_pair] (1 # 2)
      (Some 42%Z) 0%Z = OK (out, g') ∧
    length out = length [sourced_pair].
Proof.
  split.
  - apply (proj1 (@noise_flip_returns Z counting_random [] (1 # 2)
                    (Some 42%Z) 0%Z)).
    reflexivity.
  - apply (proj2 (@noise_flip_returns Z counting_random [sourced_pair]
                    (1 # 2) (Some 42%Z) 0%Z)).
    + discriminate.
    + repeat constructor; eexists; reflexivity.
Defined.

Lemma noise_flip_extremes_witness :
  (∃ g', @flip_chosen_rejected Z counting_random [sourced_pair] 0 None 3%Z
         = OK ([sourced_pair], g')) ∧
  ∃ out g',
    @flip_chosen_rejected Z counting_random [sourced_pair] 1 None 3%Z
    = OK (out, g') ∧
    Forall2 noise_flipped [sourced_pair] out.
Proof.
  split.
  - apply (@noise_flip_extremes Z counting_random counting_random_range
             [sourced_pair] 0 None 3%Z); discriminate.
  - apply (@noise_flip_extremes Z counting_random counting_random_range
             [sourced_pair] 1 None 3%Z); [discriminate | discriminate |].
    repeat constructor; eexists; reflexivity.
Defined.

Lemma noise_flip_missing_key_witness :
  @flip_chosen_rejected Z counting_random
    [sourced_pair; {[ "chosen" := JStr "only" ]}] 1 None 0%Z
  = Raise KeyError.
Proof.
  apply (@noise_flip_missing_key Z counting_random counting_random_range
           [sourced_pair; {[ "chosen" := JStr "only" ]}] 1 None 0%Z
           {[ "chosen" := JStr "only" ]}).
  - discriminate.
  - apply list_elem_of_further, list_elem_of_here.
  - right. reflexivity.
Defined.

Lemma noise_flip_twice_witness :
  ∃ g3,
    @flip_chosen_rejected Z counting_random
      [<["rejected" := JObj {[ "from" := JStr "gpt"; "value" := JStr "A" ]}]>
         (<["chosen" := JObj {[ "from" := JStr "gpt"; "value" := JStr "B" ]}]>
            sourced_pair)] 1 None 5%Z
    = OK ([sourced_pair], g3).
Proof.
  apply (@noise_flip_twice Z counting_random counting_random_range
           [sourced_pair]
           [<["rejected" := JObj {[ "from" := JStr "gpt";
                                    "value" := JStr "A" ]}]>
              (<["chosen" := JObj {[ "from" := JStr "gpt";
                                     "value" := JStr "B" ]}]>
                 sourced_pair)] None None 0%Z 1%Z 5%Z).
  reflexivity.
Defined.

(** ** FormatAdapter, further *)

(** X18.  After a flip, [convert_to_sft] gives the record of the pair with
    the same instruction and, as output, the text that was under
    ["rejected"]: the supervised record is built from the flipped label. *)
Theorem sft_after_flip (item new_item : gmap string json)
    (rejected instruction output output' : json)
    (sft_data : list (gmap string json)) :
  noise_flipped item new_item →
  item !! "rejected" = Some rejected →
  sft_step sft_data item = OK (sft_data ++ [sft_entry instruction output]) →
  py_get rejected "value" (JStr "") = OK output' →
  sft_step sft_data new_item
  = OK (sft_data ++ [sft_entry instruction output']).
Proof.
  intros Hf Hrj Hstep Hout.
  destruct (noise_flipped_frame _ _ Hf) as (Hc' & _ & Hframe).
  unfold sft_step in *.
  rewrite (Hframe "conversations") by done. rewrite Hc', Hrj, Hout.
  apply bind_OK_inv in Hstep as (ins & Hins & Hrest).
  rewrite Hins. cbn [mbind outcome_bind].
  apply bind_OK_inv in Hrest as (out & _ & [= He]).
  apply app_inj_tail in He as [_ He].
  assert (ins = instruction) as ->; [|done].
  apply (f_equal (λ e : gmap string json, e !! "instruction")) in He.
  unfold sft_entry in He. simpl in He.
  rewrite !lookup_insert_eq in He. by injection He.
Qed.

Lemma sft_after_flip_witness :
  sft_step []
    (<["rejected" := JObj {[ "from" := JStr "gpt"; "value" := JStr "good" ]}]>
       (<["chosen" := JObj {[ "from" := JStr "gpt"; "value" := JStr "bad" ]}]>
          (human_pair "Q" "good" "bad")))
  = OK ([] ++ [sft_entry (JStr "Q") (JStr "bad")]).
Proof.
  apply (sft_after_flip (human_pair "Q" "good" "bad") _
           (JObj {[ "from" := JStr "gpt"; "value" := JStr "bad" ]})
           (JStr "Q") (JStr "good") (JStr "bad") []).
  - eexists _, _. split; [reflexivity|]. split; reflexivity.
  - reflexivity.
  - reflexivity.
  - reflexivity.
Defined.

Lemma first_human_app (pre rest : list json) (h : gmap string json) :
  no_human_turn pre → h !! "from" = Some (JStr "human") →
  first_human (pre ++ JObj h :: rest) = OK (default (JStr "") (h !! "value")).
Proof.
  intros Hpre Hh.
  induction Hpre as [|conv pre (m & -> & Hfrom) _ IH]; simpl.
  - by rewrite Hh.
  - destruct (m !! "from") as [[| | |t| |]|] eqn:Hf; simpl; try done.
    destruct (String.eqb_spec t "human") as [->|_]; [done | exact IH].
Qed.

Lemma sft_step_first_human (item : gmap string json)
    (pre rest : list json) (h ch : gmap string json)
    (sft_data : list (gmap string json)) :
  item !! "conversations" = Some (JArr (pre ++ JObj h :: rest)) →
  no_human_turn pre → h !! "from" = Some (JStr "human") →
  item !! "chosen" = Some (JObj ch) →
  sft_step sft_data item
  = OK (sft_data ++ [sft_entry (default (JStr "") (h !! "value"))
                               (default (JStr "") (ch !! "value"))]).
Proof.
  intros Hc Hpre Hh Hch. unfold sft_step. rewrite Hc, Hch.
  cbn [py_len mbind outcome_bind].
  rewrite length_app. simpl length.
  destruct (Nat.ltb_spec 0 (length pre + S (length rest))); [|lia].
  cbn [py_iter mbind outcome_bind].
  by rewrite (first_human_app pre rest h Hpre Hh).
Qed.

(** X19.  [convert_to_sft] takes as instruction the value of the first turn
    whose ["from"] is ["human"], whatever precedes it and follows it, and
    as output the value of ["chosen"]. *)
Theorem sft_uses_first_human_turn (item : gmap string json)
    (pre rest : list json) (h ch : gmap string json)
    (sft_data : list (gmap string json)) :
  item !! "conversations" = Some (JArr (pre ++ JObj h :: rest)) →
  no_human_turn pre → h !! "from" = Some (JStr "human") →
  item !! "chosen" = Some (JObj ch) →
  sft_step sft_data item
  = OK (sft_data ++ [sft_entry (default (JStr "") (h !! "value"))
                               (default (JStr "") (ch !! "value"))]).
Proof.
  intros Hc Hpre Hh Hch. unfold sft_step. rewrite Hc, Hch.
  cbn [py_len mbind outcome_bind].
  rewrite length_app. simpl length.
  destruct (Nat.ltb_spec 0 (length pre + S (length rest))); [|lia].
  cbn [py_iter mbind outcome_bind].
  by rewrite (first_human_app pre rest h Hpre Hh).
Qed.

Lemma sft_uses_first_human_turn_witness :
  sft_step []
    {[ "conversations" :=
         JArr [JObj {[ "from" := JStr "system"; "value" := JStr "S" ]};
               JObj {[ "from" := JStr "human"; "value" := JStr "Q1" ]};
               JObj {[ "from" := JStr "gpt"; "value" := JStr "A1" ]};
               JObj {[ "from" := JStr "human"; "value" := JStr "Q2" ]}];
       "chosen" := JObj {[ "from" := JStr "gpt"; "value" := JStr "good" ]} ]}
  = OK ([] ++ [sft_entry (JStr "Q1") (JStr "good")]).
Proof.
  refine (eq_trans
    (sft_uses_first_human_turn _
       [JObj {[ "from" := JStr "system"; "value" := JStr "S" ]}]
       [JObj {[ "from" := JStr "gpt"; "value" := JStr "A1" ]};
        JObj {[ "from" := JStr "human"; "value" := JStr "Q2" ]}]
       {[ "from" := JStr "human"; "value" := JStr "Q1" ]}
       {[ "from" := JStr "gpt"; "value" := JStr "good" ]} [] _ _ _ _) _).
  - reflexivity.
  - repeat constructor. eexists. split; [reflexivity|]. discriminate.
  - reflexivity.
  - reflexivity.
  - reflexivity.
Defined.

Lemma foldM_ext_fmap {S A B} (f : S → A → outcome S) (h : S → B → outcome S)
    (k : A → B) (l : list A) (s : S) :
  Forall (λ x, ∀ s, f s x = h s (k x)) l →
  foldM f s l = foldM h s (k <$> l).
Proof.
  intros H. revert s. induction H as [|x l Hx _ IH]; intros s; simpl; [done|].
  rewrite Hx. destruct (h s (k x)); simpl; [apply IH | done].
Qed.

(** X20.  On pairs whose first turn comes from the human and whose
    ["chosen"] is a dictionary, the two adapters write the same records. *)
Theorem adapters_agree (py_str : json → string)
    (data : list (gmap string json)) :
  Forall starts_with_human data →
  convert_to_sft data = convert_dpo_to_sft py_str (JObj <$> data).
Proof.
  intros Hwf. unfold convert_to_sft, convert_dpo_to_sft.
  apply foldM_ext_fmap. eapply Forall_impl; [exact Hwf|].
  intros item (h & rest & ch & Hc & Hh & Hch) acc.
  rewrite (sft_step_first_human item [] rest h ch acc Hc
             (Forall_nil_2 _) Hh Hch).
  unfold dpo_to_sft_step. simpl. by rewrite Hc, Hch.
Qed.

Lemma adapters_agree_witness :
  convert_to_sft [human_pair "Q" "good" "bad"]
  = convert_dpo_to_sft (λ _, "") (JObj <$> [human_pair "Q" "good" "bad"]).
Proof.
  apply (adapters_agree (λ _, "") [human_pair "Q" "good" "bad"]).
  repeat constructor. eexists _, _, _.
  split; [reflexivity|]. split; reflexivity.
Defined.

Lemma dpo_to_sft_step_length py_str acc item acc' :
  dpo_to_sft_step py_str acc item = OK acc' →
  length acc' = length acc + (if has_conversations item then 1 else 0).
Proof.
  unfold dpo_to_sft_step, has_conversations.
  intros (conversations & Hget & Hrest)%bind_OK_inv.
  destruct item as [| | | | |m]; try done. injection Hget as <-.
  destruct (py_truthy _); simpl in Hrest.
  - apply bind_OK_inv in Hrest as (first & _ & Hrest).
    apply bind_OK_inv in Hrest as (ins & _ & Hrest).
    simpl in Hrest. injection Hrest as <-.
    rewrite length_app. simpl. lia.
  - injection Hrest as <-. lia.
Qed.

(** X21.  When [convert_dpo_to_sft] returns, it has written one record for
    each pair whose ["conversations"] is present and not empty and none for
    the others, so never more records than pairs. *)
Theorem dpo_to_sft_output_length (py_str : json → string)
    (data : list json) (out : list (gmap string json)) :
  convert_dpo_to_sft py_str data = OK out →
  length out = length (List.filter has_conversations data) ∧
  length out ≤ length data.
Proof.
  unfold convert_dpo_to_sft. intros Hrun.
  assert (H : ∀ acc, foldM (dpo_to_sft_step py_str) acc data = OK out →
            length out
            = length acc + length (List.filter has_conversations data)).
  { clear Hrun. induction data as [|item data IH]; intros acc; simpl.
    - intros [= <-]. lia.
    - intros (acc1 & Hstep%dpo_to_sft_step_length & Hrest%IH)%bind_OK_inv.
      rewrite Hrest, Hstep. destruct (has_conversations item); simpl; lia. }
  apply H in Hrun. simpl in Hrun. split; [done|].
  rewrite Hrun. apply filter_length_le.
Qed.

Lemma dpo_to_sft_output_length_witness :
  length [sft_entry (JStr "Q") (JStr "good")]
  = length (List.filter has_conversations
              [JObj ∅; JObj (human_pair "Q" "good" "bad");
               JObj {[ "conversations" := JArr [] ]}]) ∧
  length [sft_entry (JStr "Q") (JStr "good")]
  ≤ length [JObj ∅; JObj (human_pair "Q" "good" "bad");
            JObj {[ "conversations" := JArr [] ]}].
Proof.
  apply (dpo_to_sft_output_length (λ _, "")
           [JObj ∅; JObj (human_pair "Q" "good" "bad");
            JObj {[ "conversations" := JArr [] ]}]).
  reflexivity.
Defined.

(** ** Log extraction *)

Lemma max_step_skip name s line :
  match line with Some (JObj _) | None => True | _ => False end →
  matching_value name line = None →
  max_step name s line = OK s.
Proof.
  destruct line as [[| | | | |m]|]; try done. intros _. simpl.
  destruct (py_eq_str _ name); [|done].
  intros ->. done.
Qed.

Lemma max_step_match name s m v :
  matching_value name (Some (JObj m)) = Some v →
  max_step name s (Some (JObj m))
  = (if py_is_none s then OK v
     else gt ← py_gt v s; OK (if gt : bool then v else s)).
Proof.
  simpl. destruct (py_eq_str _ name); [|done]. intros ->. done.
Qed.

(** The loop from a numeric maximum. *)
Lemma max_loop_from_number name lines q :
  well_formed_log name lines →
  ∃ q', foldM (max_step name) (JNum q) lines = OK (JNum q') ∧
    (q <= q')%Q ∧
    (q' = q ∨ JNum q' ∈ matching_values name lines) ∧
    ∀ q'', JNum q'' ∈ matching_values name lines → (q'' <= q')%Q.
Proof.
  intros Hwf. revert q.
  induction Hwf as [|line lines Hline _ IH]; intros q; cbn [foldM].
  - exists q. split; [done|]. split; [apply Qle_refl|].
    split; [by left|]. intros q'' Hq. by apply elem_of_nil in Hq.
  - unfold matching_values. cbn [omap list_omap].
    fold (matching_values name lines).
    destruct (matching_value name line) as [v|] eqn:Hv.
    + destruct line as [[| | | | |m]|]; try done.
      destruct (Hline v eq_refl) as [qv ->].
      rewrite (max_step_match _ _ _ _ Hv). cbn [py_is_none].
      unfold py_gt, py_lt. cbn [num_of mbind outcome_bind].
      destruct (Qltb q qv) eqn:Hlt.
      * destruct (IH qv) as (q' & -> & Hle & Hin & Hmax).
        apply Qltb_lt in Hlt.
        exists q'. split; [done|]. split; [lra|]. split.
        { right. destruct Hin as [->|Hin]; [by left | by right]. }
        intros q'' [[= ->]|Hq]%elem_of_cons; [done | by apply Hmax].
      * destruct (IH q) as (q' & -> & Hle & Hin & Hmax).
        apply Qltb_ge in Hlt.
        exists q'. split; [done|]. split; [done|]. split.
        { destruct Hin as [->|Hin]; [by left | right; by right]. }
        intros q'' [[= ->]|Hq]%elem_of_cons; [lra | by apply Hmax].
    + rewrite max_step_skip; [| by destruct line as [[]|] | done].
      cbn [mbind outcome_bind]. apply IH.
Qed.

(** X22.  On a log whose lines are blank, invalid or dictionaries, with
    numeric accuracies under the name looked for, the function returns
    [None] when no record has that name and an accuracy, and otherwise the
    greatest of those accuracies. *)
Theorem log_maximum (name : string) (lines : list (option json)) :
  well_formed_log name lines →
  (matching_values name lines = [] →
   get_max_eval_rewards_accuracies lines name = JNull) ∧
  (matching_values name lines ≠ [] →
   ∃ q, get_max_eval_rewards_accuracies lines name = JNum q ∧
     JNum q ∈ matching_values name lines ∧
     ∀ q', JNum q' ∈ matching_values name lines → (q' <= q)%Q).
Proof.
  intros Hwf. unfold get_max_eval_rewards_accuracies.
  induction Hwf as [|line lines Hline Hwf IH]; cbn [foldM].
  - split; [done|]. by intros [].
  - unfold matching_values in *. cbn [omap list_omap].
    fold (matching_values name lines) in *.
    destruct (matching_value name line) as [v|] eqn:Hv.
    + destruct line as [[| | | | |m]|]; try done.
      destruct (Hline v eq_refl) as [qv ->].
      rewrite (max_step_match _ _ _ _ Hv). cbn [py_is_none mbind outcome_bind].
      split; [done|]. intros _.
      destruct (max_loop_from_number name lines qv Hwf)
        as (q' & -> & Hle & Hin & Hmax).
      exists q'. split; [done|]. split.
      { destruct Hin as [->|Hin]; [by left | by right]. }
      intros q'' [[= ->]|Hq]%elem_of_cons; [done | by apply Hmax].
    + rewrite max_step_skip; [| by destruct line as [[]|] | done].
      cbn [mbind outcome_bind]. exact IH.
Qed.

Lemma log_maximum_witness :
  ∃ q,
    get_max_eval_rewards_accuracies
      [log_record "val" (1 # 2); None; log_record "test" (9 # 10);
       Some (JObj {[ "name" := JStr "val" ]}); log_record "val" (3 # 4);
       log_record "val" (3 # 5)] "val" = JNum q ∧
    JNum q ∈ matching_values "val"
      [log_record "val" (1 # 2); None; log_record "test" (9 # 10);
       Some (JObj {[ "name" := JStr "val" ]}); log_record "val" (3 # 4);
       log_record "val" (3 # 5)] ∧
    ∀ q', JNum q' ∈ matching_values "val"
            [log_record "val" (1 # 2); None; log_record "test" (9 # 10);
             Some (JObj {[ "name" := JStr "val" ]}); log_record "val" (3 # 4);
             log_record "val" (3 # 5)] → (q' <= q)%Q.
Proof.
  apply (log_maximum "val"
           [log_record "val" (1 # 2); None; log_record "test" (9 # 10);
            Some (JObj {[ "name" := JStr "val" ]}); log_record "val" (3 # 4);
            log_record "val" (3 # 5)]).
  - repeat constructor; intros v [= <-]; by eexists.
  - discriminate.
Defined.

(** X23.  A line that parses to something else than a dictionary makes the
    function return [None], whatever the other lines hold: the outer
    handler catches the [AttributeError]. *)
Theorem log_non_dictionary_line (name : string) (lines : list (option json))
    (data : json) :
  Some data ∈ lines → (∀ m, data ≠ JObj m) →
  get_max_eval_rewards_accuracies lines name = JNull.
Proof.
  intros Hin Hnd. unfold get_max_eval_rewards_accuracies.
  destruct (foldM_raises (max_step name) (Some data) lines JNull Hin)
    as [e ->]; [|done].
  intros s. exists AttributeError. simpl.
  destruct data as [| | | | |m]; try done. by destruct (Hnd m).
Qed.

Lemma log_non_dictionary_line_witness :
  get_max_eval_rewards_accuracies
    [log_record "val" (1 # 2); Some (JNum 7); log_record "val" (3 # 4)] "val"
  = JNull.
Proof.
  apply (log_non_dictionary_line "val"
           [log_record "val" (1 # 2); Some (JNum 7); log_record "val" (3 # 4)]
           (JNum 7)).
  - apply list_elem_of_further, list_elem_of_here.
  - discriminate.
Defined.

(** ** Score analysis *)

(** What one step of the loop does to the counters. *)
Lemma analyze_step_inv (t t' : tally) (x : json) :
  analyze_step t x = OK t' →
  t' = t ∨
  ∃ c r,
    py_getitem x "chosen_score" = OK c ∧
    py_getitem x "rejected_score" = OK r ∧
    points_with_scores t' = (points_with_scores t + 1)%Z ∧
    chosen_scores t' = chosen_scores t ++ [c] ∧
    rejected_scores t' = rejected_scores t ++ [r] ∧
    ((py_gt c r = OK true ∧
      chosen_greater_count t' = (chosen_greater_count t + 1)%Z ∧
      chosen_equal_count t' = chosen_equal_count t ∧
      chosen_less_count t' = chosen_less_count t) ∨
     (py_gt c r = OK false ∧ py_eq c r = true ∧
      chosen_greater_count t' = chosen_greater_count t ∧
      chosen_equal_count t' = (chosen_equal_count t + 1)%Z ∧
      chosen_less_count t' = chosen_less_count t) ∨
     (py_gt c r = OK false ∧ py_eq c r = false ∧
      chosen_greater_count t' = chosen_greater_count t ∧
      chosen_equal_count t' = chosen_equal_count t ∧
      chosen_less_count t' = (chosen_less_count t + 1)%Z)).
Proof.
  unfold analyze_step.
  intros (hc & _ & (has & _ & H)%bind_OK_inv)%bind_OK_inv.
  destruct has; [|left; by injection H].
  apply bind_OK_inv in H as (c & Hc & (r & Hr & H)%bind_OK_inv).
  apply bind_OK_inv in H as (gt & Hgt & H).
  right. exists c, r. do 2 (split; [done|]).
  destruct gt; [|destruct (py_eq c r) eqn:Heq]; injection H as <-; simpl;
    (do 3 (split; [done|])); [left | right; left | right; right]; done.
Qed.

Lemma analyze_loop_counts (data : list json) (t t' : tally) (n : Z) :
  foldM analyze_step t data = OK t' →
  (chosen_greater_count t + chosen_equal_count t + chosen_less_count t
   = points_with_scores t)%Z →
  (0 ≤ chosen_greater_count t)%Z → (0 ≤ chosen_equal_count t)%Z →
  (0 ≤ chosen_less_count t)%Z → (points_with_scores t ≤ n)%Z →
  Z.of_nat (length (chosen_scores t)) = points_with_scores t →
  (chosen_greater_count t' + chosen_equal_count t' + chosen_less_count t'
   = points_with_scores t')%Z ∧
  (0 ≤ chosen_greater_count t')%Z ∧ (0 ≤ chosen_equal_count t')%Z ∧
  (0 ≤ chosen_less_count t')%Z ∧
  (points_with_scores t' ≤ n + Z.of_nat (length data))%Z ∧
  Z.of_nat (length (chosen_scores t')) = points_with_scores t'.
Proof.
  revert t n. induction data as [|x data IH]; intros t n; simpl.
  - intros [= <-]. intros. repeat split; try done; lia.
  - intros (t1 & Hstep & Hrest)%bind_OK_inv Hsum Hg He Hl Hw Hlen.
    replace (n + Z.of_nat (S (length data)))%Z
      with ((n + 1) + Z.of_nat (length data))%Z by lia.
    apply (IH t1 (n + 1)%Z Hrest);
      apply analyze_step_inv in Hstep
        as [->|(c & r & _ & _ & Hw1 & Hcs & _ &
                [(_ & E1 & E2 & E3)|[(_ & _ & E1 & E2 & E3)|
                 (_ & _ & E1 & E2 & E3)]])];
      rewrite ?Hcs, ?length_app; simpl; lia.
Qed.

(** Lines 58-60: a ratio is the quotient rounded once, or 0. *)
Lemma ratio_of_spec (c w : Z) (q : Q) :
  ratio_of c w = OK q → (0 ≤ c ≤ w)%Z → (w < 2 ^ 53)%Z →
  ((0 < w)%Z → rounded_quotient q c w) ∧ (w = 0%Z → q = 0%Q).
Proof.
  unfold ratio_of. intros Hq Hc Hw.
  destruct (Z.ltb_spec 0 w) as [Hpos|Hz].
  - destruct (int_truediv_spec c w Hc Hpos) as (q' & Hq' & _ & _ & Hr).
    rewrite Hq' in Hq. injection Hq as <-. split; [auto | lia].
  - injection Hq as <-. split; [lia | done].
Qed.

(** The exact ratios add up to 1, so the rounded ones do up to [2^-53]. *)
Lemma rounded_ratios_sum (g e l w : Z) (qg qe ql : Q) :
  (g + e + l = w)%Z → (0 < w)%Z →
  rounded_quotient qg g w → rounded_quotient qe e w →
  rounded_quotient ql l w →
  (Qabs (qg + qe + ql - 1) <= pow2 (-53))%Q.
Proof.
  unfold rounded_quotient. intros Hsum Hw Hg He Hl.
  assert (Hne : ¬ (inject_Z w == 0)%Q).
  { pose proof (inject_Z_pos w Hw). lra. }
  assert (Es : (inject_Z g / inject_Z w + inject_Z e / inject_Z w
                + inject_Z l / inject_Z w == 1)%Q).
  { rewrite <- Hsum at 1 2 3. rewrite !inject_Z_plus. field.
    by rewrite <- !inject_Z_plus, Hsum. }
  set (xg := (inject_Z g / inject_Z w)%Q) in *.
  set (xe := (inject_Z e / inject_Z w)%Q) in *.
  set (xl := (inject_Z l / inject_Z w)%Q) in *.
  set (u := pow2 (-53)) in *.
  assert (Eu : (xg * u + xe * u + xl * u == u)%Q).
  { transitivity ((xg + xe + xl) * u)%Q; [ring|]. rewrite Es. ring. }
  apply Qabs_Qle_condition in Hg, He, Hl. apply Qabs_Qle_condition. lra.
Qed.

Section AnalyzeScoresProperties.
Variable score_stats : list json → outcome json.

(** X24.  In the dictionary [analyze_scores] returns for fewer than [2^53]
    data points, the three comparison counts add up to
    [points_with_scores], which is at most the number of data points and
    adds up with [points_without_scores] to it; when some point has scores
    each ratio is the quotient of its count by [points_with_scores] rounded
    to binary64, and the three ratios add up to 1 within [2^-53]; otherwise
    they are 0; the two statistics entries are there exactly when some
    point has scores. *)
Theorem analyze_counts_add_up (data : list json)
    (results : gmap string json) :
  analyze_scores score_stats data = OK results →
  (Z.of_nat (length data) < 2 ^ 53)%Z →
  ∃ (w g e l : Z) (qg qe ql : Q),
    results !! "total_points"
    = Some (JNum (inject_Z (Z.of_nat (length data)))) ∧
    results !! "points_with_scores" = Some (JNum (inject_Z w)) ∧
    results !! "points_without_scores"
    = Some (JNum (inject_Z (Z.of_nat (length data) - w))) ∧
    results !! "chosen_greater_count" = Some (JNum (inject_Z g)) ∧
    results !! "chosen_equal_count" = Some (JNum (inject_Z e)) ∧
    results !! "chosen_less_count" = Some (JNum (inject_Z l)) ∧
    results !! "chosen_greater_ratio" = Some (JNum qg) ∧
    results !! "chosen_equal_ratio" = Some (JNum qe) ∧
    results !! "chosen_less_ratio" = Some (JNum ql) ∧
    (g + e + l = w)%Z ∧ (0 ≤ g)%Z ∧ (0 ≤ e)%Z ∧ (0 ≤ l)%Z ∧
    (w ≤ Z.of_nat (length data))%Z ∧
    ((0 < w)%Z →
     rounded_quotient qg g w ∧ rounded_quotient qe e w ∧
     rounded_quotient ql l w ∧
     (Qabs (qg + qe + ql - 1) <= pow2 (-53))%Q) ∧
    (w = 0%Z → qg = 0%Q ∧ qe = 0%Q ∧ ql = 0%Q) ∧
    (is_Some (results !! "chosen_score_stats") ↔ (0 < w)%Z) ∧
    (is_Some (results !! "rejected_score_stats") ↔ (0 < w)%Z).
Proof.
  unfold analyze_scores. intros (t & Hloop & Hres)%bind_OK_inv Hn.
  apply bind_OK_inv in Hres as (qg & Hqg & Hres).
  apply bind_OK_inv in Hres as (qe & Hqe & Hres).
  apply bind_OK_inv in Hres as (ql & Hql & Hres).
  destruct (analyze_loop_counts data _ t 0%Z Hloop)
    as (Hsum & Hg & He & Hl & Hw & Hlen); try done.
  destruct (ratio_of_spec _ _ _ Hqg) as [Hg1 Hg0]; [lia | lia |].
  destruct (ratio_of_spec _ _ _ Hqe) as [He1 He0]; [lia | lia |].
  destruct (ratio_of_spec _ _ _ Hql) as [Hl1 Hl0]; [lia | lia |].
  exists (points_with_scores t), (chosen_greater_count t),
    (chosen_equal_count t), (chosen_less_count t), qg, qe, ql.
  assert (Hr : (0 < points_with_scores t)%Z →
    rounded_quotient qg (chosen_greater_count t) (points_with_scores t) ∧
    rounded_quotient qe (chosen_equal_count t) (points_with_scores t) ∧
    rounded_quotient ql (chosen_less_count t) (points_with_scores t) ∧
    (Qabs (qg + qe + ql - 1) <= pow2 (-53))%Q).
  { intros Hpos. do 3 (split; [auto|]).
    eapply rounded_ratios_sum; eauto. }
  assert (Hz : points_with_scores t = 0%Z → qg = 0%Q ∧ qe = 0%Q ∧ ql = 0%Q)
    by auto.
  clear Hg1 Hg0 He1 He0 Hl1 Hl0 Hqg Hqe Hql.
  case_bool_decide as Hcs.
  - injection Hres as <-. rewrite Hcs in Hlen. simpl in Hlen.
    do 9 (split; [reflexivity|]).
    do 7 (split; [done || lia|]).
    split; (split; [by intros [? [=]] | lia]).
  - apply bind_OK_inv in Hres as (cst & _ & (rst & _ & [= <-])%bind_OK_inv).
    assert (0 < points_with_scores t)%Z.
    { destruct (chosen_scores t); [done | simpl in Hlen; lia]. }
    do 9 (split; [reflexivity|]).
    do 7 (split; [done || lia|]).
    split; (split; [done | intros _; by eexists]).
Qed.

End AnalyzeScoresProperties.

Lemma analyze_counts_add_up_witness :
  ∃ (w g e l : Z) (qg qe ql : Q),
    analysis_results !! "points_with_scores" = Some (JNum (inject_Z w)) ∧
    analysis_results !! "chosen_greater_count" = Some (JNum (inject_Z g)) ∧
    analysis_results !! "chosen_equal_count" = Some (JNum (inject_Z e)) ∧
    analysis_results !! "chosen_less_count" = Some (JNum (inject_Z l)) ∧
    analysis_results !! "chosen_greater_ratio" = Some (JNum qg) ∧
    analysis_results !! "chosen_equal_ratio" = Some (JNum qe) ∧
    analysis_results !! "chosen_less_ratio" = Some (JNum ql) ∧
    (g + e + l = w)%Z ∧ (w ≤ Z.of_nat (length analysis_data))%Z ∧
    ((0 < w)%Z → (Qabs (qg + qe + ql - 1) <= pow2 (-53))%Q).
Proof.
  destruct (analyze_counts_add_up count_only_stats analysis_data
              analysis_results eq_refl eq_refl)
    as (w & g & e & l & qg & qe & ql & _ & Hw & _ & Hg & He & Hl & Hqg & Hqe &
        Hql & Hsum & _ & _ & _ & Hle & Hr & _).
  exists w, g, e, l, qg, qe, ql. do 9 (split; [assumption|]).
  intros Hpos. apply (Hr Hpos).
Defined.

(** Python's ordering of two scores is total where it is defined. *)
Lemma py_gt_false_lt (c r : json) :
  py_gt c r = OK false → py_lt c r = OK (negb (py_eq c r)).
Proof.
  unfold py_gt, py_lt, py_eq.
  destruct (num_of c) as [x|] eqn:Hc, (num_of r) as [y|] eqn:Hr.
  - intros [= H]. f_equal. apply Qltb_ge in H.
    destruct (Qeq_bool x y) eqn:He; simpl.
    + by apply Qltb_tied.
    + apply Qltb_lt. apply Qle_lteq in H as [H|H]; [done|].
      apply Qeq_bool_iff in H. congruence.
  - destruct c, r; try discriminate.
  - destruct c, r; try discriminate.
  - destruct c, r; try discriminate. intros [= H]. f_equal.
    unfold String.ltb in *. rewrite (String.compare_antisym s0 s) in H.
    destruct (String.eqb_spec s s0) as [->|Hne]; simpl.
    + pose proof (String.compare_antisym s0 s0) as Ha.
      by destruct (s0 ?= s0)%string.
    + destruct (s ?= s0)%string eqn:Hcmp; try done.
      by apply String.compare_eq_iff in Hcmp.
Qed.

Lemma analyze_step_less (t t' : tally) (m : gmap string json) :
  analyze_step t (JObj m) = OK t' →
  chosen_less_count t'
  = (chosen_less_count t + if predicate_true (JObj m) then 1 else 0)%Z.
Proof.
  unfold analyze_step, predicate_true, is_less. simpl.
  destruct (m !! "chosen_score") as [c|] eqn:Hc; simpl.
  2: { rewrite ?bool_decide_eq_false_2 by (by intros [? [=]]). simpl.
       intros [= <-]. lia. }
  rewrite ?bool_decide_eq_true_2 by eauto. simpl.
  destruct (m !! "rejected_score") as [r|] eqn:Hr; simpl.
  2: { rewrite ?bool_decide_eq_false_2 by (by intros [? [=]]). simpl.
       intros [= <-]. lia. }
  rewrite ?bool_decide_eq_true_2 by eauto. simpl.
  destruct (py_gt c r) as [[]|] eqn:Hgt; simpl; [| |done].
  - intros [= <-]. simpl. rewrite (py_lt_asym r c Hgt). lia.
  - rewrite (py_gt_false_lt c r Hgt).
    destruct (py_eq c r); intros [= <-]; simpl; lia.
Qed.

Section AnalyzeAndRebalance.
Variable score_stats : list json → outcome json.

(** X25.  On a list of dictionaries, the count [analyze_scores] reports as
    [chosen_less_count] is the size of the rebalancer's true class. *)
Theorem analyze_less_count_is_true_class (data : list json)
    (results : gmap string json) :
  analyze_scores score_stats data = OK results →
  Forall (λ item, ∃ m, item = JObj m) data →
  results !! "chosen_less_count"
  = Some (JNum (inject_Z
                  (Z.of_nat (length (List.filter predicate_true data))))).
Proof.
  unfold analyze_scores. intros (t & Hloop & Hres)%bind_OK_inv Hdict.
  apply bind_OK_inv in Hres as (qg & _ & Hres).
  apply bind_OK_inv in Hres as (qe & _ & Hres).
  apply bind_OK_inv in Hres as (ql & _ & Hres).
  assert (Hl : ∀ t0, foldM analyze_step t0 data = OK t →
            chosen_less_count t
            = (chosen_less_count t0
               + Z.of_nat (length (List.filter predicate_true data)))%Z).
  { clear Hloop Hres.
    induction Hdict as [|x data [m ->] _ IH]; intros t0; cbn [foldM].
    - intros [= <-]. simpl. lia.
    - intros (t1 & Hstep%analyze_step_less & Hrest%IH)%bind_OK_inv.
      rewrite Hrest, Hstep. cbn [List.filter].
      destruct (predicate_true (JObj m)); simpl length; lia. }
  pose proof (Hl _ Hloop) as E. cbn [chosen_less_count] in E.
  rewrite Z.add_0_l in E. rewrite <- E.
  case_bool_decide.
  - by injection Hres as <-.
  - apply bind_OK_inv in Hres as (cst & _ & (rst & _ & [= <-])%bind_OK_inv).
    reflexivity.
Qed.

End AnalyzeAndRebalance.

Lemma analyze_less_count_is_true_class_witness :
  analysis_results !! "chosen_less_count"
  = Some (JNum (inject_Z
                  (Z.of_nat
                     (length (List.filter predicate_true analysis_data))))).
Proof.
  apply (analyze_less_count_is_true_class count_only_stats analysis_data
           analysis_results eq_refl).
  repeat constructor; by eexists.
Defined.

(** ** Dataset conversion *)

Lemma chosen_step_message (msg role content : json)
    (conversations : list json) (chosen_response : option json) :
  is_message msg role content →
  Ultrafeedback.chosen_step (conversations, chosen_response) msg
  = OK (if py_eq_str role "user"
        then (conversations ++
                [JObj {[ "from" := JStr "human"; "value" := content ]}],
              chosen_response)
        else if py_eq_str role "assistant"
             then (conversations, Some content)
             else (conversations, chosen_response)).
Proof.
  intros (m & -> & Hr & Hc). unfold Ultrafeedback.chosen_step. simpl.
  rewrite Hr, Hc. simpl.
  by destruct (py_eq_str role "user"), (py_eq_str role "assistant").
Qed.

Lemma rejected_step_message (msg role content rejected_response : json) :
  is_message msg role content →
  Ultrafeedback.rejected_step rejected_response msg
  = OK (if py_eq_str role "assistant" then content else rejected_response).
Proof.
  intros (m & -> & Hr & Hc). unfold Ultrafeedback.rejected_step. simpl.
  rewrite Hr, Hc. simpl. by destruct (py_eq_str role "assistant").
Qed.

Lemma user_not_assistant (role : json) :
  py_eq_str role "user" = true → py_eq_str role "assistant" = false.
Proof.
  destruct role; try done. simpl. by intros ->%String.eqb_eq.
Qed.

Lemma chosen_loop (msgs : list json) (rcs : list (json * json))
    (conversations : list json) (chosen_response : option json) :
  Forall2 (λ msg rc, is_message msg rc.1 rc.2) msgs rcs →
  foldM Ultrafeedback.chosen_step (conversations, chosen_response) msgs
  = OK (conversations ++ human_turns rcs,
        match last_assistant rcs with
        | Some c => Some c
        | None => chosen_response
        end).
Proof.
  intros H. revert conversations chosen_response.
  induction H as [|msg [role content] msgs rcs Hmsg _ IH];
    intros conversations chosen_response; cbn [foldM].
  - by rewrite app_nil_r.
  - rewrite (chosen_step_message _ _ _ _ _ Hmsg). cbn [mbind outcome_bind].
    unfold human_turns, last_assistant in *. cbn [List.filter fst snd].
    destruct (py_eq_str role "user") eqn:Hu.
    + rewrite (user_not_assistant _ Hu), IH.
      by rewrite fmap_cons, <- (assoc_L (++)).
    + destruct (py_eq_str role "assistant") eqn:Ha; rewrite IH; [|done].
      rewrite fmap_cons, last_cons. cbn [snd]. by destruct (last _).
Qed.

Lemma rejected_loop (msgs : list json) (rcs : list (json * json))
    (rejected_response : json) :
  Forall2 (λ msg rc, is_message msg rc.1 rc.2) msgs rcs →
  foldM Ultrafeedback.rejected_step rejected_response msgs
  = OK (default rejected_response (last_assistant rcs)).
Proof.
  intros H. revert rejected_response.
  induction H as [|msg [role content] msgs rcs Hmsg _ IH];
    intros rejected_response; cbn [foldM]; [done|].
  rewrite (rejected_step_message _ _ _ _ Hmsg). cbn [mbind outcome_bind].
  unfold last_assistant in *. cbn [List.filter fst snd].
  destruct (py_eq_str role "assistant"); rewrite IH; [|done].
  rewrite fmap_cons, last_cons. cbn [snd]. by destruct (last _).
Qed.

Lemma convert_example (example : gmap string json)
    (chosen rejected : list json) (crcs rrcs : list (json * json)) :
  example !! "chosen" = Some (JArr chosen) →
  example !! "rejected" = Some (JArr rejected) →
  Forall2 (λ msg rc, is_message msg rc.1 rc.2) chosen crcs →
  Forall2 (λ msg rc, is_message msg rc.1 rc.2) rejected rrcs →
  Ultrafeedback.convert_to_dpo_format (JObj example)
  = match last_assistant crcs with
    | None => Ultrafeedback.RaisedUnboundLocalError
    | Some chosen_response =>
        Ultrafeedback.Converted
          {[ "conversations" := JArr (human_turns crcs);
             "chosen" :=
               JObj {[ "from" := JStr "gpt"; "value" := chosen_response ]};
             "rejected" :=
               JObj {[ "from" := JStr "gpt";
                       "value" := default JNull (last_assistant rrcs) ]} ]}
    end.
Proof.
  intros Hc Hr Hcm Hrm.
  unfold Ultrafeedback.convert_to_dpo_format, Ultrafeedback.collect.
  cbn [py_getitem]. rewrite Hc, Hr. cbn [py_iter mbind outcome_bind].
  rewrite (chosen_loop chosen crcs [] None Hcm). cbn [mbind outcome_bind].
  rewrite (rejected_loop rejected rrcs JNull Hrm). cbn [mbind outcome_bind].
  rewrite app_nil_l. by destruct (last_assistant crcs).
Qed.

(** X26.  On an example whose two message lists hold dictionaries with a
    role and a content, the conversion raises [UnboundLocalError] when the
    chosen list has no assistant message; otherwise it returns the user
    messages of the chosen list, in order, as the conversation, the content
    of the last assistant message of the chosen list as the chosen
    response, and that of the rejected list (or null) as the rejected
    response. *)
Theorem ultrafeedback_conversion (example : gmap string json)
    (chosen rejected : list json) (crcs rrcs : list (json * json)) :
  example !! "chosen" = Some (JArr chosen) →
  example !! "rejected" = Some (JArr rejected) →
  Forall2 (λ msg rc, is_message msg rc.1 rc.2) chosen crcs →
  Forall2 (λ msg rc, is_message msg rc.1 rc.2) rejected rrcs →
  Ultrafeedback.convert_to_dpo_format (JObj example)
  = match last_assistant crcs with
    | None => Ultrafeedback.RaisedUnboundLocalError
    | Some chosen_response =>
        Ultrafeedback.Converted
          {[ "conversations" := JArr (human_turns crcs);
             "chosen" :=
               JObj {[ "from" := JStr "gpt"; "value" := chosen_response ]};
             "rejected" :=
               JObj {[ "from" := JStr "gpt";
                       "value" := default JNull (last_assistant rrcs) ]} ]}
    end.
Proof.
  intros Hc Hr Hcm Hrm.
  unfold Ultrafeedback.convert_to_dpo_format, Ultrafeedback.collect.
  cbn [py_getitem]. rewrite Hc, Hr. cbn [py_iter mbind outcome_bind].
  rewrite (chosen_loop chosen crcs [] None Hcm). cbn [mbind outcome_bind].
  rewrite (rejected_loop rejected rrcs JNull Hrm). cbn [mbind outcome_bind].
  rewrite app_nil_l. by destruct (last_assistant crcs).
Qed.

Lemma ultrafeedback_conversion_witness :
  Ultrafeedback.convert_to_dpo_format
    (ultrafeedback_example
       [message "user" "Q"; message "assistant" "good"]
       [message "user" "Q"; message "assistant" "bad"])
  = Ultrafeedback.Converted (human_pair "Q" "good" "bad") ∧
  Ultrafeedback.convert_to_dpo_format
    (ultrafeedback_example [message "user" "Q"] [message "assistant" "bad"])
  = Ultrafeedback.RaisedUnboundLocalError.
Proof.
  split.
  - refine (eq_trans
      (ultrafeedback_conversion
         {[ "chosen" := JArr [message "user" "Q"; message "assistant" "good"];
            "rejected" := JArr [message "user" "Q"; message "assistant" "bad"] ]}
         [message "user" "Q"; message "assistant" "good"]
         [message "user" "Q"; message "assistant" "bad"]
         [(JStr "user", JStr "Q"); (JStr "assistant", JStr "good")]
         [(JStr "user", JStr "Q"); (JStr "assistant", JStr "bad")]
         eq_refl eq_refl _ _) _).
    + repeat constructor; eexists; (split; [reflexivity|]); split; reflexivity.
    + repeat constructor; eexists; (split; [reflexivity|]); split; reflexivity.
    + reflexivity.
  - refine (eq_trans
      (ultrafeedback_conversion
         {[ "chosen" := JArr [message "user" "Q"];
            "rejected" := JArr [message "assistant" "bad"] ]}
         [message "user" "Q"] [message "assistant" "bad"]
         [(JStr "user", JStr "Q")] [(JStr "assistant", JStr "bad")]
         eq_refl eq_refl _ _) _).
    + repeat constructor; eexists; (split; [reflexivity|]); split; reflexivity.
    + repeat constructor; eexists; (split; [reflexivity|]); split; reflexivity.
    + reflexivity.
Defined.

(** X27.  What [convert_dpo_to_sft] makes of a converted example: nothing
    when the chosen list had no user message (the pair is skipped), and
    otherwise one record with the first user message as instruction and the
    chosen response as output. *)
Theorem ultrafeedback_then_sft (py_str : json → string)
    (example : gmap string json) (chosen rejected : list json)
    (crcs rrcs : list (json * json)) (result : gmap string json)
    (sft_data : list (gmap string json)) :
  example !! "chosen" = Some (JArr chosen) →
  example !! "rejected" = Some (JArr rejected) →
  Forall2 (λ msg rc, is_message msg rc.1 rc.2) chosen crcs →
  Forall2 (λ msg rc, is_message msg rc.1 rc.2) rejected rrcs →
  Ultrafeedback.convert_to_dpo_format (JObj example)
  = Ultrafeedback.Converted result →
  ∃ chosen_response,
    last_assistant crcs = Some chosen_response ∧
    dpo_to_sft_step py_str sft_data (JObj result)
    = match List.filter (λ rc : json * json, py_eq_str rc.1 "user") crcs with
      | [] => OK sft_data
      | rc :: _ => OK (sft_data ++ [sft_entry rc.2 chosen_response])
      end.
Proof.
  intros Hc Hr Hcm Hrm Hconv.
  rewrite (convert_example example chosen rejected crcs rrcs
             Hc Hr Hcm Hrm) in Hconv.
  destruct (last_assistant crcs) as [cr|]; [|done].
  injection Hconv as <-. exists cr. split; [done|].
  unfold dpo_to_sft_step, human_turns.
  destruct (List.filter _ crcs) as [|rc rest]; reflexivity.
Qed.

Lemma ultrafeedback_then_sft_witness :
  ∃ chosen_response,
    last_assistant [(JStr "user", JStr "Q"); (JStr "assistant", JStr "good")]
    = Some chosen_response ∧
    dpo_to_sft_step (λ _, "") [] (JObj (human_pair "Q" "good" "bad"))
    = match List.filter (λ rc : json * json, py_eq_str rc.1 "user")
              [(JStr "user", JStr "Q"); (JStr "assistant", JStr "good")] with
      | [] => OK []
      | rc :: _ => OK ([] ++ [sft_entry rc.2 chosen_response])
      end.
Proof.
  apply (ultrafeedback_then_sft (λ _, "")
           {[ "chosen" := JArr [message "user" "Q"; message "assistant" "good"];
              "rejected" := JArr [message "user" "Q"; message "assistant" "bad"] ]}
           [message "user" "Q"; message "assistant" "good"]
           [message "user" "Q"; message "assistant" "bad"]
           [(JStr "user", JStr "Q"); (JStr "assistant", JStr "good")]
           [(JStr "user", JStr "Q"); (JStr "assistant", JStr "bad")]
           (human_pair "Q" "good" "bad") []).
  - reflexivity.
  - reflexivity.
  - repeat constructor; eexists; (split; [reflexivity|]); split; reflexivity.
  - repeat constructor; eexists; (split; [reflexivity|]); split; reflexivity.
  - reflexivity.
Defined.
